(** * Snowflake pipeline scripts: connector, API ingestion, file ingestion
      and pipeline orchestrator, as a shallow embedding.

    The Python classes of [scripts/utils/snowflake_connector.py],
    [scripts/ingestion/api_ingestion.py], [scripts/ingestion/file_ingestion.py]
    and [scripts/orchestration/pipeline_orchestrator.py] are embedded as
    computations in a state-and-exception monad.  Everything outside the
    repository (the warehouse, the HTTP server, the file system, the clock,
    the process environment) is an [environ]: an oracle that answers each
    external call from the history of calls made so far.  Every external call
    is appended to a trace, so that "which calls were made, in which order"
    is a statement about the final state. *)

From Stdlib Require Import ZArith List Lia Bool Ascii String.
From stdpp Require Import gmap strings list pretty.

Set Warnings "-register-all".

Open Scope string_scope.
Open Scope Z_scope.
Open Scope list_scope.

(** ** Python values *)

(** The values that are neither a list nor a dict.  A float is carried by
    its [repr], which is what [str] prints. *)
Inductive scalar : Type :=
| SNone
| SBool (b : bool)
| SInt (n : Z)
| SFloat (repr : string)
| SStr (s : string).

(** Decoded JSON bodies.  A [dict] keeps its items in insertion order, keys
    unique. *)
Inductive pyval : Type :=
| PScalar (x : scalar)
| PList (items : list pyval)
| PDict (items : list (string * pyval)).

Abbreviation PNone := (PScalar SNone).
Abbreviation PBool b := (PScalar (SBool b)).
Abbreviation PInt n := (PScalar (SInt n)).
Abbreviation PFloat r := (PScalar (SFloat r)).
Abbreviation PStr s := (PScalar (SStr s)).

(** [key in d] and [d[key]] on a decoded mapping. *)
Fixpoint dict_get (items : list (string * pyval)) (key : string) : option pyval :=
  match items with
  | [] => None
  | (k, v) :: rest => if String.eqb k key then Some v else dict_get rest key
  end.

Definition isinstance_list (v : pyval) : bool :=
  match v with PList _ => true | _ => false end.

(** Python truth value. *)
Definition truthy (v : pyval) : bool :=
  match v with
  | PNone => false
  | PBool b => b
  | PInt n => negb (n =? 0)
  | PFloat r => negb (String.eqb r "0.0" || String.eqb r "-0.0")
  | PStr s => negb (String.eqb s "")
  | PList l => match l with [] => false | _ => true end
  | PDict d => match d with [] => false | _ => true end
  end.

(** [str(x)] *)
Definition py_str (x : scalar) : string :=
  match x with
  | SNone => "None"
  | SBool true => "True"
  | SBool false => "False"
  | SInt n => pretty n
  | SFloat r => r
  | SStr s => s
  end.

(** [a or b] on an optional string: [None] and [''] are falsy. *)
Definition or_else (a : option string) (b : string) : string :=
  match a with
  | Some s => if String.eqb s "" then b else s
  | None => b
  end.

(** ** Database rows *)

Inductive cell : Type :=
| CNull
| CInt (n : Z)
| CStr (s : string).

Definition row : Type := list cell.

(** ** Exceptions

    Every class below derives from [Exception]; [RequestException] stands for
    [requests.exceptions.RequestException] and its subclasses. *)
Inductive exn_class : Type :=
| RequestException
| ZeroDivisionError
| TypeError
| OSError
| DatabaseError
| ValueError
| OverflowError
| OtherError.

Record exn : Type := Exn { exn_cls : exn_class; exn_msg : string }.

Definition is_request_exception (e : exn) : bool :=
  match exn_cls e with RequestException => true | _ => false end.

(** [str(e)] *)
Definition str_exn (e : exn) : string := exn_msg e.

(** ** SQL statements

    The statements the scripts build with f-strings, one constructor per
    template, the arguments being the holes of the template.  [SqlText] is a
    statement taken verbatim from a file. *)
Inductive sql : Type :=
| SqlText (text : string)
| SqlInsertPipelineLog (pipeline_name run_id : string)
| SqlUpdatePipelineLog (pipeline_name status : string)
    (rows_processed rows_failed : Z) (error_message : string)
    (run_id : string)
| SqlCallCleanRawData (run_id : string)
| SqlCallRemoveDuplicates (run_id : string)
| SqlCallApplyBusinessTransforms (run_id : string)
| SqlCallRunAllValidations (run_id : string)
| SqlCountFailedChecks (run_id : string)
| SqlCreateTable (target_table : string)
| SqlInsertRow (target_table payload timestamp run_id source : string)
| SqlPipeStatus (pipe_name : string).

(** ** External calls *)

(** Connections are numbered; a cursor is identified with its connection. *)
Inductive db_call : Type :=
| DbConnect
| DbCursor (conn : nat)
| DbExecute (conn : nat) (stmt : sql)
| DbFetchone (conn : nat)
| DbCommit (conn : nat)
| DbCursorClose (conn : nat)
| DbClose (conn : nat).

(** [time.sleep] argument: a number of seconds, or [1.0 / n] seconds. *)
Inductive duration : Type :=
| Seconds (n : Z)
| OneOver (n : Z).

Record request : Type := Request {
  req_method : string;
  req_url : string;
  req_headers : gmap string string;
  req_params : gmap string string;
  req_timeout : Z
}.

Inductive event : Type :=
| EvSleep (d : duration)
| EvPrint (line : string)
| EvRequest (r : request)
| EvDb (c : db_call)
| EvOpen (path : string)
| EvLoadConfig (path : string).

(** ** Configuration (the YAML file, after [yaml.safe_load])

    Keys read with [d[key]] are plain fields; keys read with [d.get(key, ..)]
    are optional.  In a loaded configuration [ep_headers] is a reference to
    the dict object in the store, so that sharing between the configuration
    and a caller is visible. *)
Record endpoint_of (H : Type) : Type := Endpoint {
  ep_name : string;
  ep_url : string;
  ep_target_table : string;
  ep_method : option string;
  ep_headers : option H;
  ep_params : option (gmap string string);
  ep_auth_type : option string;
  ep_bearer_token : option string;
  ep_api_key : option string;
  ep_enabled : option bool
}.
Arguments Endpoint {H}.
Arguments ep_name {H}.
Arguments ep_url {H}.
Arguments ep_target_table {H}.
Arguments ep_method {H}.
Arguments ep_headers {H}.
Arguments ep_params {H}.
Arguments ep_auth_type {H}.
Arguments ep_bearer_token {H}.
Arguments ep_api_key {H}.
Arguments ep_enabled {H}.

(** An endpoint of a loaded configuration: its headers are a dict object. *)
Definition endpoint : Type := endpoint_of nat.

Definition with_headers {H1 H2} (ep : endpoint_of H1) (h : option H2) : endpoint_of H2 :=
  {| ep_name := ep_name ep; ep_url := ep_url ep;
     ep_target_table := ep_target_table ep; ep_method := ep_method ep;
     ep_headers := h; ep_params := ep_params ep;
     ep_auth_type := ep_auth_type ep; ep_bearer_token := ep_bearer_token ep;
     ep_api_key := ep_api_key ep; ep_enabled := ep_enabled ep |}.

Record rate_limit : Type := RateLimit {
  rl_retry_attempts : option Z;
  rl_retry_delay : option Z;
  rl_requests_per_second : option Z
}.

Record api_config_of (H : Type) : Type := ApiConfig {
  ac_rate_limit : option rate_limit;
  ac_endpoints : option (list (endpoint_of H))
}.
Arguments ApiConfig {H}.
Arguments ac_rate_limit {H}.
Arguments ac_endpoints {H}.

Definition api_config : Type := api_config_of nat.

(** What the YAML text denotes, the [headers] mappings by their contents;
    loading it creates the dict objects. *)
Record config : Type := Config {
  cfg_api_ingestion : option (api_config_of (gmap string string))
}.

(** ** The environment *)

Record environ : Type := Environ {
  (** [os.getenv] *)
  env_getenv : string -> option string;
  (** [requests.request], [raise_for_status] and [response.json] together:
      the decoded body, or the exception one of the three raised *)
  env_http : list event -> request -> exn + pyval;
  (** the warehouse: success (with the rows a fetch would see) or an error *)
  env_db : list event -> db_call -> exn + list row;
  (** [open(path).read()] *)
  env_read : list event -> string -> exn + string;
  (** [open(path)] and [yaml.safe_load] *)
  env_yaml : list event -> string -> exn + config;
  (** [datetime.now().strftime('%Y%m%d_%H%M%S')] *)
  env_now : list event -> string;
  (** [str(uuid.uuid4())] *)
  env_uuid4 : list event -> string;
  (** [pd.DataFrame(data)] with the metadata columns added, row by row *)
  env_dataframe : pyval -> string -> string -> exn + list pyval;
  (** [json.dumps(row.to_dict())] *)
  env_json_dumps : pyval -> exn + string;
  (** the operating system's part of [time.sleep]: the wait, or the error
      of the system call *)
  env_sleep : list event -> duration -> exn + unit
}.

(** ** Program state *)

Record state : Type := State {
  (** external calls made so far, oldest first *)
  trace : list event;
  (** the store of header dicts, indexed by reference *)
  dicts : list (gmap string string);
  (** [SnowflakeConnector] objects: the [connection] attribute of each *)
  connectors : list (option nat);
  (** connection objects: [is_closed()] of each *)
  conns : list bool
}.

Definition initial_state : state :=
  {| trace := []; dicts := []; connectors := []; conns := [] |}.

Definition add_events (es : list event) (st : state) : state :=
  {| trace := trace st ++ es; dicts := dicts st;
     connectors := connectors st; conns := conns st |}.

Definition add_event (e : event) (st : state) : state := add_events [e] st.

Definition set_dicts (ds : list (gmap string string)) (st : state) : state :=
  {| trace := trace st; dicts := ds;
     connectors := connectors st; conns := conns st |}.

Definition set_connectors (cs : list (option nat)) (st : state) : state :=
  {| trace := trace st; dicts := dicts st; connectors := cs; conns := conns st |}.

Definition set_conns (cs : list bool) (st : state) : state :=
  {| trace := trace st; dicts := dicts st; connectors := connectors st; conns := cs |}.

(** ** The monad: reader of the environment, state, exceptions *)

Inductive outcome (A : Type) : Type :=
| Ok (a : A)
| Raise (e : exn).
Arguments Ok {A} a.
Arguments Raise {A} e.

Definition M (A : Type) : Type := environ -> state -> outcome A * state.

Definition ret {A} (a : A) : M A := fun _ st => (Ok a, st).

Definition bind {A B} (m : M A) (k : A -> M B) : M B :=
  fun env st =>
    match m env st with
    | (Ok a, st') => k a env st'
    | (Raise e, st') => (Raise e, st')
    end.

Definition raise {A} (e : exn) : M A := fun _ st => (Raise e, st).

Declare Scope py_scope.
Delimit Scope py_scope with py.
Notation "x <- m ;; k" := (bind m (fun x => k))
  (at level 100, m at next level, right associativity) : py_scope.
Notation "m ;;; k" := (bind m (fun _ => k))
  (at level 100, right associativity) : py_scope.
Open Scope py_scope.

(** [try: body  except <classes>: handler] *)
Definition try_except {A} (body : M A) (catches : exn -> bool) (handler : exn -> M A) : M A :=
  fun env st =>
    match body env st with
    | (Ok a, st') => (Ok a, st')
    | (Raise e, st') => if catches e then handler e env st' else (Raise e, st')
    end.

(** [except Exception]: every modelled class derives from [Exception]. *)
Definition any_exception (e : exn) : bool := true.

(** [try: body  finally: cleanup]: the cleanup runs on both exits, and an
    exception of the cleanup replaces the body's outcome. *)
Definition try_finally {A} (body : M A) (cleanup : M unit) : M A :=
  fun env st =>
    match body env st with
    | (r, st') =>
        match cleanup env st' with
        | (Ok _, st'') => (r, st'')
        | (Raise e, st'') => (Raise e, st'')
        end
    end.

Definition get_state : M state := fun _ st => (Ok st, st).
Definition get_env : M environ := fun env st => (Ok env, st).

Definition log_event (e : event) : M unit :=
  fun _ st => (Ok tt, add_event e st).

Definition of_sum {A} (r : exn + A) : M A :=
  match r with inl e => raise e | inr a => ret a end.

(** *** Primitive effects *)

Definition print (line : string) : M unit := log_event (EvPrint line).

(** From this magnitude on an [int] cannot be converted to a float. *)
Definition float_limit : Z := 2 ^ 1024 - 2 ^ 970.

(** The number of seconds beyond which an [int] no longer fits the signed
    64-bit count of nanoseconds [time.sleep] converts its argument to. *)
Definition max_sleep_seconds : Z := 9223372036.

(** The wait itself: the call is recorded and the oracle tells what the
    system call answered. *)
Definition os_sleep (d : duration) : M unit :=
  fun env st =>
    (match env_sleep env (trace st) d with inl e => Raise e | inr _ => Ok tt end,
     add_event (EvSleep d) st).

(** [time.sleep(secs)], for an [int] ([Seconds n]) and for the float
    [1.0 / n] ([OneOver n], with [n] other than 0).  CPython first converts
    the argument to nanoseconds, which raises [OverflowError] for an [int]
    of more than [max_sleep_seconds] in either direction; it then raises
    [ValueError] for a negative length; only then is the operating system
    asked to wait.  The float [1.0 / n] lies between -1 and 1 and has the
    sign of [n]. *)
Definition sleep (d : duration) : M unit :=
  match d with
  | Seconds n =>
      if (n <? - max_sleep_seconds) || (max_sleep_seconds <? n) then
        raise (Exn OverflowError "timestamp too large to convert to C _PyTime_t")
      else if n <? 0 then
        raise (Exn ValueError "sleep length must be non-negative")
      else os_sleep d
  | OneOver n =>
      if n <? 0 then
        raise (Exn ValueError "sleep length must be non-negative")
      else os_sleep d
  end.

(** A warehouse call: the oracle answers from the history, the call is
    recorded, and an error answer is raised. *)
Definition db_op (c : db_call) : M (list row) :=
  env <- get_env ;; st <- get_state ;;
  log_event (EvDb c) ;;;
  of_sum (env_db env (trace st) c).

Definition http_request (r : request) : M pyval :=
  env <- get_env ;; st <- get_state ;;
  log_event (EvRequest r) ;;;
  of_sum (env_http env (trace st) r).

Definition read_file (path : string) : M string :=
  env <- get_env ;; st <- get_state ;;
  log_event (EvOpen path) ;;;
  of_sum (env_read env (trace st) path).

Definition load_yaml (path : string) : M config :=
  env <- get_env ;; st <- get_state ;;
  log_event (EvLoadConfig path) ;;;
  of_sum (env_yaml env (trace st) path).

Definition now_strftime : M string :=
  env <- get_env ;; st <- get_state ;; ret (env_now env (trace st)).

Definition uuid4 : M string :=
  env <- get_env ;; st <- get_state ;; ret (env_uuid4 env (trace st)).

Definition getenv (var : string) : M (option string) :=
  env <- get_env ;; ret (env_getenv env var).

(** *** The store of dict objects *)

(** A new dict object; its reference is returned. *)
Definition alloc_dict (d : gmap string string) : M nat :=
  fun _ st => (Ok (length (dicts st)), set_dicts (dicts st ++ [d]) st).

Definition read_dict (ref : nat) : M (gmap string string) :=
  st <- get_state ;; ret (default ∅ (dicts st !! ref)).

(** [d[key] = value] on the object [ref]. *)
Definition dict_setitem (ref : nat) (key value : string) : M unit :=
  fun _ st =>
    (Ok tt, set_dicts (alter (fun d => <[key := value]> d) ref (dicts st)) st).

(** [for x in xs: body x] *)
Fixpoint for_each {A} (xs : list A) (body : A -> M unit) : M unit :=
  match xs with
  | [] => ret tt
  | x :: rest => body x ;;; for_each rest body
  end.

(** ** [str.split] and [str.strip] *)

(** [s.split(sep)] for a one-character separator. *)
Fixpoint split (sep : ascii) (s : string) : list string :=
  match s with
  | EmptyString => [EmptyString]
  | String c rest =>
      match split sep rest with
      | [] => [EmptyString]
      | field :: fields =>
          if Ascii.eqb c sep then EmptyString :: field :: fields
          else String c field :: fields
      end
  end.

(** [str.isspace] on the code points below 256. *)
Definition is_space (c : ascii) : bool :=
  let n := nat_of_ascii c in
  ((9 <=? n) && (n <=? 13) || (28 <=? n) && (n <=? 32)
   || (n =? 133) || (n =? 160))%nat.

Fixpoint lstrip (s : string) : string :=
  match s with
  | EmptyString => EmptyString
  | String c rest => if is_space c then lstrip rest else s
  end.

Fixpoint rstrip (s : string) : string :=
  match s with
  | EmptyString => EmptyString
  | String c rest =>
      match rstrip rest with
      | EmptyString => if is_space c then EmptyString else String c EmptyString
      | kept => String c kept
      end
  end.

Definition strip (s : string) : string := rstrip (lstrip s).

Definition nonempty (s : string) : bool := negb (String.eqb s "").

(** ** [SnowflakeConnector] *)

Module SnowflakeConnector.

(** [self.connection] *)
Definition connection (self : nat) : M (option nat) :=
  st <- get_state ;; ret (mjoin (connectors st !! self)).

Definition set_connection (self : nat) (c : option nat) : M unit :=
  fun _ st => (Ok tt, set_connectors (<[self := c]> (connectors st)) st).

(** [conn.is_closed()] *)
Definition is_closed (conn : nat) : M bool :=
  st <- get_state ;; ret (default true (conns st !! conn)).

(** [__init__]: the configuration is loaded, [self.connection = None]. *)
Definition init (config_path : string) : M nat :=
  load_yaml config_path ;;;
  fun _ st =>
    (Ok (length (connectors st)), set_connectors (connectors st ++ [None]) st).

(** [snowflake.connector.connect(...)], the resolution of the credentials
    included: a new, open connection object, or the error raised. *)
Definition open_connection : M nat :=
  db_op DbConnect ;;;
  fun _ st => (Ok (length (conns st)), set_conns (conns st ++ [false]) st).

Definition connect (self : nat) : M nat :=
  cur <- connection self ;;
  match cur with
  | None =>
      c <- open_connection ;; set_connection self (Some c) ;;; ret c
  | Some c0 =>
      closed <- is_closed c0 ;;
      if closed then
        c <- open_connection ;; set_connection self (Some c) ;;; ret c
      else ret c0
  end.

(** The statements [execute_file] runs for a file content: the pieces
    between semicolons, stripped, the empty ones dropped. *)
Definition statements (content : string) : list string :=
  List.filter nonempty (map strip (split ";" content)).

Definition execute_file (self : nat) (file_path : string) : M unit :=
  conn <- connect self ;;
  db_op (DbCursor conn) ;;;
  try_finally
    (content <- read_file file_path ;;
     for_each (split ";" content)
       (fun statement =>
          let statement := strip statement in
          if nonempty statement
          then db_op (DbExecute conn (SqlText statement)) ;;; ret tt
          else ret tt) ;;;
     db_op (DbCommit conn) ;;; ret tt)
    (db_op (DbCursorClose conn) ;;; ret tt).

(** [conn.close()]: the connection object becomes closed. *)
Definition close_connection (conn : nat) : M unit :=
  db_op (DbClose conn) ;;;
  fun _ st => (Ok tt, set_conns (<[conn := true]> (conns st)) st).

Definition close (self : nat) : M unit :=
  cur <- connection self ;;
  match cur with
  | Some c =>
      closed <- is_closed c ;;
      if negb closed then
        close_connection c ;;; set_connection self None
      else ret tt
  | None => ret tt
  end.

End SnowflakeConnector.

(** ** [APIIngestion] *)

Module APIIngestion.

Record t : Type := Make { api_config_ : api_config; snowflake : nat }.

(** [for x in xs] collecting the results. *)
Fixpoint map_m {A B} (f : A -> M B) (xs : list A) : M (list B) :=
  match xs with
  | [] => ret []
  | x :: rest => y <- f x ;; ys <- map_m f rest ;; ret (y :: ys)
  end.

(** Loading creates one dict object per [headers] mapping. *)
Definition place_headers (ep : endpoint_of (gmap string string)) : M endpoint :=
  match ep_headers ep with
  | Some d => ref <- alloc_dict d ;; ret (with_headers ep (Some ref))
  | None => ret (with_headers ep None)
  end.

Definition place_config (c : api_config_of (gmap string string)) : M api_config :=
  match ac_endpoints c with
  | Some eps =>
      eps' <- map_m place_headers eps ;;
      ret {| ac_rate_limit := ac_rate_limit c; ac_endpoints := Some eps' |}
  | None => ret {| ac_rate_limit := ac_rate_limit c; ac_endpoints := None |}
  end.

(** [__init__]; [self.config.get('api_ingestion', {})] *)
Definition init (config_path : string) : M t :=
  cfg <- load_yaml config_path ;;
  api <- match cfg_api_ingestion cfg with
         | Some c => place_config c
         | None => ret {| ac_rate_limit := None; ac_endpoints := None |}
         end ;;
  sf <- SnowflakeConnector.init config_path ;;
  ret {| api_config_ := api; snowflake := sf |}.

Definition _get_auth_headers (self : t) (endpoint_config : endpoint) : M nat :=
  configured <- match ep_headers endpoint_config with
                | Some ref => ret ref
                | None => alloc_dict ∅
                end ;;
  contents <- read_dict configured ;;
  headers <- alloc_dict contents ;;
  let auth_type := default "none" (ep_auth_type endpoint_config) in
  (if String.eqb auth_type "bearer" then
     env_token <- getenv "API_BEARER_TOKEN" ;;
     let token := or_else env_token (default "" (ep_bearer_token endpoint_config)) in
     dict_setitem headers "Authorization" ("Bearer " +:+ token)
   else if String.eqb auth_type "api_key" then
     env_key <- getenv "API_KEY" ;;
     let api_key := or_else env_key (default "" (ep_api_key endpoint_config)) in
     dict_setitem headers "X-API-Key" api_key
   else ret tt) ;;;
  ret headers.

(** Lines 83-94: the shape of the decoded body decides what is returned. *)
Definition normalize_response (data : pyval) : pyval :=
  match data with
  | PList _ => data
  | PDict items =>
      match dict_get items "data" with
      | Some v => if isinstance_list v then v else PList [v]
      | None =>
          match dict_get items "results" with
          | Some v => if isinstance_list v then v else PList [v]
          | None => PList [data]
          end
      end
  | PScalar x => PList [PDict [("raw_data", PStr (py_str x))]]
  end.

(** [range(n)] *)
Definition range (n : Z) : list Z := map Z.of_nat (seq 0 (Z.to_nat n)).

(** [time.sleep(1.0 / requests_per_second)]: the division raises
    [ZeroDivisionError] for 0 and [OverflowError] for an [int] that does
    not fit a float; [time.sleep] then refuses a negative quotient. *)
Definition rate_limit_sleep (requests_per_second : Z) : M unit :=
  if requests_per_second =? 0 then
    raise (Exn ZeroDivisionError "float division by zero")
  else if float_limit <=? Z.abs requests_per_second then
    raise (Exn OverflowError "int too large to convert to float")
  else sleep (OneOver requests_per_second).

Section FetchLoop.
Variables (url method : string) (headers : nat) (params : gmap string string).
Variables (rate_limit_ : rate_limit) (max_retries retry_delay : Z).

(** The body of [for attempt in range(max_retries)], and line 104 after
    the loop. *)
Fixpoint fetch_attempts (attempts : list Z) : M (option pyval) :=
  match attempts with
  | [] => ret None
  | attempt :: rest =>
      try_except
        (let requests_per_second :=
           default 10 (rl_requests_per_second rate_limit_) in
         rate_limit_sleep requests_per_second ;;;
         sent <- read_dict headers ;;
         data <- http_request (Request method url sent params 30) ;;
         ret (Some (normalize_response data)))
        is_request_exception
        (fun e =>
           if attempt <? max_retries - 1 then
             print ("Attempt " +:+ pretty (attempt + 1) +:+ " failed: "
                    +:+ str_exn e +:+ ". Retrying in "
                    +:+ pretty retry_delay +:+ " seconds...") ;;;
             sleep (Seconds retry_delay) ;;;
             fetch_attempts rest
           else
             print ("Failed to fetch data from " +:+ url +:+ " after "
                    +:+ pretty max_retries +:+ " attempts: "
                    +:+ str_exn e) ;;;
             ret None)
  end.
End FetchLoop.

Definition _fetch_api_data (self : t) (endpoint_config : endpoint) : M (option pyval) :=
  let url := ep_url endpoint_config in
  let method := default "GET" (ep_method endpoint_config) in
  headers <- _get_auth_headers self endpoint_config ;;
  let params := default ∅ (ep_params endpoint_config) in
  let rate_limit_ :=
    default (RateLimit None None None) (ac_rate_limit (api_config_ self)) in
  let max_retries := default 3 (rl_retry_attempts rate_limit_) in
  let retry_delay := default 5 (rl_retry_delay rate_limit_) in
  fetch_attempts url method headers params rate_limit_ max_retries retry_delay
    (range max_retries).

(** [len(data)] *)
Definition py_len (data : pyval) : M Z :=
  match data with
  | PList l => ret (Z.of_nat (length l))
  | PDict d => ret (Z.of_nat (length d))
  | PStr s => ret (Z.of_nat (String.length s))
  | PScalar _ => raise (Exn TypeError "object has no len()")
  end.

Definition _load_to_snowflake (self : t) (data : pyval)
    (target_table run_id : string) : M bool :=
  if negb (truthy data) then
    print "No data to load" ;;; ret false
  else
    try_except
      (conn <- SnowflakeConnector.connect (snowflake self) ;;
       db_op (DbCursor conn) ;;;
       env <- get_env ;;
       timestamp <- now_strftime ;;
       df <- of_sum (env_dataframe env data timestamp run_id) ;;
       db_op (DbExecute conn (SqlCreateTable target_table)) ;;;
       for_each df
         (fun row =>
            payload <- of_sum (env_json_dumps env row) ;;
            db_op (DbExecute conn
                     (SqlInsertRow target_table payload timestamp run_id "API")) ;;;
            ret tt) ;;;
       db_op (DbCommit conn) ;;;
       db_op (DbCursorClose conn) ;;;
       n <- py_len data ;;
       print ("Successfully loaded " +:+ pretty n +:+ " rows into "
              +:+ target_table) ;;;
       ret true)
      any_exception
      (fun e => print ("Error loading data to Snowflake: " +:+ str_exn e) ;;;
                ret false).

(** The generator expression of lines 162-165. *)
Definition selects (endpoint_name : string) (ep : endpoint) : bool :=
  String.eqb (ep_name ep) endpoint_name && default true (ep_enabled ep).

Definition ingest_endpoint (self : t) (endpoint_name : string) : M bool :=
  let endpoints := default [] (ac_endpoints (api_config_ self)) in
  match List.find (selects endpoint_name) endpoints with
  | None =>
      print ("Endpoint " +:+ endpoint_name +:+ " not found or disabled") ;;;
      ret false
  | Some endpoint_config =>
      print ("Ingesting data from " +:+ endpoint_name +:+ "...") ;;;
      stamp <- now_strftime ;;
      let run_id := "API_" +:+ endpoint_name +:+ "_" +:+ stamp in
      data <- _fetch_api_data self endpoint_config ;;
      match data with
      | None => ret false
      | Some data =>
          let target_table := ep_target_table endpoint_config in
          _load_to_snowflake self data target_table run_id
      end
  end.

Fixpoint ingest_each (self : t) (endpoints : list endpoint)
    (results : gmap string bool) : M (gmap string bool) :=
  match endpoints with
  | [] => ret results
  | ep :: rest =>
      if default true (ep_enabled ep) then
        let endpoint_name := ep_name ep in
        ok <- ingest_endpoint self endpoint_name ;;
        ingest_each self rest (<[endpoint_name := ok]> results)
      else ingest_each self rest results
  end.

Definition ingest_all_endpoints (self : t) : M (gmap string bool) :=
  let endpoints := default [] (ac_endpoints (api_config_ self)) in
  ingest_each self endpoints ∅.

End APIIngestion.

(** ** [FileIngestion] *)

Module FileIngestion.

Record t : Type := Make { snowflake : nat }.

Definition init (config_path : string) : M t :=
  load_yaml config_path ;;;
  sf <- SnowflakeConnector.init config_path ;;
  ret {| snowflake := sf |}.

(** The try block of [check_pipe_status].  The value returned is a Python
    value read from the warehouse: [CNull] is [None]. *)
Definition check_pipe_status_body (self : t) (pipe_name : string) : M cell :=
  conn <- SnowflakeConnector.connect (snowflake self) ;;
  db_op (DbCursor conn) ;;;
  db_op (DbExecute conn (SqlPipeStatus pipe_name)) ;;;
  rows <- db_op (DbFetchone conn) ;;
  let result := head rows in
  db_op (DbCursorClose conn) ;;;
  ret (match result with
       | Some (first :: _) => first
       | _ => CNull
       end).

Definition check_pipe_status (self : t) (pipe_name : string) : M cell :=
  try_except
    (check_pipe_status_body self pipe_name)
    any_exception
    (fun e => print ("Error checking pipe status: " +:+ str_exn e) ;;;
              ret CNull).

End FileIngestion.

(** ** [PipelineOrchestrator] *)

Module PipelineOrchestrator.

Record t : Type := Make { run_id : string; snowflake : nat }.

(** [__init__]: the run identifier is built here, from the clock and a
    random UUID, and nowhere else. *)
Definition init (config_path : string) : M t :=
  load_yaml config_path ;;;
  sf <- SnowflakeConnector.init config_path ;;
  stamp <- now_strftime ;;
  uuid <- uuid4 ;;
  ret {| run_id := "RUN_" +:+ stamp +:+ "_" +:+ String.substring 0 8 uuid;
         snowflake := sf |}.

Definition log_pipeline_start (self : t) (pipeline_name : string) : M unit :=
  let stmt := SqlInsertPipelineLog pipeline_name (run_id self) in
  conn <- SnowflakeConnector.connect (snowflake self) ;;
  db_op (DbCursor conn) ;;;
  db_op (DbExecute conn stmt) ;;;
  db_op (DbCommit conn) ;;;
  db_op (DbCursorClose conn) ;;;
  ret tt.

(** [s.replace(chr(39), chr(39)+chr(39))] *)
Fixpoint double_quotes (s : string) : string :=
  match s with
  | EmptyString => EmptyString
  | String c rest =>
      if Ascii.eqb c "'"%char
      then String "'"%char (String "'"%char (double_quotes rest))
      else String c (double_quotes rest)
  end.

(** The text placed after [ERROR_MESSAGE =] (line 53). *)
Definition error_message_sql (error_message : option string) : string :=
  match error_message with
  | None => "NULL"
  | Some m => "'" +:+ double_quotes m +:+ "'"
  end.

Definition log_pipeline_end (self : t) (pipeline_name status : string)
    (rows_processed rows_failed : Z) (error_message : option string) : M unit :=
  let stmt := SqlUpdatePipelineLog pipeline_name status rows_processed
                rows_failed (error_message_sql error_message) (run_id self) in
  conn <- SnowflakeConnector.connect (snowflake self) ;;
  db_op (DbCursor conn) ;;;
  db_op (DbExecute conn stmt) ;;;
  db_op (DbCommit conn) ;;;
  db_op (DbCursorClose conn) ;;;
  ret tt.

(** [all(d.values())] *)
Definition all_values (d : gmap string bool) : bool :=
  forallb (fun kv => kv.2) (map_to_list d).

Definition run_ingestion_body (self : t) : M bool :=
  api_ingestion <- APIIngestion.init "config/config.yaml" ;;
  api_results <- APIIngestion.ingest_all_endpoints api_ingestion ;;
  let api_success := all_values api_results in
  log_pipeline_end self "INGESTION"
    (if api_success then "SUCCESS" else "FAILED") 0 0 None ;;;
  ret api_success.

Definition run_ingestion (self : t) : M bool :=
  log_pipeline_start self "INGESTION" ;;;
  try_except
    (run_ingestion_body self)
    any_exception
    (fun e =>
       log_pipeline_end self "INGESTION" "FAILED" 0 0 (Some (str_exn e)) ;;;
       ret false).

Definition run_transformation_body (self : t) : M bool :=
  conn <- SnowflakeConnector.connect (snowflake self) ;;
  db_op (DbCursor conn) ;;;
  db_op (DbExecute conn (SqlCallCleanRawData (run_id self))) ;;;
  db_op (DbExecute conn (SqlCallRemoveDuplicates (run_id self))) ;;;
  db_op (DbExecute conn (SqlCallApplyBusinessTransforms (run_id self))) ;;;
  db_op (DbCommit conn) ;;;
  db_op (DbCursorClose conn) ;;;
  log_pipeline_end self "TRANSFORMATION" "SUCCESS" 0 0 None ;;;
  ret true.

Definition run_transformation (self : t) : M bool :=
  log_pipeline_start self "TRANSFORMATION" ;;;
  try_except
    (run_transformation_body self)
    any_exception
    (fun e =>
       log_pipeline_end self "TRANSFORMATION" "FAILED" 0 0 (Some (str_exn e)) ;;;
       ret false).

(** [failed_checks == 0] on a value read from the warehouse. *)
Definition eq_zero (c : cell) : bool :=
  match c with CInt n => n =? 0 | _ => false end.

(** [failed_checks > 0]: ordering [None] or a string against an integer
    raises. *)
Definition gt_zero (c : cell) : M bool :=
  match c with
  | CInt n => ret (0 <? n)
  | CNull =>
      raise (Exn TypeError
        "'>' not supported between instances of 'NoneType' and 'int'")
  | CStr _ =>
      raise (Exn TypeError
        "'>' not supported between instances of 'str' and 'int'")
  end.

Definition str_cell (c : cell) : string :=
  match c with
  | CNull => "None"
  | CInt n => pretty n
  | CStr s => s
  end.

Definition run_validation_body (self : t) : M bool :=
  conn <- SnowflakeConnector.connect (snowflake self) ;;
  db_op (DbCursor conn) ;;;
  db_op (DbExecute conn (SqlCallRunAllValidations (run_id self))) ;;;
  db_op (DbExecute conn (SqlCountFailedChecks (run_id self))) ;;;
  rows <- db_op (DbFetchone conn) ;;
  let result := head rows in
  let failed_checks :=
    match result with
    | Some (first :: _) => first
    | _ => CInt 0
    end in
  db_op (DbCursorClose conn) ;;;
  let status := if eq_zero failed_checks then "SUCCESS" else "FAILED" in
  positive <- gt_zero failed_checks ;;
  log_pipeline_end self "VALIDATION" status 0 0
    (if positive
     then Some (str_cell failed_checks +:+ " validation checks failed")
     else None) ;;;
  ret (eq_zero failed_checks).

Definition run_validation (self : t) : M bool :=
  log_pipeline_start self "VALIDATION" ;;;
  try_except
    (run_validation_body self)
    any_exception
    (fun e =>
       log_pipeline_end self "VALIDATION" "FAILED" 0 0 (Some (str_exn e)) ;;;
       ret false).

Definition str_bool (b : bool) : string := if b then "True" else "False".

(** [str(results)] for the three-key result mapping. *)
Definition str_results (results : gmap string bool) : string :=
  "{'ingestion': " +:+ str_bool (default false (results !! "ingestion"))
  +:+ ", 'transformation': "
  +:+ str_bool (default false (results !! "transformation"))
  +:+ ", 'validation': "
  +:+ str_bool (default false (results !! "validation")) +:+ "}".

Definition newline : string := String (ascii_of_nat 10) EmptyString.

Definition run_full_pipeline (self : t) : M (gmap string bool) :=
  print ("Starting pipeline run: " +:+ run_id self) ;;;
  let results : gmap string bool :=
    <["validation" := false]>
      (<["transformation" := false]> (<["ingestion" := false]> ∅)) in
  print "Step 1: Running ingestion..." ;;;
  ingestion <- run_ingestion self ;;
  let results := <["ingestion" := ingestion]> results in
  if negb ingestion then
    print "Ingestion failed. Stopping pipeline." ;;; ret results
  else
    print "Step 2: Running transformation..." ;;;
    transformation <- run_transformation self ;;
    let results := <["transformation" := transformation]> results in
    if negb transformation then
      print "Transformation failed. Stopping pipeline." ;;; ret results
    else
      print "Step 3: Running validation..." ;;;
      validation <- run_validation self ;;
      let results := <["validation" := validation]> results in
      let all_success := all_values results in
      print (newline +:+ "Pipeline run " +:+ run_id self +:+ " completed.") ;;;
      print ("Results: " +:+ str_results results) ;;;
      print ("Overall status: "
             +:+ (if all_success then "SUCCESS" else "FAILED")) ;;;
      ret results.

End PipelineOrchestrator.

(** ** [FileIngestion.upload_to_stage] and [trigger_snowpipe] *)

Module FileIngestionStage.

(** [os.path.basename]: what follows the last slash. *)
Definition basename (path : string) : string := List.last (split "/" path) "".

(** The PUT statement of [upload_to_stage]. *)
Definition upload_sql (local_file_path stage_name : string) : string :=
  "PUT file://" +:+ local_file_path +:+ " @" +:+ stage_name
  +:+ " AUTO_COMPRESS=FALSE OVERWRITE=TRUE".

Definition upload_to_stage (self : FileIngestion.t)
    (local_file_path stage_name : string) : M bool :=
  try_except
    (conn <- SnowflakeConnector.connect (FileIngestion.snowflake self) ;;
     db_op (DbCursor conn) ;;;
     let file_name := basename local_file_path in
     db_op (DbExecute conn (SqlText (upload_sql local_file_path stage_name))) ;;;
     db_op (DbCursorClose conn) ;;;
     print ("Successfully uploaded " +:+ file_name +:+ " to stage "
            +:+ stage_name) ;;;
     ret true)
    any_exception
    (fun e => print ("Error uploading file to stage: " +:+ str_exn e) ;;;
              ret false).

(** The statement of [trigger_snowpipe]. *)
Definition refresh_sql (pipe_name : string) : string :=
  "ALTER PIPE " +:+ pipe_name +:+ " REFRESH".

Definition trigger_snowpipe (self : FileIngestion.t) (pipe_name : string) : M bool :=
  try_except
    (conn <- SnowflakeConnector.connect (FileIngestion.snowflake self) ;;
     db_op (DbCursor conn) ;;;
     db_op (DbExecute conn (SqlText (refresh_sql pipe_name))) ;;;
     db_op (DbCursorClose conn) ;;;
     print ("Triggered Snowpipe refresh for " +:+ pipe_name) ;;;
     ret true)
    any_exception
    (fun e => print ("Error triggering Snowpipe: " +:+ str_exn e) ;;;
              ret false).

End FileIngestionStage.

(** ** [run_setup] *)

Module SetupRunner.

(** How [run_setup] ends when no exception leaves it: it returns, or
    [sys.exit(code)] ends the process. *)
Inductive finish : Type :=
| Returned
| Exited (code : Z).

(** The SQL files, in execution order. *)
Definition sql_files : list string :=
  [ "01_setup_warehouse.sql";
    "02_setup_database_schema.sql";
    "03_setup_file_formats.sql";
    "04_setup_external_stage.sql";
    "05_setup_snowpipe.sql";
    "06_setup_validation_tables.sql";
    "07_transformation_procedures.sql";
    "08_validation_procedures.sql";
    "10_orchestration_procedures.sql";
    "09_setup_tasks.sql";
    "11_performance_optimization.sql" ].

(** [str(sql_dir / sql_file)], on a POSIX file system. *)
Definition file_path_of (sql_dir sql_file : string) : string :=
  sql_dir +:+ "/" +:+ sql_file.

(** The body of the loop over [sql_files].  [exists_] answers
    [file_path.exists()]; the set of files present does not change during
    the run. *)
Definition run_file (connector : nat) (sql_dir : string) (exists_ : string -> bool)
    (sql_file : string) : M unit :=
  let file_path := file_path_of sql_dir sql_file in
  if exists_ file_path then
    print (PipelineOrchestrator.newline +:+ "Executing " +:+ sql_file +:+ "...") ;;;
    SnowflakeConnector.execute_file connector file_path ;;;
    print ("✓ Completed " +:+ sql_file)
  else
    print ("⚠ Warning: " +:+ sql_file +:+ " not found, skipping...").

(** [sql_dir] is the directory [base_dir / "sql"]; [sys.exit(1)] in the
    handler is the result [Exited 1], after which the [finally] clause
    still runs. *)
Definition run_setup (sql_dir : string) (exists_ : string -> bool) : M finish :=
  connector <- SnowflakeConnector.init "config/config.yaml" ;;
  try_finally
    (try_except
       (print "Starting Snowflake setup..." ;;;
        for_each sql_files (run_file connector sql_dir exists_) ;;;
        print (PipelineOrchestrator.newline +:+ "✓ Setup completed successfully!") ;;;
        ret Returned)
       any_exception
       (fun e =>
          print (PipelineOrchestrator.newline +:+ "✗ Setup failed: " +:+ str_exn e) ;;;
          ret (Exited 1)))
    (SnowflakeConnector.close connector).

End SetupRunner.

(** ** The context manager of [SnowflakeConnector] *)

Module ContextManager.

(** [__enter__] *)
Definition enter (self : nat) : M nat :=
  SnowflakeConnector.connect self ;;; ret self.

(** [__exit__]; it returns [None], so it suppresses no exception. *)
Definition exit (self : nat) : M unit :=
  SnowflakeConnector.close self.

End ContextManager.

(** * Vocabulary of the statements, example environments and states *)

(** What the oracle says about a warehouse call, whatever the history. *)
Definition db_succeeds (env : environ) (c : db_call) : Prop :=
  forall h, exists rows, env_db env h c = inr rows.

Definition db_fails (env : environ) (c : db_call) (e : exn) : Prop :=
  forall h, env_db env h c = inl e.

(** The [connection] attribute of a connector and the closed flag of a
    connection, read off a state. *)
Definition connection_of (st : state) (self : nat) : option nat :=
  mjoin (connectors st !! self).

Definition closed_in (st : state) (conn : nat) : bool :=
  default true (conns st !! conn).

(** An environment in which every external call succeeds and returns
    nothing of interest. *)
Definition quiet_env : environ :=
  {| env_getenv := fun _ => None;
     env_http := fun _ _ => inr (PList []);
     env_db := fun _ _ => inr [];
     env_read := fun _ _ => inr "";
     env_yaml := fun _ _ => inr (Config None);
     env_now := fun _ => "20240101_000000";
     env_uuid4 := fun _ => "123e4567-e89b-12d3-a456-426614174000";
     env_dataframe := fun _ _ _ => inr [];
     env_json_dumps := fun _ => inr "{}";
     env_sleep := fun _ _ => inr tt |}.

(** A connector whose raw connection was closed by the caller that obtained
    it from [connect]: the connector still refers to the closed object. *)
Definition closed_elsewhere : state :=
  ((self <- SnowflakeConnector.init "config/config.yaml" ;;
    c <- SnowflakeConnector.connect self ;;
    SnowflakeConnector.close_connection c) quiet_env initial_state).2.

(** A connector with an open connection. *)
Definition connected : state :=
  ((self <- SnowflakeConnector.init "config/config.yaml" ;;
    SnowflakeConnector.connect self) quiet_env initial_state).2.

Definition exec_event (conn : nat) (s : string) : event :=
  EvDb (DbExecute conn (SqlText s)).

(** The loop of [execute_file] over the pieces of the file. *)
Definition statement_loop (conn : nat) (pieces : list string) : M unit :=
  for_each pieces
    (fun statement =>
       let statement := strip statement in
       if nonempty statement
       then db_op (DbExecute conn (SqlText statement)) ;;; ret tt
       else ret tt).

Definition example_file : string :=
  "INSERT ...; -- comment" +:+ PipelineOrchestrator.newline +:+ "; SELECT 1;".

(** The statements sent with [cursor.execute], in order. *)
Fixpoint executed (evs : list event) : list sql :=
  match evs with
  | [] => []
  | EvDb (DbExecute _ stmt) :: rest => stmt :: executed rest
  | _ :: rest => executed rest
  end.

(** The number of [conn.commit()] calls. *)
Fixpoint commits (evs : list event) : nat :=
  match evs with
  | [] => 0%nat
  | EvDb (DbCommit _) :: rest => S (commits rest)
  | _ :: rest => commits rest
  end.

(** The try block of [execute_file]. *)
Definition execute_file_body (conn : nat) (file_path : string) : M unit :=
  content <- read_file file_path ;;
  statement_loop conn (split ";" content) ;;;
  db_op (DbCommit conn) ;;; ret tt.

(** A state with one connector that has no connection yet. *)
Definition fresh_connector : state :=
  (SnowflakeConnector.init "config/config.yaml" quiet_env initial_state).2.

(** The file system holds the example file; every warehouse call succeeds. *)
Definition example_env : environ :=
  {| env_getenv := env_getenv quiet_env;
     env_http := env_http quiet_env;
     env_db := env_db quiet_env;
     env_read := fun _ _ => inr example_file;
     env_yaml := env_yaml quiet_env;
     env_now := env_now quiet_env;
     env_uuid4 := env_uuid4 quiet_env;
     env_dataframe := env_dataframe quiet_env;
     env_json_dumps := env_json_dumps quiet_env;
     env_sleep := env_sleep quiet_env |}.

(** As [example_env], but the warehouse rejects the comment-only statement. *)
Definition rejecting_env : environ :=
  {| env_getenv := env_getenv quiet_env;
     env_http := env_http quiet_env;
     env_db := fun _ c =>
       match c with
       | DbExecute _ (SqlText "-- comment") =>
           inl (Exn DatabaseError "Empty SQL statement.")
       | _ => inr []
       end;
     env_read := fun _ _ => inr example_file;
     env_yaml := env_yaml quiet_env;
     env_now := env_now quiet_env;
     env_uuid4 := env_uuid4 quiet_env;
     env_dataframe := env_dataframe quiet_env;
     env_json_dumps := env_json_dumps quiet_env;
     env_sleep := env_sleep quiet_env |}.

(** The contents of the endpoint's [headers] mapping ([{}] when absent). *)
Definition configured_headers (st : state) (ep : endpoint) : gmap string string :=
  match ep_headers ep with
  | Some ref => default ∅ (dicts st !! ref)
  | None => ∅
  end.

(** A store with one headers dict, and two endpoints that refer to it. *)
Definition one_headers_dict : state :=
  set_dicts [<["Accept" := "application/json"]> ∅] initial_state.

Definition users_endpoint (auth : option string) (enabled : option bool) : endpoint :=
  {| ep_name := "users"; ep_url := "https://api.example.com/users";
     ep_target_table := "RAW.API_USERS"; ep_method := None;
     ep_headers := Some 0%nat; ep_params := None; ep_auth_type := auth;
     ep_bearer_token := None; ep_api_key := None; ep_enabled := enabled |}.

Definition default_api (endpoints : list endpoint) : APIIngestion.t :=
  {| APIIngestion.api_config_ :=
       {| ac_rate_limit := None; ac_endpoints := Some endpoints |};
     APIIngestion.snowflake := 0%nat |}.

(** The rate-limit settings [_fetch_api_data] reads, with their defaults. *)
Definition rate_limit_of (self : APIIngestion.t) : rate_limit :=
  default (RateLimit None None None) (ac_rate_limit (APIIngestion.api_config_ self)).

Definition max_retries_of (self : APIIngestion.t) : Z :=
  default 3 (rl_retry_attempts (rate_limit_of self)).

Definition retry_delay_of (self : APIIngestion.t) : Z :=
  default 5 (rl_retry_delay (rate_limit_of self)).

Definition requests_per_second_of (self : APIIngestion.t) : Z :=
  default 10 (rl_requests_per_second (rate_limit_of self)).

(** The request sent for an endpoint, given the headers placed in it. *)
Definition request_of (ep : endpoint) (sent : gmap string string) : request :=
  Request (default "GET" (ep_method ep)) (ep_url ep) sent
    (default ∅ (ep_params ep)) 30.

Fixpoint without_prints (evs : list event) : list event :=
  match evs with
  | [] => []
  | EvPrint _ :: rest => without_prints rest
  | e :: rest => e :: without_prints rest
  end.

Fixpoint count_requests (evs : list event) : nat :=
  match evs with
  | [] => 0%nat
  | EvRequest _ :: rest => S (count_requests rest)
  | _ :: rest => count_requests rest
  end.

(** The sleeps of a whole number of seconds (the retry delays). *)
Fixpoint retry_sleeps (evs : list event) : list Z :=
  match evs with
  | [] => []
  | EvSleep (Seconds d) :: rest => d :: retry_sleeps rest
  | _ :: rest => retry_sleeps rest
  end.


(** The try block of one attempt of [_fetch_api_data]. *)
Definition attempt_body (url method : string) (headers : nat)
    (params : gmap string string) (rl : rate_limit) : M (option pyval) :=
  APIIngestion.rate_limit_sleep (default 10 (rl_requests_per_second rl)) ;;;
  sent <- read_dict headers ;;
  data <- http_request (Request method url sent params 30) ;;
  ret (Some (APIIngestion.normalize_response data)).

(** A rate for which [1.0 / rps] is a positive float. *)
Definition valid_rate (rps : Z) : Prop := 0 < rps < float_limit.

(** A whole number of seconds [time.sleep] accepts. *)
Definition sleepable (n : Z) : Prop := 0 <= n <= max_sleep_seconds.

(** The operating system performs every wait it is asked for. *)
Definition sleeps_granted (env : environ) : Prop :=
  forall h d, env_sleep env h d = inr tt.

(** Every request fails with a transport error. *)
Definition transport_down (env : environ) : Prop :=
  forall h r, exists msg, env_http env h r = inl (Exn RequestException msg).

(** Every request is answered by a connection error. *)
Definition down_env : environ :=
  {| env_getenv := env_getenv quiet_env;
     env_http := fun _ _ => inl (Exn RequestException "Connection refused");
     env_db := env_db quiet_env;
     env_read := env_read quiet_env;
     env_yaml := env_yaml quiet_env;
     env_now := env_now quiet_env;
     env_uuid4 := env_uuid4 quiet_env;
     env_dataframe := env_dataframe quiet_env;
     env_json_dumps := env_json_dumps quiet_env;
     env_sleep := env_sleep quiet_env |}.

(** The normalization as the specification words it: what a decoded body
    must be turned into. *)
Inductive normalized : pyval -> pyval -> Prop :=
| norm_sequence (l : list pyval) :
    normalized (PList l) (PList l)
| norm_data_sequence (items : list (string * pyval)) (l : list pyval) :
    dict_get items "data" = Some (PList l) ->
    normalized (PDict items) (PList l)
| norm_data_wrapped (items : list (string * pyval)) (v : pyval) :
    dict_get items "data" = Some v -> isinstance_list v = false ->
    normalized (PDict items) (PList [v])
| norm_results_sequence (items : list (string * pyval)) (l : list pyval) :
    dict_get items "data" = None ->
    dict_get items "results" = Some (PList l) ->
    normalized (PDict items) (PList l)
| norm_results_wrapped (items : list (string * pyval)) (v : pyval) :
    dict_get items "data" = None ->
    dict_get items "results" = Some v -> isinstance_list v = false ->
    normalized (PDict items) (PList [v])
| norm_mapping_wrapped (items : list (string * pyval)) :
    dict_get items "data" = None -> dict_get items "results" = None ->
    normalized (PDict items) (PList [PDict items])
| norm_raw (x : scalar) :
    normalized (PScalar x) (PList [PDict [("raw_data", PStr (py_str x))]]).

(** The server answers every request with a one-record 'data' envelope;
    [json.dumps] cannot serialize a row of the data frame, which carries the
    Timestamp of the metadata column. *)
Definition serving_env : environ :=
  {| env_getenv := env_getenv quiet_env;
     env_http := fun _ _ =>
       inr (PDict [("data", PList [PDict [("a", PInt 1)]])]);
     env_db := env_db quiet_env;
     env_read := env_read quiet_env;
     env_yaml := env_yaml quiet_env;
     env_now := env_now quiet_env;
     env_uuid4 := env_uuid4 quiet_env;
     env_dataframe := fun data _ _ =>
       match data with PList rows => inr rows | _ => inr [] end;
     env_json_dumps := fun _ =>
       inl (Exn TypeError "Object of type Timestamp is not JSON serializable");
     env_sleep := env_sleep quiet_env |}.

(** The store of [one_headers_dict] together with one connector. *)
Definition ingestion_ready : state :=
  set_dicts (dicts one_headers_dict) fresh_connector.

(** The warehouse refuses every statement; the other calls succeed. *)
Definition refusing_env : environ :=
  {| env_getenv := env_getenv quiet_env;
     env_http := env_http quiet_env;
     env_db := fun _ c =>
       match c with
       | DbExecute _ _ => inl (Exn DatabaseError "SQL compilation error")
       | _ => inr []
       end;
     env_read := env_read quiet_env;
     env_yaml := env_yaml quiet_env;
     env_now := env_now quiet_env;
     env_uuid4 := env_uuid4 quiet_env;
     env_dataframe := env_dataframe quiet_env;
     env_json_dumps := env_json_dumps quiet_env;
     env_sleep := env_sleep quiet_env |}.

(** [emits P m]: whatever the environment answers and however [m] ends, the
    trace only grows, by events that satisfy [P]. *)
Definition emits {A} (P : event -> Prop) (m : M A) : Prop :=
  forall env st r st',
    m env st = (r, st') ->
    exists evs, trace st' = trace st ++ evs /\ Forall P evs.

(** Events of the connector other than the statements it is given. *)
Definition quiet_event (e : event) : Prop :=
  match e with
  | EvDb (DbExecute _ _) => False
  | _ => True
  end.

(** The events of the API ingestion: among the statements, only the table
    creation and the row inserts. *)
Definition api_event (e : event) : Prop :=
  match e with
  | EvDb (DbExecute _ stmt) =>
      match stmt with
      | SqlCreateTable _ | SqlInsertRow _ _ _ _ _ => True
      | _ => False
      end
  | _ => True
  end.

(** The events of one stage of the run [rid]: its own start and end log
    statements and the statements of its body. *)
Definition stage_event (rid name : string) (e : event) : Prop :=
  match e with
  | EvDb (DbExecute _ stmt) =>
      match stmt with
      | SqlInsertPipelineLog n r => n = name /\ r = rid
      | SqlUpdatePipelineLog n _ _ _ _ r => n = name /\ r = rid
      | SqlCreateTable _ | SqlInsertRow _ _ _ _ _ => name = "INGESTION"
      | SqlCallCleanRawData r | SqlCallRemoveDuplicates r
      | SqlCallApplyBusinessTransforms r =>
          name = "TRANSFORMATION" /\ r = rid
      | SqlCallRunAllValidations r | SqlCountFailedChecks r =>
          name = "VALIDATION" /\ r = rid
      | _ => False
      end
  | _ => True
  end.

Definition pipeline_event (rid : string) (e : event) : Prop :=
  exists name, stage_event rid name e.

(** The run identifier a pipeline-log statement carries. *)
Definition log_statement_run_id (stmt : sql) : option string :=
  match stmt with
  | SqlInsertPipelineLog _ r | SqlUpdatePipelineLog _ _ _ _ _ r => Some r
  | _ => None
  end.

(** [logs_with rid m]: every start-log insert and every end-log update that
    [m] sends, in any environment and from any state, carries [rid]. *)
Definition logs_with {A} (rid : string) (m : M A) : Prop :=
  forall env st r st',
    m env st = (r, st') ->
    exists evs,
      trace st' = trace st ++ evs /\
      forall conn stmt rid',
        In (EvDb (DbExecute conn stmt)) evs ->
        log_statement_run_id stmt = Some rid' -> rid' = rid.

(** An orchestrator as its constructor builds it in [quiet_env]. *)
Definition quiet_orchestrator : PipelineOrchestrator.t :=
  PipelineOrchestrator.Make "RUN_20240101_000000_123e4567" 0.

Definition after_init : state :=
  (PipelineOrchestrator.init "config/config.yaml" quiet_env initial_state).2.

(** The result mapping, by the outcome of each stage. *)
Definition stage_results (ingestion transformation validation : bool)
  : gmap string bool :=
  <["validation" := validation]>
    (<["transformation" := transformation]>
       (<["ingestion" := ingestion]> ∅)).

(** The state in which the ingestion stage starts. *)
Definition at_step_1 (self : PipelineOrchestrator.t) (st : state) : state :=
  add_event (EvPrint "Step 1: Running ingestion...")
    (add_event
       (EvPrint ("Starting pipeline run: " +:+ PipelineOrchestrator.run_id self))
       st).

(** The state in which the transformation stage starts. *)
Definition at_step_2 (st1 : state) : state :=
  add_event (EvPrint "Step 2: Running transformation...") st1.

(** The configuration has one enabled endpoint and its server is down. *)
Definition one_endpoint_config : config :=
  Config (Some {| ac_rate_limit := None;
                  ac_endpoints :=
                    Some [with_headers (users_endpoint None None) None] |}).

Definition ingestion_failing_env : environ :=
  {| env_getenv := env_getenv quiet_env;
     env_http := env_http down_env;
     env_db := env_db quiet_env;
     env_read := env_read quiet_env;
     env_yaml := fun _ _ => inr one_endpoint_config;
     env_now := env_now quiet_env;
     env_uuid4 := env_uuid4 quiet_env;
     env_dataframe := env_dataframe quiet_env;
     env_json_dumps := env_json_dumps quiet_env;
     env_sleep := env_sleep quiet_env |}.

(** The first transformation procedure fails. *)
Definition transformation_failing_env : environ :=
  {| env_getenv := env_getenv quiet_env;
     env_http := env_http quiet_env;
     env_db := fun _ c =>
       match c with
       | DbExecute _ (SqlCallCleanRawData _) =>
           inl (Exn DatabaseError "Unknown function CLEAN_RAW_DATA")
       | _ => inr []
       end;
     env_read := env_read quiet_env;
     env_yaml := env_yaml quiet_env;
     env_now := env_now quiet_env;
     env_uuid4 := env_uuid4 quiet_env;
     env_dataframe := env_dataframe quiet_env;
     env_json_dumps := env_json_dumps quiet_env;
     env_sleep := env_sleep quiet_env |}.

(** [completes env m Q stmts]: in [env], from any state, [m] returns a value
    satisfying [Q] and the statements it executes are exactly [stmts]. *)
Definition completes {A} (env : environ) (m : M A) (Q : A -> Prop)
    (stmts : list sql) : Prop :=
  forall st, exists a st' evs,
    m env st = (Ok a, st') /\ Q a /\
    trace st' = trace st ++ evs /\ executed evs = stmts.

(** The warehouse accepts every call. *)
Definition warehouse_up (env : environ) : Prop := forall c, db_succeeds env c.

(** The end-log update of the validation stage for a count of failed checks. *)
Definition validation_end_log (rid : string) (failed : nat) : sql :=
  match failed with
  | O => SqlUpdatePipelineLog "VALIDATION" "SUCCESS" 0 0 "NULL" rid
  | S _ =>
      SqlUpdatePipelineLog "VALIDATION" "FAILED" 0 0
        (PipelineOrchestrator.error_message_sql
           (Some (pretty (Z.of_nat failed) +:+ " validation checks failed")))
        rid
  end.

(** The count query finds three failed checks. *)
Definition three_failed_env : environ :=
  {| env_getenv := env_getenv quiet_env;
     env_http := env_http quiet_env;
     env_db := fun _ c =>
       match c with
       | DbFetchone _ => inr [[CInt 3]]
       | _ => inr []
       end;
     env_read := env_read quiet_env;
     env_yaml := env_yaml quiet_env;
     env_now := env_now quiet_env;
     env_uuid4 := env_uuid4 quiet_env;
     env_dataframe := env_dataframe quiet_env;
     env_json_dumps := env_json_dumps quiet_env;
     env_sleep := env_sleep quiet_env |}.

(** The validation procedure fails; the log statements go through. *)
Definition validation_failing_env : environ :=
  {| env_getenv := env_getenv quiet_env;
     env_http := env_http quiet_env;
     env_db := fun _ c =>
       match c with
       | DbExecute _ (SqlCallRunAllValidations _) =>
           inl (Exn DatabaseError "Table 'FINAL_DATA' does not exist")
       | _ => inr []
       end;
     env_read := env_read quiet_env;
     env_yaml := env_yaml quiet_env;
     env_now := env_now quiet_env;
     env_uuid4 := env_uuid4 quiet_env;
     env_dataframe := env_dataframe quiet_env;
     env_json_dumps := env_json_dumps quiet_env;
     env_sleep := env_sleep quiet_env |}.

(** The start-log insert goes through; then the warehouse is lost and every
    later statement fails, the end-log update included. *)
Definition warehouse_lost_env : environ :=
  {| env_getenv := env_getenv quiet_env;
     env_http := env_http quiet_env;
     env_db := fun _ c =>
       match c with
       | DbExecute _ (SqlInsertPipelineLog _ _) => inr []
       | DbExecute _ _ => inl (Exn DatabaseError "Connection lost")
       | _ => inr []
       end;
     env_read := env_read quiet_env;
     env_yaml := env_yaml quiet_env;
     env_now := env_now quiet_env;
     env_uuid4 := env_uuid4 quiet_env;
     env_dataframe := env_dataframe quiet_env;
     env_json_dumps := env_json_dumps quiet_env;
     env_sleep := env_sleep quiet_env |}.

(** The file cannot be opened. *)
Definition no_file_env : environ :=
  {| env_getenv := env_getenv quiet_env;
     env_http := env_http quiet_env;
     env_db := env_db quiet_env;
     env_read := fun _ path =>
       inl (Exn OSError ("No such file or directory: " +:+ path));
     env_yaml := env_yaml quiet_env;
     env_now := env_now quiet_env;
     env_uuid4 := env_uuid4 quiet_env;
     env_dataframe := env_dataframe quiet_env;
     env_json_dumps := env_json_dumps quiet_env;
     env_sleep := env_sleep quiet_env |}.

(** The server's answer cannot be handled by the HTTP library. *)
Definition broken_env : environ :=
  {| env_getenv := env_getenv quiet_env;
     env_http := fun _ _ => inl (Exn OtherError "Invalid header value");
     env_db := env_db quiet_env;
     env_read := env_read quiet_env;
     env_yaml := env_yaml quiet_env;
     env_now := env_now quiet_env;
     env_uuid4 := env_uuid4 quiet_env;
     env_dataframe := env_dataframe quiet_env;
     env_json_dumps := env_json_dumps quiet_env;
     env_sleep := env_sleep quiet_env |}.

(** A configuration whose rate limit is given. *)
Definition limited_api (attempts delay rps : Z) (endpoints : list endpoint)
  : APIIngestion.t :=
  {| APIIngestion.api_config_ :=
       {| ac_rate_limit := Some (RateLimit (Some attempts) (Some delay) (Some rps));
          ac_endpoints := Some endpoints |};
     APIIngestion.snowflake := 0%nat |}.

(** The server is down for the first two requests and answers the third. *)
Definition recovering_env : environ :=
  {| env_getenv := env_getenv quiet_env;
     env_http := fun h _ =>
       if (count_requests h <? 2)%nat
       then inl (Exn RequestException "Connection refused")
       else inr (PDict [("results", PList [PDict [("id", PInt 7)]])]);
     env_db := env_db quiet_env;
     env_read := env_read quiet_env;
     env_yaml := env_yaml quiet_env;
     env_now := env_now quiet_env;
     env_uuid4 := env_uuid4 quiet_env;
     env_dataframe := env_dataframe quiet_env;
     env_json_dumps := env_json_dumps quiet_env;
     env_sleep := env_sleep quiet_env |}.

(** The headers [_get_auth_headers] returns, from the configured ones. *)
Definition auth_headers_value (env : environ) (ep : endpoint)
    (configured : gmap string string) : gmap string string :=
  let auth_type := default "none" (ep_auth_type ep) in
  if String.eqb auth_type "bearer" then
    <["Authorization" :=
        "Bearer " +:+ or_else (env_getenv env "API_BEARER_TOKEN")
                        (default "" (ep_bearer_token ep))]> configured
  else if String.eqb auth_type "api_key" then
    <["X-API-Key" :=
        or_else (env_getenv env "API_KEY") (default "" (ep_api_key ep))]>
      configured
  else configured.

(** The process environment holds a bearer token. *)
Definition token_env : environ :=
  {| env_getenv := fun var =>
       if String.eqb var "API_BEARER_TOKEN" then Some "s3cr3t" else None;
     env_http := env_http quiet_env;
     env_db := env_db quiet_env;
     env_read := env_read quiet_env;
     env_yaml := env_yaml quiet_env;
     env_now := env_now quiet_env;
     env_uuid4 := env_uuid4 quiet_env;
     env_dataframe := env_dataframe quiet_env;
     env_json_dumps := env_json_dumps quiet_env;
     env_sleep := env_sleep quiet_env |}.

(** An endpoint with bearer authentication and a configured token. *)
Definition bearer_endpoint : endpoint :=
  {| ep_name := "users"; ep_url := "https://api.example.com/users";
     ep_target_table := "RAW.API_USERS"; ep_method := None;
     ep_headers := Some 0%nat; ep_params := None;
     ep_auth_type := Some "bearer";
     ep_bearer_token := Some "from-config"; ep_api_key := None;
     ep_enabled := None |}.

(** The event of one row insert. *)
Definition insert_event (conn : nat) (table stamp run_id payload : string) : event :=
  EvDb (DbExecute conn (SqlInsertRow table payload stamp run_id "API")).

(** The loop of [_load_to_snowflake] over the rows of the data frame. *)
Definition insert_rows (env : environ) (conn : nat) (table stamp run_id : string)
    (df : list pyval) : M unit :=
  for_each df
    (fun row =>
       payload <- of_sum (env_json_dumps env row) ;;
       db_op (DbExecute conn (SqlInsertRow table payload stamp run_id "API")) ;;;
       ret tt).

(** The JSON text of a row, when it has one. *)
Definition payload_of (env : environ) (row : pyval) : string :=
  match env_json_dumps env row with
  | inr payload => payload
  | inl _ => ""
  end.

(** Two endpoints, the second one disabled. *)
Definition orders_endpoint : endpoint :=
  {| ep_name := "orders"; ep_url := "https://api.example.com/orders";
     ep_target_table := "RAW.API_ORDERS"; ep_method := None;
     ep_headers := None; ep_params := None; ep_auth_type := None;
     ep_bearer_token := None; ep_api_key := None;
     ep_enabled := Some false |}.

(** The statements end with the end-log update of stage [name] whose status
    says [ok]. *)
Definition ends_with_end_log (rid name : string) (ok : bool) (stmts : list sql)
  : Prop :=
  exists before message,
    stmts = before ++ [SqlUpdatePipelineLog name
                         (if ok then "SUCCESS" else "FAILED") 0 0 message rid].

(** No endpoint of the configuration is enabled (none may be configured). *)
Definition no_enabled_endpoints (cfg : config) : Prop :=
  match cfg_api_ingestion cfg with
  | Some c =>
      forall ep, In ep (default [] (ac_endpoints c)) -> ep_enabled ep = Some false
  | None => True
  end.

(** An event other than a request. *)
Definition not_request (ev : event) : Prop :=
  match ev with EvRequest _ => False | _ => True end.

(** The configuration file cannot be loaded. *)
Definition no_config_env : environ :=
  {| env_getenv := env_getenv quiet_env;
     env_http := env_http quiet_env;
     env_db := env_db quiet_env;
     env_read := env_read quiet_env;
     env_yaml := fun _ path =>
       inl (Exn OSError ("No such file or directory: " +:+ path));
     env_now := env_now quiet_env;
     env_uuid4 := env_uuid4 quiet_env;
     env_dataframe := env_dataframe quiet_env;
     env_json_dumps := env_json_dumps quiet_env;
     env_sleep := env_sleep quiet_env |}.

(** The number of [cursor.close()] calls. *)
Fixpoint cursor_closes (evs : list event) : nat :=
  match evs with
  | [] => 0%nat
  | EvDb (DbCursorClose _) :: rest => S (cursor_closes rest)
  | _ :: rest => cursor_closes rest
  end.

(** The shape the two functions share: one statement on a new cursor, a line
    printed on success, another on error. *)
Definition one_statement_call (self : FileIngestion.t) (text done_line : string)
    (error_line : string -> string) : M bool :=
  try_except
    (conn <- SnowflakeConnector.connect (FileIngestion.snowflake self) ;;
     db_op (DbCursor conn) ;;;
     db_op (DbExecute conn (SqlText text)) ;;;
     db_op (DbCursorClose conn) ;;;
     print done_line ;;;
     ret true)
    any_exception
    (fun e => print (error_line (str_exn e)) ;;; ret false).

(** The paths given to [open], in order. *)
Fixpoint opened (evs : list event) : list string :=
  match evs with
  | [] => []
  | EvOpen path :: rest => path :: opened rest
  | _ :: rest => opened rest
  end.

Definition not_open (e : event) : Prop :=
  match e with EvOpen _ => False | _ => True end.

(** The files of the list that are present, as the paths [run_setup] uses. *)
Definition present (sql_dir : string) (exists_ : string -> bool)
    (files : list string) : list string :=
  List.filter exists_ (map (SetupRunner.file_path_of sql_dir) files).

(** A computation that leaves the connectors and the connections alone. *)
Definition keeps_store {A} (m : M A) : Prop :=
  forall env st r st',
    m env st = (r, st') ->
    connectors st' = connectors st /\ conns st' = conns st.

(** The connector [self] holds no connection and the connections are [cs0],
    or it holds the one open connection made since. *)
Definition at_most_one_open (cs0 : list bool) (self : nat) (st : state) : Prop :=
  (self < length (connectors st))%nat /\
  ((connection_of st self = None /\ conns st = cs0) \/
   (connection_of st self = Some (length cs0) /\ conns st = cs0 ++ [false])).

(** What [execute_file] does once it has its connection. *)
Definition with_cursor (conn : nat) (file_path : string) : M unit :=
  db_op (DbCursor conn) ;;;
  try_finally
    (content <- read_file file_path ;;
     for_each (split ";" content)
       (fun statement =>
          let statement := strip statement in
          if nonempty statement
          then db_op (DbExecute conn (SqlText statement)) ;;; ret tt
          else ret tt) ;;;
     db_op (DbCommit conn) ;;; ret tt)
    (db_op (DbCursorClose conn) ;;; ret tt).

(** Every file of the list is present. *)
Definition all_present (path : string) : bool := true.

(** Only the warehouse script is present. *)
Definition only_warehouse_script (path : string) : bool :=
  String.eqb path "/repo/sql/01_setup_warehouse.sql".

(** Every request comes directly after the rate-limit sleep of
    [1.0 / rps] seconds. *)
Fixpoint paced (rps : Z) (evs : list event) : bool :=
  match evs with
  | [] => true
  | e :: tl =>
      match e, tl with
      | EvSleep (OneOver k), EvRequest _ :: rest => (k =? rps) && paced rps rest
      | EvRequest _, _ => false
      | _, _ => paced rps tl
      end
  end.

(** * Properties *)

(** ** The monad and the primitive effects *)

Lemma add_events_nil st : add_events [] st = st.
Proof. destruct st; unfold add_events; simpl. by rewrite app_nil_r. Qed.

Lemma add_events_app es1 es2 st :
  add_events es2 (add_events es1 st) = add_events (es1 ++ es2) st.
Proof. unfold add_events; simpl. by rewrite app_assoc. Qed.

Lemma add_event_events e es st :
  add_events es (add_event e st) = add_events (e :: es) st.
Proof. unfold add_event. by rewrite add_events_app. Qed.

Lemma events_add_event e es st :
  add_event e (add_events es st) = add_events (es ++ [e]) st.
Proof. unfold add_event. by rewrite add_events_app. Qed.

Lemma db_op_unfold c env st :
  db_op c env st =
  (match env_db env (trace st) c with inl e => Raise e | inr rows => Ok rows end,
   add_event (EvDb c) st).
Proof. unfold db_op, bind, get_env, get_state, log_event, of_sum; simpl.
  by destruct (env_db env (trace st) c). Qed.

Lemma db_op_succeeds c env st :
  db_succeeds env c -> exists rows, db_op c env st = (Ok rows, add_event (EvDb c) st).
Proof. intros H. destruct (H (trace st)) as [rows Hr]. exists rows.
  by rewrite db_op_unfold, Hr. Qed.

Lemma db_op_fails c e env st :
  db_fails env c e -> db_op c env st = (Raise e, add_event (EvDb c) st).
Proof. intros H. by rewrite db_op_unfold, (H (trace st)). Qed.

Lemma read_file_unfold path env st :
  read_file path env st =
  (match env_read env (trace st) path with inl e => Raise e | inr s => Ok s end,
   add_event (EvOpen path) st).
Proof. unfold read_file, bind, get_env, get_state, log_event, of_sum; simpl.
  by destruct (env_read env (trace st) path). Qed.

Lemma http_request_unfold r env st :
  http_request r env st =
  (match env_http env (trace st) r with inl e => Raise e | inr v => Ok v end,
   add_event (EvRequest r) st).
Proof. unfold http_request, bind, get_env, get_state, log_event, of_sum; simpl.
  by destruct (env_http env (trace st) r). Qed.

Lemma load_yaml_unfold path env st :
  load_yaml path env st =
  (match env_yaml env (trace st) path with inl e => Raise e | inr c => Ok c end,
   add_event (EvLoadConfig path) st).
Proof. unfold load_yaml, bind, get_env, get_state, log_event, of_sum; simpl.
  by destruct (env_yaml env (trace st) path). Qed.

(** ** [SnowflakeConnector.close] *)

Lemma close_absent self env st :
  connection_of st self = None -> SnowflakeConnector.close self env st = (Ok tt, st).
Proof.
  intros H. unfold SnowflakeConnector.close, SnowflakeConnector.connection,
    bind, get_state, ret; simpl.
  unfold connection_of in H. by rewrite H.
Qed.

Lemma close_already_closed self c env st :
  connection_of st self = Some c -> closed_in st c = true ->
  SnowflakeConnector.close self env st = (Ok tt, st).
Proof.
  intros H Hc. unfold SnowflakeConnector.close, SnowflakeConnector.connection,
    SnowflakeConnector.is_closed, bind, get_state, ret; simpl.
  unfold connection_of in H. unfold closed_in in Hc. by rewrite H, Hc.
Qed.

Lemma close_open self c env st :
  connection_of st self = Some c -> closed_in st c = false ->
  SnowflakeConnector.close self env st =
  match env_db env (trace st) (DbClose c) with
  | inl e => (Raise e, add_event (EvDb (DbClose c)) st)
  | inr _ =>
      (Ok tt, set_connectors (<[self := None]> (connectors st))
                (set_conns (<[c := true]> (conns st))
                   (add_event (EvDb (DbClose c)) st)))
  end.
Proof.
  intros H Hc. unfold SnowflakeConnector.close, SnowflakeConnector.connection,
    SnowflakeConnector.is_closed.
  unfold connection_of in H. unfold closed_in in Hc.
  unfold bind at 1. unfold get_state at 1, bind at 1, ret at 1. rewrite H.
  unfold bind at 1. unfold get_state at 1, bind at 1, ret at 1. rewrite Hc. simpl.
  unfold SnowflakeConnector.close_connection, SnowflakeConnector.set_connection.
  unfold bind. rewrite db_op_unfold.
  by destruct (env_db env (trace st) (DbClose c)).
Qed.

(** C8 (amended).  [close] does nothing on a connector whose connection is
    absent or already closed; after a [close] that returned, a second [close]
    returns and changes nothing; and the state a [close] leaves is: no
    connection when the connection was absent or open, the already closed
    connection object still in place when it was closed beforehand. *)
Theorem close_idempotent (self : nat) (env : environ) (st : state) :
  (connection_of st self = None \/
   (exists c, connection_of st self = Some c /\ closed_in st c = true) ->
   SnowflakeConnector.close self env st = (Ok tt, st))
  /\
  (forall st', SnowflakeConnector.close self env st = (Ok tt, st') ->
     SnowflakeConnector.close self env st' = (Ok tt, st') /\
     (connection_of st' self = None \/
      (st' = st /\
       exists c, connection_of st self = Some c /\ closed_in st c = true))).
Proof.
  split.
  - intros [H | (c & H & Hc)]; [by apply close_absent | by eapply close_already_closed].
  - intros st' Hrun.
    destruct (connection_of st self) as [c|] eqn:Hconn.
    + destruct (closed_in st c) eqn:Hc.
      * rewrite (close_already_closed _ _ _ _ Hconn Hc) in Hrun.
        injection Hrun as <-. split; [by eapply close_already_closed |].
        right. split; [done | by exists c].
      * rewrite (close_open _ _ _ _ Hconn Hc) in Hrun.
        destruct (env_db env (trace st) (DbClose c)); [done |].
        injection Hrun as <-.
        assert (Hnone : connection_of
                  (set_connectors (<[self := None]> (connectors st))
                     (set_conns (<[c := true]> (conns st))
                        (add_event (EvDb (DbClose c)) st))) self = None).
        { unfold connection_of in *; simpl.
          destruct (connectors st !! self) as [o|] eqn:Hl; [| done].
          rewrite list_lookup_insert_eq; [done |].
          by eapply lookup_lt_Some. }
        split; [by apply close_absent | by left].
    + rewrite (close_absent _ _ _ Hconn) in Hrun. injection Hrun as <-.
      split; [by apply close_absent | by left].
Qed.

Lemma close_idempotent_witness :
  SnowflakeConnector.close 0 quiet_env closed_elsewhere = (Ok tt, closed_elsewhere)
  /\ (forall st',
        SnowflakeConnector.close 0 quiet_env connected = (Ok tt, st') ->
        SnowflakeConnector.close 0 quiet_env st' = (Ok tt, st')).
Proof.
  split.
  - apply (proj1 (close_idempotent 0 quiet_env closed_elsewhere)).
    right. exists 0%nat. split; reflexivity.
  - intros st' H.
    apply (proj2 (close_idempotent 0 quiet_env connected) st' H).
Defined.

(** C8, as stated, fails: on a connector whose connection object is already
    closed, [close] returns and leaves that object in [self.connection]; the
    connection is not [None] afterwards. *)
Lemma close_keeps_closed_connection :
  connection_of closed_elsewhere 0 = Some 0%nat /\
  closed_in closed_elsewhere 0 = true /\
  (SnowflakeConnector.close 0 quiet_env closed_elsewhere).1 = Ok tt /\
  connection_of (SnowflakeConnector.close 0 quiet_env closed_elsewhere).2 0
    = Some 0%nat /\
  connection_of
    ((SnowflakeConnector.close 0 ;;; SnowflakeConnector.close 0)
       quiet_env closed_elsewhere).2 0 <> None.
Proof. vm_compute. repeat split; congruence. Qed.

(** ** [SnowflakeConnector.execute_file] *)

Lemma statement_loop_cons conn piece pieces env st :
  statement_loop conn (piece :: pieces) env st =
  if nonempty (strip piece) then
    match env_db env (trace st) (DbExecute conn (SqlText (strip piece))) with
    | inl e => (Raise e, add_event (exec_event conn (strip piece)) st)
    | inr _ =>
        statement_loop conn pieces env
          (add_event (exec_event conn (strip piece)) st)
    end
  else statement_loop conn pieces env st.
Proof.
  unfold statement_loop; simpl. unfold bind at 1.
  destruct (nonempty (strip piece)).
  - unfold bind at 1. rewrite db_op_unfold.
    by destruct (env_db env (trace st) _).
  - reflexivity.
Qed.

Lemma statement_loop_all_succeed conn pieces env st :
  (forall s, In s (List.filter nonempty (map strip pieces)) ->
             db_succeeds env (DbExecute conn (SqlText s))) ->
  statement_loop conn pieces env st =
  (Ok tt,
   add_events (map (exec_event conn) (List.filter nonempty (map strip pieces))) st).
Proof.
  revert st. induction pieces as [|piece pieces IH]; intros st Hok.
  - simpl. by rewrite add_events_nil.
  - rewrite statement_loop_cons. simpl in *.
    destruct (nonempty (strip piece)) eqn:Hne.
    + destruct (Hok (strip piece) (or_introl eq_refl) (trace st)) as [rows Hr].
      rewrite Hr, IH.
      * simpl. by rewrite add_event_events.
      * intros s Hs. apply Hok. by right.
    + by apply IH.
Qed.

Lemma statement_loop_first_failure conn pieces before bad after e env st :
  List.filter nonempty (map strip pieces) = before ++ bad :: after ->
  (forall s, In s before -> db_succeeds env (DbExecute conn (SqlText s))) ->
  db_fails env (DbExecute conn (SqlText bad)) e ->
  statement_loop conn pieces env st =
  (Raise e, add_events (map (exec_event conn) (before ++ [bad])) st).
Proof.
  revert st before. induction pieces as [|piece pieces IH]; intros st before Hsplit Hok Hbad.
  - simpl in Hsplit. by destruct before.
  - rewrite statement_loop_cons. simpl in Hsplit.
    destruct (nonempty (strip piece)) eqn:Hne.
    + destruct before as [|b before]; simpl in Hsplit.
      * injection Hsplit as Hb _. subst bad. by rewrite (Hbad (trace st)).
      * injection Hsplit as Hb Hrest. subst b.
        destruct (Hok (strip piece) (or_introl eq_refl) (trace st)) as [rows Hr].
        rewrite Hr, (IH _ before Hrest).
        -- simpl. by rewrite add_event_events.
        -- intros s Hs. apply Hok. by right.
        -- done.
    + by apply IH.
Qed.

(** Two states that differ only in how the appended events are grouped. *)
Ltac merge_events :=
  unfold add_event; rewrite ?add_events_app; f_equal;
  try (simpl; rewrite <- ?app_assoc; reflexivity).

Lemma execute_file_unfold self file_path conn env st st1 :
  SnowflakeConnector.connect self env st = (Ok conn, st1) ->
  db_succeeds env (DbCursor conn) ->
  SnowflakeConnector.execute_file self file_path env st =
  try_finally (execute_file_body conn file_path)
    (db_op (DbCursorClose conn) ;;; ret tt) env
    (add_event (EvDb (DbCursor conn)) st1).
Proof.
  intros Hconn Hcur. unfold SnowflakeConnector.execute_file.
  unfold bind at 1. rewrite Hconn.
  unfold bind at 1. rewrite db_op_unfold.
  destruct (Hcur (trace st1)) as [rows ->]. reflexivity.
Qed.

(** C4 (amended).  [execute_file] splits the file content on semicolons and
    executes each non-empty stripped piece in order; when all of them
    succeed it commits exactly once, after the last one; when one fails it
    raises, the later ones are not executed and nothing is committed.  On a
    file containing "INSERT ...; -- comment\n; SELECT 1;" the non-empty
    stripped pieces are three: the comment line is one of them. *)
Theorem execute_file_statements
    (self : nat) (file_path content : string) (env : environ)
    (st st1 : state) (conn : nat) :
  SnowflakeConnector.connect self env st = (Ok conn, st1) ->
  db_succeeds env (DbCursor conn) ->
  (forall h, env_read env h file_path = inr content) ->
  let stmts := SnowflakeConnector.statements content in
  let opened := [EvDb (DbCursor conn); EvOpen file_path] in
  ((forall s, In s stmts -> db_succeeds env (DbExecute conn (SqlText s))) ->
   db_succeeds env (DbCommit conn) ->
   db_succeeds env (DbCursorClose conn) ->
   SnowflakeConnector.execute_file self file_path env st =
   (Ok tt,
    add_events (opened ++ map (exec_event conn) stmts
                ++ [EvDb (DbCommit conn); EvDb (DbCursorClose conn)]) st1))
  /\
  (forall before bad after e,
     stmts = before ++ bad :: after ->
     (forall s, In s before -> db_succeeds env (DbExecute conn (SqlText s))) ->
     db_fails env (DbExecute conn (SqlText bad)) e ->
     exists e',
       SnowflakeConnector.execute_file self file_path env st =
       (Raise e',
        add_events (opened ++ map (exec_event conn) (before ++ [bad])
                    ++ [EvDb (DbCursorClose conn)]) st1))
  /\
  SnowflakeConnector.statements example_file
  = ["INSERT ..."; "-- comment"; "SELECT 1"].
Proof.
  intros Hconn Hcur Hread stmts opened. split; [| split].
  - intros Hok Hcommit Hclose.
    rewrite (execute_file_unfold _ _ _ _ _ _ Hconn Hcur).
    unfold try_finally, execute_file_body.
    unfold bind at 1. rewrite read_file_unfold, Hread.
    unfold bind at 1. rewrite (statement_loop_all_succeed _ _ _ _ Hok).
    unfold bind at 1.
    destruct (db_op_succeeds (DbCommit conn) env
                (add_events (map (exec_event conn) stmts)
                   (add_event (EvOpen file_path)
                      (add_event (EvDb (DbCursor conn)) st1))) Hcommit)
      as [rows Hc].
    fold stmts. unfold SnowflakeConnector.statements in stmts. fold stmts.
    rewrite Hc. unfold ret at 1.
    unfold bind at 1.
    match goal with |- context [db_op (DbCursorClose conn) env ?s] =>
      destruct (db_op_succeeds (DbCursorClose conn) env s Hclose) as [rows' Hc']
    end.
    rewrite Hc'. unfold ret. f_equal.
    by merge_events.
  - intros before bad after e Hsplit Hok Hbad.
    rewrite (execute_file_unfold _ _ _ _ _ _ Hconn Hcur).
    unfold try_finally, execute_file_body.
    unfold bind at 1. rewrite read_file_unfold, Hread.
    unfold bind at 1.
    rewrite (statement_loop_first_failure _ _ before bad after e _ _ Hsplit Hok Hbad).
    unfold bind at 1. rewrite db_op_unfold.
    match goal with |- context [env_db env ?h (DbCursorClose conn)] =>
      destruct (env_db env h (DbCursorClose conn)) as [e'|rows]
    end.
    + exists e'. f_equal.
      by merge_events.
    + exists e. unfold ret. f_equal.
      by merge_events.
  - reflexivity.
Qed.

Lemma execute_file_statements_witness :
  SnowflakeConnector.execute_file 0 "setup.sql" example_env fresh_connector =
  (Ok tt,
   add_events
     ([EvDb (DbCursor 0); EvOpen "setup.sql"]
      ++ map (exec_event 0) (SnowflakeConnector.statements example_file)
      ++ [EvDb (DbCommit 0); EvDb (DbCursorClose 0)])
     (SnowflakeConnector.connect 0 example_env fresh_connector).2)
  /\
  exists e',
    SnowflakeConnector.execute_file 0 "setup.sql" rejecting_env fresh_connector =
    (Raise e',
     add_events
       ([EvDb (DbCursor 0); EvOpen "setup.sql"]
        ++ map (exec_event 0) (["INSERT ..."] ++ ["-- comment"])
        ++ [EvDb (DbCursorClose 0)])
       (SnowflakeConnector.connect 0 rejecting_env fresh_connector).2).
Proof.
  split.
  - apply (proj1 (execute_file_statements 0 "setup.sql" example_file
                    example_env fresh_connector _ 0 eq_refl
                    (fun h => ex_intro _ [] eq_refl) (fun h => eq_refl))).
    + intros s _ h. by exists [].
    + intros h. by exists [].
    + intros h. by exists [].
  - apply (proj1 (proj2 (execute_file_statements 0 "setup.sql" example_file
                    rejecting_env fresh_connector _ 0 eq_refl
                    (fun h => ex_intro _ [] eq_refl) (fun h => eq_refl)))
             ["INSERT ..."] "-- comment" ["SELECT 1"]
             (Exn DatabaseError "Empty SQL statement.")).
    + reflexivity.
    + intros s [<- | []] h. by exists [].
    + intros h. reflexivity.
Defined.

(** C4, as stated, fails on its own example: the file
    "INSERT ...; -- comment\n; SELECT 1;" has three non-empty stripped
    pieces, and [execute_file] sends all three to the warehouse, the comment
    line included, before its single commit. *)
Lemma execute_file_runs_comment_piece :
  let evs :=
    trace (SnowflakeConnector.execute_file 0 "setup.sql" example_env
             fresh_connector).2 in
  executed evs = [SqlText "INSERT ..."; SqlText "-- comment"; SqlText "SELECT 1"]
  /\ commits evs = 1%nat
  /\ length (executed evs) <> 2%nat.
Proof. vm_compute. repeat split; congruence. Qed.

(** ** [APIIngestion._get_auth_headers] *)

Lemma alter_new_dict (ds : list (gmap string string)) d f :
  alter f (length ds) (ds ++ [d]) !! length ds = Some (f d).
Proof. rewrite list_lookup_alter_eq, lookup_app_r by lia. by rewrite Nat.sub_diag. Qed.

Lemma alter_old_dict (ds : list (gmap string string)) d f ref :
  (ref < length ds)%nat -> alter f (length ds) (ds ++ [d]) !! ref = ds !! ref.
Proof. intros H. rewrite list_lookup_alter_ne by lia. by rewrite lookup_app_l. Qed.

(** [_get_auth_headers] always returns; it makes no external call, and the
    dict it returns is a new object. *)
Lemma get_auth_headers_spec
    (self : APIIngestion.t) (ep : endpoint) (env : environ) (st : state) :
  exists headers st',
    APIIngestion._get_auth_headers self ep env st = (Ok headers, st') /\
    (trace st' = trace st /\ connectors st' = connectors st
     /\ conns st' = conns st) /\
    (length (dicts st) <= headers)%nat /\
    (forall ref, (ref < length (dicts st))%nat ->
                 dicts st' !! ref = dicts st !! ref) /\
    (ep_auth_type ep = Some "bearer" ->
     env_getenv env "API_BEARER_TOKEN" = None ->
     ep_bearer_token ep = None ->
     dicts st' !! headers
     = Some (<["Authorization" := "Bearer "]> (configured_headers st ep))) /\
    (ep_auth_type ep = Some "api_key" ->
     env_getenv env "API_KEY" = None ->
     ep_api_key ep = None ->
     dicts st' !! headers
     = Some (<["X-API-Key" := ""]> (configured_headers st ep))).
Proof.
  unfold APIIngestion._get_auth_headers, configured_headers.
  destruct (ep_headers ep) as [ref|].
  - (* the endpoint has a headers object *)
    unfold bind at 1, ret at 1. unfold bind at 1, read_dict at 1.
    unfold bind at 1, get_state at 1, ret at 1.
    unfold bind at 1, alloc_dict at 1. unfold bind at 1.
    set (d0 := default ∅ (dicts st !! ref)).
    destruct (String.eqb (default "none" (ep_auth_type ep)) "bearer") eqn:Hb;
      [| destruct (String.eqb (default "none" (ep_auth_type ep)) "api_key") eqn:Hk].
    + unfold bind at 1, getenv at 1, bind at 1, get_env at 1, ret at 1.
      unfold dict_setitem, ret; simpl.
      eexists _, _. split; [reflexivity |]. split; [done |]. split; [lia |]. simpl.
      split; [| split].
      * intros r Hr. by apply alter_old_dict.
      * intros _ He Ht. rewrite He, Ht. simpl. by rewrite alter_new_dict.
      * intros Ha. rewrite Ha in Hb. discriminate.
    + unfold bind at 1, getenv at 1, bind at 1, get_env at 1, ret at 1.
      unfold dict_setitem, ret; simpl.
      eexists _, _. split; [reflexivity |]. split; [done |]. split; [lia |]. simpl.
      split; [| split].
      * intros r Hr. by apply alter_old_dict.
      * intros Ha. rewrite Ha in Hb. discriminate.
      * intros _ He Ht. rewrite He, Ht. simpl. by rewrite alter_new_dict.
    + unfold ret; simpl.
      eexists _, _. split; [reflexivity |]. split; [done |]. split; [lia |]. simpl.
      split; [| split].
      * intros r Hr. by rewrite lookup_app_l.
      * intros Ha. rewrite Ha in Hb. discriminate.
      * intros Ha. rewrite Ha in Hk. discriminate.
  - (* no headers key: a fresh empty dict is copied *)
    unfold bind at 1, alloc_dict at 1. unfold bind at 1, read_dict at 1.
    unfold bind at 1, get_state at 1, ret at 1.
    unfold bind at 1, alloc_dict at 1. unfold bind at 1.
    assert (Hempty : default ∅ (dicts (set_dicts (dicts st ++ [∅]) st)
                                 !! length (dicts st)) = (∅ : gmap string string)).
    { simpl. rewrite lookup_app_r by lia. by rewrite Nat.sub_diag. }
    rewrite Hempty.
    assert (Hold : forall r, (r < length (dicts st))%nat ->
                   (r < length (dicts st ++ [(∅ : gmap string string)]))%nat).
    { intros r Hr. rewrite length_app. simpl. lia. }
    destruct (String.eqb (default "none" (ep_auth_type ep)) "bearer") eqn:Hb;
      [| destruct (String.eqb (default "none" (ep_auth_type ep)) "api_key") eqn:Hk].
    + unfold bind at 1, getenv at 1, bind at 1, get_env at 1, ret at 1.
      unfold dict_setitem, ret; simpl.
      eexists _, _. split; [reflexivity |]. split; [done |]. cbn [dicts set_dicts].
      split; [rewrite length_app; simpl; lia |]. split; [| split].
      * intros r Hr. rewrite alter_old_dict by auto. by rewrite lookup_app_l.
      * intros _ He Ht. rewrite He, Ht. simpl. by rewrite alter_new_dict.
      * intros Ha. rewrite Ha in Hb. discriminate.
    + unfold bind at 1, getenv at 1, bind at 1, get_env at 1, ret at 1.
      unfold dict_setitem, ret; simpl.
      eexists _, _. split; [reflexivity |]. split; [done |]. cbn [dicts set_dicts].
      split; [rewrite length_app; simpl; lia |]. split; [| split].
      * intros r Hr. rewrite alter_old_dict by auto. by rewrite lookup_app_l.
      * intros Ha. rewrite Ha in Hb. discriminate.
      * intros _ He Ht. rewrite He, Ht. simpl. by rewrite alter_new_dict.
    + unfold ret; simpl.
      eexists _, _. split; [reflexivity |]. split; [done |]. cbn [dicts set_dicts].
      split; [rewrite length_app; simpl; lia |]. split; [| split].
      * intros r Hr. rewrite lookup_app_l by auto. by rewrite lookup_app_l.
      * intros Ha. rewrite Ha in Hb. discriminate.
      * intros Ha. rewrite Ha in Hk. discriminate.
Qed.

(** C9.  The dict returned by [_get_auth_headers] is a new object, no dict
    that existed before the call is changed (the endpoint's own [headers]
    among them), and with [auth_type] 'bearer' (respectively 'api_key') and
    no token in the environment or in the configuration the returned dict is
    the configured headers with 'Authorization' set to 'Bearer '
    (respectively 'X-API-Key' set to the empty string). *)
Theorem auth_headers_without_token
    (self : APIIngestion.t) (ep : endpoint) (env : environ) (st : state) :
  exists headers st',
    APIIngestion._get_auth_headers self ep env st = (Ok headers, st') /\
    (length (dicts st) <= headers)%nat /\
    (forall ref, (ref < length (dicts st))%nat ->
                 dicts st' !! ref = dicts st !! ref) /\
    (ep_auth_type ep = Some "bearer" ->
     env_getenv env "API_BEARER_TOKEN" = None ->
     ep_bearer_token ep = None ->
     dicts st' !! headers
     = Some (<["Authorization" := "Bearer "]> (configured_headers st ep))) /\
    (ep_auth_type ep = Some "api_key" ->
     env_getenv env "API_KEY" = None ->
     ep_api_key ep = None ->
     dicts st' !! headers
     = Some (<["X-API-Key" := ""]> (configured_headers st ep))).
Proof.
  destruct (get_auth_headers_spec self ep env st)
    as (headers & st' & Hrun & _ & Hnew & Hold & Hbearer & Hkey).
  exists headers, st'. auto.
Qed.

Lemma auth_headers_without_token_witness :
  exists headers st',
    APIIngestion._get_auth_headers (default_api [])
      (users_endpoint (Some "bearer") None) quiet_env one_headers_dict
    = (Ok headers, st') /\
    dicts st' !! headers
    = Some (<["Authorization" := "Bearer "]>
              (<["Accept" := "application/json"]> ∅)) /\
    dicts st' !! 0%nat = Some (<["Accept" := "application/json"]> ∅).
Proof.
  destruct (auth_headers_without_token (default_api [])
              (users_endpoint (Some "bearer") None) quiet_env one_headers_dict)
    as (headers & st' & Hrun & _ & Hold & Hbearer & _).
  exists headers, st'. split; [exact Hrun |]. split.
  - apply Hbearer; reflexivity.
  - rewrite Hold; [reflexivity | simpl; lia].
Defined.

(** ** [APIIngestion._fetch_api_data] *)


Lemma count_requests_app evs1 evs2 :
  count_requests (evs1 ++ evs2) = (count_requests evs1 + count_requests evs2)%nat.
Proof.
  induction evs1 as [|e evs1 IH]; [done |].
  destruct e; simpl; by rewrite ?IH.
Qed.

Lemma retry_sleeps_app evs1 evs2 :
  retry_sleeps (evs1 ++ evs2) = retry_sleeps evs1 ++ retry_sleeps evs2.
Proof.
  induction evs1 as [|e evs1 IH]; [done |].
  destruct e as [[]| | | | |]; simpl; by rewrite ?IH.
Qed.

(** *** [time.sleep] within its domain *)

Lemma os_sleep_granted d env st :
  sleeps_granted env -> os_sleep d env st = (Ok tt, add_event (EvSleep d) st).
Proof. intros Hos. unfold os_sleep. by rewrite Hos. Qed.

Lemma sleep_seconds_granted n env st :
  sleepable n -> sleeps_granted env ->
  sleep (Seconds n) env st = (Ok tt, add_event (EvSleep (Seconds n)) st).
Proof.
  intros [Hlo Hhi] Hos. unfold sleep.
  assert (Hrange : (n <? - max_sleep_seconds) || (max_sleep_seconds <? n) = false).
  { apply orb_false_intro; apply Z.ltb_ge; [| lia].
    unfold max_sleep_seconds in *. lia. }
  rewrite Hrange.
  assert (Hsign : (n <? 0) = false) by (apply Z.ltb_ge; lia).
  rewrite Hsign. by apply os_sleep_granted.
Qed.

Lemma rate_limit_sleep_granted rps env st :
  valid_rate rps -> sleeps_granted env ->
  APIIngestion.rate_limit_sleep rps env st
  = (Ok tt, add_event (EvSleep (OneOver rps)) st).
Proof.
  intros [Hlo Hhi] Hos. unfold APIIngestion.rate_limit_sleep.
  assert (Hzero : (rps =? 0) = false) by (apply Z.eqb_neq; lia).
  rewrite Hzero.
  assert (Hfits : (float_limit <=? Z.abs rps) = false) by (apply Z.leb_gt; lia).
  rewrite Hfits. unfold sleep.
  assert (Hsign : (rps <? 0) = false) by (apply Z.ltb_ge; lia).
  rewrite Hsign. by apply os_sleep_granted.
Qed.

(** Whatever its argument and the operating system's answer, [time.sleep]
    either raises before the wait or asks for exactly that wait. *)
Lemma sleep_inv d env st r st' :
  sleep d env st = (r, st') ->
  (st' = st /\ exists e, r = Raise e) \/ st' = add_event (EvSleep d) st.
Proof.
  unfold sleep, os_sleep, raise.
  destruct d as [n | n].
  - destruct ((n <? - max_sleep_seconds) || (max_sleep_seconds <? n));
      [| destruct (n <? 0)]; intros [= <- <-]; eauto.
  - destruct (n <? 0); intros [= <- <-]; eauto.
Qed.

Lemma rate_limit_sleep_inv rps env st r st' :
  APIIngestion.rate_limit_sleep rps env st = (r, st') ->
  (st' = st /\ exists e, r = Raise e) \/
  st' = add_event (EvSleep (OneOver rps)) st.
Proof.
  unfold APIIngestion.rate_limit_sleep.
  destruct (rps =? 0); [intros [= <- <-]; eauto |].
  destruct (float_limit <=? Z.abs rps); [intros [= <- <-]; eauto |].
  apply sleep_inv.
Qed.

(** One attempt, in any environment: it raises before the rate-limit wait,
    or the wait fails, or the request is sent and answered. *)
Lemma attempt_body_inv url method headers params rl env st r st' :
  let rps := default 10 (rl_requests_per_second rl) in
  let req := Request method url (default ∅ (dicts st !! headers)) params 30 in
  attempt_body url method headers params rl env st = (r, st') ->
  (st' = st /\ exists e, r = Raise e) \/
  (st' = add_events [EvSleep (OneOver rps)] st /\ exists e, r = Raise e) \/
  (st' = add_events [EvSleep (OneOver rps); EvRequest req] st /\
   r = match env_http env (trace st ++ [EvSleep (OneOver rps)]) req with
       | inl e => Raise e
       | inr data => Ok (Some (APIIngestion.normalize_response data))
       end).
Proof.
  intros rps req. unfold attempt_body. fold rps. unfold bind at 1.
  destruct (APIIngestion.rate_limit_sleep rps env st) as [[[] | e] s1] eqn:Hsleep;
    destruct (rate_limit_sleep_inv _ _ _ _ _ Hsleep) as [[-> [e' He']] | ->];
    try discriminate.
  - unfold bind at 1, read_dict, bind at 1, get_state, ret at 1.
    unfold bind at 1. rewrite http_request_unfold.
    cbn [dicts add_event add_events trace]. fold req.
    destruct (env_http env _ req); unfold ret; intros [= <- <-];
      right; right; (split; [by merge_events | reflexivity]).
  - intros [= <- <-]. left. eauto.
  - intros [= <- <-]. right. left. split; [reflexivity | eauto].
Qed.

Section FetchFacts.
Variables (url method : string) (headers : nat) (params : gmap string string).
Variables (rl : rate_limit) (n delay : Z).
Variable env : environ.

Let rps := default 10 (rl_requests_per_second rl).
Let loop := APIIngestion.fetch_attempts url method headers params rl n delay.
Let body := attempt_body url method headers params rl.

Lemma fetch_attempts_cons attempt rest :
  loop (attempt :: rest) =
  try_except body is_request_exception
    (fun e =>
       if attempt <? n - 1 then
         print ("Attempt " +:+ pretty (attempt + 1) +:+ " failed: "
                +:+ str_exn e +:+ ". Retrying in "
                +:+ pretty delay +:+ " seconds...") ;;;
         sleep (Seconds delay) ;;;
         loop rest
       else
         print ("Failed to fetch data from " +:+ url +:+ " after "
                +:+ pretty n +:+ " attempts: " +:+ str_exn e) ;;;
         ret None).
Proof. reflexivity. Qed.

Lemma attempt_body_unfold st :
  valid_rate rps -> sleeps_granted env ->
  let req := Request method url (default ∅ (dicts st !! headers)) params 30 in
  body env st =
  (match env_http env (trace st ++ [EvSleep (OneOver rps)]) req with
   | inl e => Raise e
   | inr data => Ok (Some (APIIngestion.normalize_response data))
   end,
   add_events [EvSleep (OneOver rps); EvRequest req] st).
Proof.
  intros Hrps Hos req. unfold body, attempt_body.
  fold rps.
  unfold bind at 1. rewrite (rate_limit_sleep_granted _ _ _ Hrps Hos).
  unfold bind at 1, read_dict, bind at 1, get_state, ret at 1.
  unfold bind at 1. rewrite http_request_unfold. cbn [dicts add_event add_events trace].
  fold req. destruct (env_http env _ req); unfold ret; f_equal; by merge_events.
Qed.

End FetchFacts.





Lemma fetch_api_data_unfold self ep env st headers st1 :
  APIIngestion._get_auth_headers self ep env st = (Ok headers, st1) ->
  APIIngestion._fetch_api_data self ep env st =
  APIIngestion.fetch_attempts (ep_url ep) (default "GET" (ep_method ep)) headers
    (default ∅ (ep_params ep)) (rate_limit_of self) (max_retries_of self)
    (retry_delay_of self) (APIIngestion.range (max_retries_of self)) env st1.
Proof.
  intros Hrun. unfold APIIngestion._fetch_api_data. unfold bind at 1.
  by rewrite Hrun.
Qed.



(** An empty result set is a list, not [None]: with a server that answers
    every request with an empty array the result is [[]]. *)
Example fetch_empty_result_set :
  (APIIngestion._fetch_api_data (default_api []) (users_endpoint None None)
     quiet_env one_headers_dict).1 = Ok (Some (PList [])).
Proof. vm_compute. reflexivity. Qed.

(** *** Response normalization *)

Lemma normalize_response_normalized data :
  normalized data (APIIngestion.normalize_response data).
Proof.
  destruct data as [x | l | items].
  - apply norm_raw.
  - apply norm_sequence.
  - unfold APIIngestion.normalize_response.
    destruct (dict_get items "data") as [v|] eqn:Hdata.
    + destruct v; try (by apply norm_data_wrapped).
      by apply norm_data_sequence.
    + destruct (dict_get items "results") as [v|] eqn:Hres.
      * destruct v; try (by apply norm_results_wrapped).
        by apply norm_results_sequence.
      * by apply norm_mapping_wrapped.
Qed.

(** The specification's rules leave no choice: one body, one result. *)
Lemma normalized_functional data r1 r2 :
  normalized data r1 -> normalized data r2 -> r1 = r2.
Proof.
  intros H1 H2.
  destruct H1; inversion H2; subst; simpl in *;
    try discriminate; try reflexivity; try congruence;
    match goal with
    | Ha : ?g = Some ?x, Hb : ?g = Some ?y |- _ =>
        assert (x = y) by congruence; subst; simpl in *;
        try discriminate; try reflexivity
    end.
Qed.

(** Whatever list [_fetch_api_data] returns is the normalization of a body
    the server sent, at whichever attempt it was received. *)
Lemma fetch_attempts_returns_normalized
    url method headers params rl n delay env attempts st result st' :
  APIIngestion.fetch_attempts url method headers params rl n delay attempts env st
  = (Ok (Some result), st') ->
  exists h r data,
    env_http env h r = inr data /\ result = APIIngestion.normalize_response data.
Proof.
  revert st. induction attempts as [|attempt rest IH]; intros st Hrun.
  - discriminate.
  - rewrite fetch_attempts_cons in Hrun. unfold try_except in Hrun.
    destruct (attempt_body url method headers params rl env st)
      as [[o | e] st1] eqn:Hbody.
    + injection Hrun as -> ->. clear IH.
      destruct (attempt_body_inv _ _ _ _ _ _ _ _ _ Hbody)
        as [[_ [e He]] | [[_ [e He]] | [_ Hr]]]; try discriminate.
      match type of Hr with context [env_http env ?h ?r] =>
        destruct (env_http env h r) as [e | data] eqn:Hhttp; [discriminate |];
        exists h, r, data
      end.
      injection Hr as ->. by split.
    + destruct (is_request_exception e); [| discriminate].
      destruct (attempt <? n - 1).
      * unfold bind at 1, print, log_event in Hrun.
        unfold bind at 1 in Hrun.
        match type of Hrun with context [sleep ?d env ?s] =>
          destruct (sleep d env s) as [[[] | e'] s2]; [| discriminate]
        end.
        by eapply IH.
      * unfold bind, print, log_event, ret in Hrun. discriminate.
Qed.

(** C3.  Whatever list [_fetch_api_data] returns is the normalization of a
    body the server sent; and with a positive [requests_per_second], when
    the server answers with a decoded body [data], [_fetch_api_data] returns
    the normalization the specification describes: a sequence unchanged; for
    a mapping the value under 'data', else the value under 'results' (either
    one wrapped in a one-element list unless it is a list), else the mapping
    itself in a one-element list; anything else as
    [[{'raw_data': str(data)}]]. *)
Theorem fetch_normalizes_response
    (self : APIIngestion.t) (ep : endpoint) (env : environ) (st : state)
    (data : pyval) :
  (forall result st',
     APIIngestion._fetch_api_data self ep env st = (Ok (Some result), st') ->
     exists h r body,
       env_http env h r = inr body /\ normalized body result)
  /\
  (valid_rate (requests_per_second_of self) ->
   sleeps_granted env ->
   0 < max_retries_of self ->
   (forall h r, env_http env h r = inr data) ->
   exists st' result,
     APIIngestion._fetch_api_data self ep env st = (Ok (Some result), st') /\
     result = APIIngestion.normalize_response data /\
     normalized data result /\
     (forall result', normalized data result' -> result' = result)).
Proof.
  destruct (get_auth_headers_spec self ep env st)
    as (headers & st1 & Hrun & _).
  rewrite (fetch_api_data_unfold _ _ _ _ _ _ Hrun).
  split.
  - intros result st' Hfetch.
    destruct (fetch_attempts_returns_normalized _ _ _ _ _ _ _ _ _ _ _ _ Hfetch)
      as (h & r & body & Hhttp & ->).
    exists h, r, body. split; [exact Hhttp |].
    apply normalize_response_normalized.
  - intros Hrps Hos Hpos Hdata.
    unfold APIIngestion.range.
    destruct (Z.to_nat (max_retries_of self)) as [|m] eqn:Hn; [lia |].
    cbn [seq map]. rewrite fetch_attempts_cons. unfold try_except.
    rewrite attempt_body_unfold by done. rewrite Hdata.
    eexists _, _. split; [reflexivity |]. split; [reflexivity |].
    split; [apply normalize_response_normalized |].
    intros result' H'.
    exact (normalized_functional _ _ _ H' (normalize_response_normalized data)).
Qed.

Lemma fetch_normalizes_response_witness :
  exists st',
    APIIngestion._fetch_api_data (default_api []) (users_endpoint None None)
      serving_env one_headers_dict
    = (Ok (Some (PList [PDict [("a", PInt 1)]])), st').
Proof.
  destruct (proj2 (fetch_normalizes_response (default_api [])
                     (users_endpoint None None) serving_env one_headers_dict
                     (PDict [("data", PList [PDict [("a", PInt 1)]])])))
    as (st' & result & Hrun & Hres & _).
  - split; reflexivity.
  - intros h d. reflexivity.
  - reflexivity.
  - reflexivity.
  - exists st'. rewrite Hrun, Hres. reflexivity.
Defined.

(** The three bodies the specification lists. *)
Example normalize_data_envelope :
  APIIngestion.normalize_response (PDict [("data", PList [PDict [("a", PInt 1)]])])
  = PList [PDict [("a", PInt 1)]].
Proof. reflexivity. Qed.

Example normalize_other_mapping :
  APIIngestion.normalize_response (PDict [("other", PInt 5)])
  = PList [PDict [("other", PInt 5)]].
Proof. reflexivity. Qed.

Example normalize_bare_array :
  APIIngestion.normalize_response (PList [PInt 1; PStr "x"])
  = PList [PInt 1; PStr "x"].
Proof. reflexivity. Qed.

Example normalize_scalar :
  APIIngestion.normalize_response (PInt 42)
  = PList [PDict [("raw_data", PStr "42")]].
Proof. reflexivity. Qed.

(** ** [APIIngestion.ingest_endpoint] *)

Lemma find_selects_none name (endpoints : list endpoint) :
  (forall ep, In ep endpoints -> ep_name ep = name -> ep_enabled ep = Some false) ->
  List.find (APIIngestion.selects name) endpoints = None.
Proof.
  induction endpoints as [|ep endpoints IH]; intros Hoff; [done |].
  simpl. unfold APIIngestion.selects at 1.
  destruct (String.eqb_spec (ep_name ep) name) as [Heq | Hne]; simpl.
  - rewrite (Hoff ep (or_introl eq_refl) Heq). simpl.
    apply IH. intros ep' Hin. apply Hoff. by right.
  - apply IH. intros ep' Hin. apply Hoff. by right.
Qed.

(** ** [FileIngestion.check_pipe_status] *)

(** C10.  [check_pipe_status] never raises, and it returns [None] both when
    the status query yields no row and when anything in the try block
    raises: the returned value is the same in the two situations. *)
Theorem check_pipe_status_none
    (self : FileIngestion.t) (pipe_name : string) (env : environ) (st : state) :
  (exists v st',
     FileIngestion.check_pipe_status self pipe_name env st = (Ok v, st'))
  /\
  (forall e st1,
     FileIngestion.check_pipe_status_body self pipe_name env st = (Raise e, st1) ->
     FileIngestion.check_pipe_status self pipe_name env st
     = (Ok CNull,
        add_event (EvPrint ("Error checking pipe status: " +:+ str_exn e)) st1))
  /\
  (forall conn st1,
     SnowflakeConnector.connect (FileIngestion.snowflake self) env st
     = (Ok conn, st1) ->
     db_succeeds env (DbCursor conn) ->
     db_succeeds env (DbExecute conn (SqlPipeStatus pipe_name)) ->
     (forall h, env_db env h (DbFetchone conn) = inr []) ->
     db_succeeds env (DbCursorClose conn) ->
     FileIngestion.check_pipe_status self pipe_name env st
     = (Ok CNull,
        add_events [EvDb (DbCursor conn);
                    EvDb (DbExecute conn (SqlPipeStatus pipe_name));
                    EvDb (DbFetchone conn); EvDb (DbCursorClose conn)] st1)).
Proof.
  split; [| split].
  - unfold FileIngestion.check_pipe_status, try_except.
    destruct (FileIngestion.check_pipe_status_body self pipe_name env st)
      as [[v | e] st1]; [by eexists _, _ |].
    cbn [any_exception]. by eexists _, _.
  - intros e st1 Hbody.
    unfold FileIngestion.check_pipe_status, try_except. by rewrite Hbody.
  - intros conn st1 Hconn Hcur Hexec Hfetch Hclose.
    unfold FileIngestion.check_pipe_status, try_except,
      FileIngestion.check_pipe_status_body.
    unfold bind at 1. rewrite Hconn.
    unfold bind at 1. rewrite db_op_unfold.
    destruct (Hcur (trace st1)) as [r1 ->].
    unfold bind at 1. rewrite db_op_unfold.
    match goal with |- context [env_db env ?h (DbExecute conn _)] =>
      destruct (Hexec h) as [r2 ->] end.
    unfold bind at 1. rewrite db_op_unfold, Hfetch.
    unfold bind at 1. rewrite db_op_unfold.
    match goal with |- context [env_db env ?h (DbCursorClose conn)] =>
      destruct (Hclose h) as [r3 ->] end.
    unfold ret; simpl. f_equal. by merge_events.
Qed.

Lemma check_pipe_status_none_witness :
  (FileIngestion.check_pipe_status (FileIngestion.Make 0) "FILE_INGESTION_PIPE"
     refusing_env fresh_connector).1 = Ok CNull
  /\
  (FileIngestion.check_pipe_status (FileIngestion.Make 0) "FILE_INGESTION_PIPE"
     quiet_env fresh_connector).1 = Ok CNull.
Proof.
  split.
  - rewrite (proj1 (proj2 (check_pipe_status_none (FileIngestion.Make 0)
               "FILE_INGESTION_PIPE" refusing_env fresh_connector))
               (Exn DatabaseError "SQL compilation error") _ eq_refl).
    reflexivity.
  - rewrite (proj2 (proj2 (check_pipe_status_none (FileIngestion.Make 0)
               "FILE_INGESTION_PIPE" quiet_env fresh_connector))
               0%nat _ eq_refl).
    + reflexivity.
    + intros h. by exists [].
    + intros h. by exists [].
    + intros h. reflexivity.
    + intros h. by exists [].
Defined.

(** ** Which events a computation can add to the trace *)

Section Emits.
Context {A B : Type} (P : event -> Prop).

Lemma emits_silent (m : M A) :
  (forall env st, trace (m env st).2 = trace st) -> emits P m.
Proof.
  intros Hm env st r st' Hrun. exists []. split; [| constructor].
  specialize (Hm env st). rewrite Hrun in Hm. simpl in Hm.
  by rewrite Hm, app_nil_r.
Qed.

Lemma emits_ret (a : A) : emits P (ret a).
Proof. by apply emits_silent. Qed.

Lemma emits_raise (e : exn) : emits P (@raise A e).
Proof. by apply emits_silent. Qed.

Lemma emits_of_sum (r : exn + A) : emits P (of_sum r).
Proof. destruct r; [apply emits_raise | apply emits_ret]. Qed.

Lemma emits_bind (m : M A) (k : A -> M B) :
  emits P m -> (forall a, emits P (k a)) -> emits P (bind m k).
Proof.
  intros Hm Hk env st r st' Hrun. unfold bind in Hrun.
  destruct (m env st) as [[a | e] st1] eqn:Hm1.
  - destruct (Hm _ _ _ _ Hm1) as (evs1 & Ht1 & HP1).
    destruct (Hk a _ _ _ _ Hrun) as (evs2 & Ht2 & HP2).
    exists (evs1 ++ evs2). split.
    + by rewrite Ht2, Ht1, app_assoc.
    + by apply Forall_app.
  - injection Hrun as <- <-. by eapply Hm.
Qed.

Lemma emits_try_except (body : M A) catches (handler : exn -> M A) :
  emits P body -> (forall e, emits P (handler e)) ->
  emits P (try_except body catches handler).
Proof.
  intros Hb Hh env st r st' Hrun. unfold try_except in Hrun.
  destruct (body env st) as [[a | e] st1] eqn:Hb1.
  - injection Hrun as <- <-. by eapply Hb.
  - destruct (Hb _ _ _ _ Hb1) as (evs1 & Ht1 & HP1).
    destruct (catches e).
    + destruct (Hh e _ _ _ _ Hrun) as (evs2 & Ht2 & HP2).
      exists (evs1 ++ evs2). split.
      * by rewrite Ht2, Ht1, app_assoc.
      * by apply Forall_app.
    + injection Hrun as <- <-. by exists evs1.
Qed.

Lemma emits_try_finally (body : M A) (cleanup : M unit) :
  emits P body -> emits P cleanup -> emits P (try_finally body cleanup).
Proof.
  intros Hb Hc env st r st' Hrun. unfold try_finally in Hrun.
  destruct (body env st) as [r1 st1] eqn:Hb1.
  destruct (cleanup env st1) as [r2 st2] eqn:Hc1.
  destruct (Hb _ _ _ _ Hb1) as (evs1 & Ht1 & HP1).
  destruct (Hc _ _ _ _ Hc1) as (evs2 & Ht2 & HP2).
  exists (evs1 ++ evs2). split.
  - destruct r2; injection Hrun as <- <-; by rewrite Ht2, Ht1, app_assoc.
  - by apply Forall_app.
Qed.

End Emits.

Lemma emits_for_each {A} (P : event -> Prop) (xs : list A) (body : A -> M unit) :
  (forall x, emits P (body x)) -> emits P (for_each xs body).
Proof.
  intros Hbody. induction xs as [|x xs IH]; simpl.
  - by apply emits_silent.
  - apply emits_bind; [apply Hbody | intros _; exact IH].
Qed.

Lemma emits_weaken {A} (P Q : event -> Prop) (m : M A) :
  (forall e, P e -> Q e) -> emits P m -> emits Q m.
Proof.
  intros HPQ Hm env st r st' Hrun.
  destruct (Hm _ _ _ _ Hrun) as (evs & Ht & HP).
  exists evs. split; [done |]. by eapply Forall_impl.
Qed.

Lemma emits_log_event (P : event -> Prop) e : P e -> emits P (log_event e).
Proof.
  intros HP env st r st' Hrun. injection Hrun as <- <-.
  exists [e]. split; [done | by constructor].
Qed.

Lemma emits_sleep (P : event -> Prop) d : P (EvSleep d) -> emits P (sleep d).
Proof.
  intros HP env st r st' Hrun.
  destruct (sleep_inv _ _ _ _ _ Hrun) as [[-> _] | ->].
  - exists []. split; [by rewrite app_nil_r | constructor].
  - exists [EvSleep d]. split; [done | by constructor].
Qed.

Lemma emits_db_op (P : event -> Prop) c : P (EvDb c) -> emits P (db_op c).
Proof.
  intros HP env st r st' Hrun. rewrite db_op_unfold in Hrun.
  injection Hrun as <- <-. exists [EvDb c]. split; [done | by constructor].
Qed.

Lemma emits_http_request (P : event -> Prop) r :
  P (EvRequest r) -> emits P (http_request r).
Proof.
  intros HP env st o st' Hrun. rewrite http_request_unfold in Hrun.
  injection Hrun as <- <-. exists [EvRequest r]. split; [done | by constructor].
Qed.

Lemma emits_read_file (P : event -> Prop) path :
  P (EvOpen path) -> emits P (read_file path).
Proof.
  intros HP env st o st' Hrun. rewrite read_file_unfold in Hrun.
  injection Hrun as <- <-. exists [EvOpen path]. split; [done | by constructor].
Qed.

Lemma emits_load_yaml (P : event -> Prop) path :
  P (EvLoadConfig path) -> emits P (load_yaml path).
Proof.
  intros HP env st o st' Hrun. rewrite load_yaml_unfold in Hrun.
  injection Hrun as <- <-. exists [EvLoadConfig path].
  split; [done | by constructor].
Qed.

(** One step of a proof that a computation emits only [P]-events: follow the
    structure of the computation; what is left are the events themselves. *)
Ltac emits_step :=
  lazymatch goal with
  | |- emits _ (bind _ _) => apply emits_bind; [| intros ?]
  | |- emits _ (ret _) => apply emits_ret
  | |- emits _ (raise _) => apply emits_raise
  | |- emits _ (of_sum _) => apply emits_of_sum
  | |- emits _ (try_except _ _ _) => apply emits_try_except; [| intros ?]
  | |- emits _ (try_finally _ _) => apply emits_try_finally
  | |- emits _ (for_each _ _) => apply emits_for_each; intros ?
  | |- emits _ (db_op _) => apply emits_db_op
  | |- emits _ (http_request _) => apply emits_http_request
  | |- emits _ (read_file _) => apply emits_read_file
  | |- emits _ (load_yaml _) => apply emits_load_yaml
  | |- emits _ (print _) => apply emits_log_event
  | |- emits _ (sleep _) => apply emits_sleep
  | |- emits _ (log_event _) => apply emits_log_event
  | |- emits _ (if ?b then _ else _) => destruct b
  | |- emits _ (match ?x with _ => _ end) => destruct x
  | |- emits _ _ => apply emits_silent; reflexivity
  end.

Ltac emits_auto := repeat emits_step; try exact I; try done.

(** *** The connector *)

Lemma connect_emits self : emits quiet_event (SnowflakeConnector.connect self).
Proof.
  unfold SnowflakeConnector.connect, SnowflakeConnector.open_connection.
  emits_auto.
Qed.

Lemma connector_init_emits path : emits quiet_event (SnowflakeConnector.init path).
Proof. unfold SnowflakeConnector.init. emits_auto. Qed.

(** *** API ingestion *)

Lemma quiet_api_event e : quiet_event e -> api_event e.
Proof. by destruct e as [| | |[]| |]. Qed.

Lemma get_auth_headers_emits P self ep :
  emits P (APIIngestion._get_auth_headers self ep).
Proof.
  intros env st r st' Hrun.
  destruct (get_auth_headers_spec self ep env st)
    as (h & st1 & Hrun1 & (Ht & _) & _).
  rewrite Hrun in Hrun1. injection Hrun1 as -> ->.
  exists []. split; [by rewrite app_nil_r | constructor].
Qed.

Lemma fetch_attempts_emits url method headers params rl n delay attempts :
  emits api_event
    (APIIngestion.fetch_attempts url method headers params rl n delay attempts).
Proof.
  induction attempts as [|attempt rest IH]; [by apply emits_ret |].
  rewrite fetch_attempts_cons.
  apply emits_try_except.
  - unfold attempt_body, APIIngestion.rate_limit_sleep. emits_auto.
  - intros e. destruct (attempt <? n - 1).
    + apply emits_bind; [by apply emits_log_event |]. intros _.
      apply emits_bind; [by apply emits_sleep |]. intros _. exact IH.
    + emits_auto.
Qed.

Lemma fetch_api_data_emits self ep :
  emits api_event (APIIngestion._fetch_api_data self ep).
Proof.
  unfold APIIngestion._fetch_api_data.
  apply emits_bind; [apply get_auth_headers_emits |]. intros headers.
  apply fetch_attempts_emits.
Qed.

Lemma load_to_snowflake_emits self data target_table run_id :
  emits api_event (APIIngestion._load_to_snowflake self data target_table run_id).
Proof.
  unfold APIIngestion._load_to_snowflake, APIIngestion.py_len.
  destruct (negb (truthy data)); [emits_auto |].
  apply emits_try_except; [| intros e; emits_auto].
  apply emits_bind.
  { eapply emits_weaken; [apply quiet_api_event | apply connect_emits]. }
  intros conn. emits_auto.
Qed.

Lemma ingest_endpoint_emits self endpoint_name :
  emits api_event (APIIngestion.ingest_endpoint self endpoint_name).
Proof.
  unfold APIIngestion.ingest_endpoint.
  destruct (List.find _ _) as [ep|]; [| emits_auto].
  apply emits_bind; [by apply emits_log_event |]. intros _.
  apply emits_bind; [emits_auto |]. intros stamp.
  apply emits_bind; [apply fetch_api_data_emits |]. intros [data|].
  - apply load_to_snowflake_emits.
  - apply emits_ret.
Qed.

(** *** [ingest_endpoint] and the [enabled] flag *)

(** The first endpoint the lookup of [ingest_endpoint] selects, when some
    endpoint bearing the name has no [enabled] key. *)
Lemma find_selects_absent_flag name (endpoints : list endpoint) :
  (exists ep, In ep endpoints /\ ep_name ep = name /\ ep_enabled ep = None) ->
  exists ep',
    List.find (APIIngestion.selects name) endpoints = Some ep' /\
    In ep' endpoints /\ ep_name ep' = name /\ ep_enabled ep' <> Some false.
Proof.
  intros (ep & Hin & Hname & Hflag).
  destruct (List.find (APIIngestion.selects name) endpoints) as [ep'|] eqn:Hfind.
  - exists ep'. split; [reflexivity |].
    apply List.find_some in Hfind as [Hin' Hsel]. split; [exact Hin' |].
    unfold APIIngestion.selects in Hsel.
    apply andb_true_iff in Hsel as [Heq Hen].
    split; [by apply String.eqb_eq |].
    intros Hoff. by rewrite Hoff in Hen.
  - pose proof (List.find_none _ _ Hfind ep Hin) as Hsel.
    unfold APIIngestion.selects in Hsel.
    rewrite Hflag in Hsel. simpl in Hsel. rewrite andb_true_r in Hsel.
    apply String.eqb_neq in Hsel. done.
Qed.

(** With valid settings the first thing [_fetch_api_data] does, in any
    environment, is the rate-limit wait followed by the request. *)
Lemma fetch_sends_first_request self ep env st r st' :
  valid_rate (requests_per_second_of self) ->
  sleeps_granted env ->
  0 < max_retries_of self ->
  APIIngestion._fetch_api_data self ep env st = (r, st') ->
  exists sent evs,
    trace st'
    = trace st ++ [EvSleep (OneOver (requests_per_second_of self));
                   EvRequest (request_of ep sent)] ++ evs.
Proof.
  intros Hrps Hos Hpos Hrun.
  destruct (get_auth_headers_spec self ep env st)
    as (headers & st1 & Hauth & (Ht & _) & _).
  rewrite (fetch_api_data_unfold _ _ _ _ _ _ Hauth) in Hrun.
  unfold APIIngestion.range in Hrun.
  destruct (Z.to_nat (max_retries_of self)) as [|m] eqn:Hn; [lia |].
  cbn [seq map] in Hrun. rewrite fetch_attempts_cons in Hrun.
  unfold try_except in Hrun.
  rewrite attempt_body_unfold in Hrun by done.
  exists (default ∅ (dicts st1 !! headers)).
  match type of Hrun with context [env_http env ?h ?req] =>
    destruct (env_http env h req) as [e | data] end.
  2:{ injection Hrun as <- <-. exists []. simpl. by rewrite Ht. }
  destruct (is_request_exception e).
  2:{ injection Hrun as <- <-. exists []. simpl. by rewrite Ht. }
  match type of Hrun with ?handler env ?s = _ =>
    assert (Hemits : emits (fun _ => True) handler)
  end.
  { destruct (Z.of_nat 0 <? max_retries_of self - 1).
    - apply emits_bind; [by apply emits_log_event |]. intros _.
      apply emits_bind; [by apply emits_sleep |]. intros _.
      eapply emits_weaken; [| apply fetch_attempts_emits]. done.
    - emits_auto. }
  destruct (Hemits _ _ _ _ Hrun) as (evs & Htr & _).
  exists evs. rewrite Htr. simpl. rewrite Ht. by rewrite <- app_assoc.
Qed.

(** C5 (amended).  When every endpoint of the configuration that bears the
    given name has its [enabled] flag set to false (in particular when no
    endpoint bears the name), [ingest_endpoint] returns [False] and its only
    effect is the line it prints: no request is sent, no warehouse call is
    made.  An endpoint without an [enabled] key counts as enabled: when one
    bears the name, [ingest_endpoint] selects an endpoint of that name that
    is not disabled and, with valid rate-limit settings, sends its request,
    whatever happens next. *)
Theorem ingest_endpoint_disabled_or_missing
    (self : APIIngestion.t) (endpoint_name : string) (env : environ) (st : state) :
  let endpoints := default [] (ac_endpoints (APIIngestion.api_config_ self)) in
  ((forall ep,
      In ep endpoints -> ep_name ep = endpoint_name -> ep_enabled ep = Some false) ->
   APIIngestion.ingest_endpoint self endpoint_name env st
   = (Ok false,
      add_event
        (EvPrint ("Endpoint " +:+ endpoint_name +:+ " not found or disabled")) st))
  /\
  ((exists ep,
      In ep endpoints /\ ep_name ep = endpoint_name /\ ep_enabled ep = None) ->
   valid_rate (requests_per_second_of self) ->
   sleeps_granted env ->
   0 < max_retries_of self ->
   exists r st' ep' sent evs,
     APIIngestion.ingest_endpoint self endpoint_name env st = (r, st') /\
     In ep' endpoints /\ ep_name ep' = endpoint_name /\
     ep_enabled ep' <> Some false /\
     trace st'
     = trace st
       ++ [EvPrint ("Ingesting data from " +:+ endpoint_name +:+ "...");
           EvSleep (OneOver (requests_per_second_of self));
           EvRequest (request_of ep' sent)] ++ evs).
Proof.
  intros endpoints. subst endpoints. split.
  - intros Hoff. unfold APIIngestion.ingest_endpoint.
    by rewrite (find_selects_none _ _ Hoff).
  - intros Habsent Hrps Hos Hpos.
    destruct (find_selects_absent_flag _ _ Habsent)
      as (ep' & Hfind & Hin & Hname & Hflag).
    destruct (APIIngestion.ingest_endpoint self endpoint_name env st)
      as [r st'] eqn:Hrun.
    exists r, st', ep'.
    unfold APIIngestion.ingest_endpoint in Hrun.
    rewrite Hfind in Hrun.
    unfold bind at 1, print at 1, log_event at 1 in Hrun.
    unfold bind at 1, now_strftime at 1 in Hrun.
    unfold bind at 1 2, get_env, get_state, ret at 1 in Hrun.
    unfold bind at 1 in Hrun.
    match type of Hrun with context [APIIngestion._fetch_api_data self ep' env ?s] =>
      destruct (APIIngestion._fetch_api_data self ep' env s)
        as [[[data |] | e] s1] eqn:Hfetch;
      destruct (fetch_sends_first_request _ _ _ _ _ _ Hrps Hos Hpos Hfetch)
        as (sent & evs & Ht)
    end.
    + destruct (load_to_snowflake_emits _ _ _ _ _ _ _ _ Hrun) as (evs' & Ht' & _).
      exists sent, (evs ++ evs'). split; [reflexivity |].
      do 3 (split; [done |]).
      rewrite Ht', Ht. simpl. by rewrite <- !app_assoc.
    + injection Hrun as <- <-. exists sent, evs. split; [reflexivity |].
      do 3 (split; [done |]).
      rewrite Ht. simpl. by rewrite <- !app_assoc.
    + injection Hrun as <- <-. exists sent, evs. split; [reflexivity |].
      do 3 (split; [done |]).
      rewrite Ht. simpl. by rewrite <- !app_assoc.
Qed.

Lemma ingest_endpoint_disabled_or_missing_witness :
  APIIngestion.ingest_endpoint
    (default_api [users_endpoint None (Some false)]) "users" serving_env
    one_headers_dict
  = (Ok false,
     add_event (EvPrint "Endpoint users not found or disabled") one_headers_dict)
  /\
  APIIngestion.ingest_endpoint
    (default_api [users_endpoint None None]) "orders" serving_env
    one_headers_dict
  = (Ok false,
     add_event (EvPrint "Endpoint orders not found or disabled") one_headers_dict).
Proof.
  split.
  - apply (ingest_endpoint_disabled_or_missing
             (default_api [users_endpoint None (Some false)]) "users").
    intros ep [<- | []] _. reflexivity.
  - apply (ingest_endpoint_disabled_or_missing
             (default_api [users_endpoint None None]) "orders").
    intros ep [<- | []] Hname. discriminate.
Defined.

(** C5, as stated, fails for an endpoint whose [enabled] flag is absent: the
    lookup treats it as enabled, so the request is sent and the table is
    created.  ([ingest_endpoint] still returns [False] here, for another
    reason: the row cannot be serialized.) *)
Lemma ingest_endpoint_absent_flag_is_enabled :
  let run :=
    APIIngestion.ingest_endpoint (default_api [users_endpoint None None])
      "users" serving_env ingestion_ready in
  ep_enabled (users_endpoint None None) = None /\
  run.1 = Ok false /\
  count_requests (trace run.2) = 1%nat /\
  executed (trace run.2) = [SqlCreateTable "RAW.API_USERS"] /\
  trace run.2 <>
  trace ingestion_ready ++ [EvPrint "Endpoint users not found or disabled"].
Proof. vm_compute. repeat split; congruence. Qed.

Lemma ingest_each_emits self endpoints results :
  emits api_event (APIIngestion.ingest_each self endpoints results).
Proof.
  revert results. induction endpoints as [|ep endpoints IH]; intros results;
    [by apply emits_ret |].
  simpl. destruct (default true (ep_enabled ep)); [| apply IH].
  apply emits_bind; [apply ingest_endpoint_emits |]. intros ok. apply IH.
Qed.

Lemma ingest_all_endpoints_emits self :
  emits api_event (APIIngestion.ingest_all_endpoints self).
Proof. apply ingest_each_emits. Qed.

Lemma map_m_place_headers_emits P eps :
  emits P (APIIngestion.map_m APIIngestion.place_headers eps).
Proof.
  induction eps as [|ep eps IH]; [by apply emits_ret |].
  simpl. apply emits_bind.
  - unfold APIIngestion.place_headers. emits_auto.
  - intros ep'. apply emits_bind; [exact IH |]. intros eps'. apply emits_ret.
Qed.

Lemma api_init_emits path : emits api_event (APIIngestion.init path).
Proof.
  unfold APIIngestion.init.
  apply emits_bind; [by apply emits_load_yaml |]. intros cfg.
  apply emits_bind.
  - destruct (cfg_api_ingestion cfg) as [c|]; [| apply emits_ret].
    unfold APIIngestion.place_config.
    destruct (ac_endpoints c); [| apply emits_ret].
    apply emits_bind; [apply map_m_place_headers_emits |]. intros eps'.
    apply emits_ret.
  - intros api. apply emits_bind; [| intros sf; apply emits_ret].
    eapply emits_weaken; [apply quiet_api_event | apply connector_init_emits].
Qed.

(** ** The orchestrator *)

Lemma quiet_stage_event rid name e : quiet_event e -> stage_event rid name e.
Proof. by destruct e as [| | |[]| |]. Qed.

Lemma api_stage_event rid e : api_event e -> stage_event rid "INGESTION" e.
Proof. destruct e as [| | |[| | ? []| | | |]| |]; simpl; done. Qed.

Lemma stage_pipeline_event rid name e : stage_event rid name e -> pipeline_event rid e.
Proof. intros H. by exists name. Qed.

Lemma connect_stage_emits rid name self :
  emits (stage_event rid name) (SnowflakeConnector.connect self).
Proof. eapply emits_weaken; [apply quiet_stage_event | apply connect_emits]. Qed.

Lemma log_pipeline_start_emits self name :
  emits (stage_event (PipelineOrchestrator.run_id self) name)
    (PipelineOrchestrator.log_pipeline_start self name).
Proof.
  unfold PipelineOrchestrator.log_pipeline_start.
  apply emits_bind; [apply connect_stage_emits |]. intros conn. emits_auto.
Qed.

Lemma log_pipeline_end_emits self name status rp rf msg :
  emits (stage_event (PipelineOrchestrator.run_id self) name)
    (PipelineOrchestrator.log_pipeline_end self name status rp rf msg).
Proof.
  unfold PipelineOrchestrator.log_pipeline_end.
  apply emits_bind; [apply connect_stage_emits |]. intros conn. emits_auto.
Qed.

Lemma run_ingestion_emits self :
  emits (stage_event (PipelineOrchestrator.run_id self) "INGESTION")
    (PipelineOrchestrator.run_ingestion self).
Proof.
  unfold PipelineOrchestrator.run_ingestion.
  apply emits_bind; [apply log_pipeline_start_emits |]. intros _.
  apply emits_try_except.
  - unfold PipelineOrchestrator.run_ingestion_body.
    apply emits_bind.
    { eapply emits_weaken; [apply api_stage_event | apply api_init_emits]. }
    intros api. apply emits_bind.
    { eapply emits_weaken;
        [apply api_stage_event | apply ingest_all_endpoints_emits]. }
    intros results.
    apply emits_bind; [apply log_pipeline_end_emits |]. intros _.
    apply emits_ret.
  - intros e. apply emits_bind; [apply log_pipeline_end_emits |]. intros _.
    apply emits_ret.
Qed.

Lemma run_transformation_emits self :
  emits (stage_event (PipelineOrchestrator.run_id self) "TRANSFORMATION")
    (PipelineOrchestrator.run_transformation self).
Proof.
  unfold PipelineOrchestrator.run_transformation.
  apply emits_bind; [apply log_pipeline_start_emits |]. intros _.
  apply emits_try_except.
  - unfold PipelineOrchestrator.run_transformation_body.
    apply emits_bind; [apply connect_stage_emits |]. intros conn.
    do 6 (apply emits_bind; [by apply emits_db_op |]; intros _).
    apply emits_bind; [apply log_pipeline_end_emits |]. intros _.
    apply emits_ret.
  - intros e. apply emits_bind; [apply log_pipeline_end_emits |]. intros _.
    apply emits_ret.
Qed.

Lemma run_validation_emits self :
  emits (stage_event (PipelineOrchestrator.run_id self) "VALIDATION")
    (PipelineOrchestrator.run_validation self).
Proof.
  unfold PipelineOrchestrator.run_validation.
  apply emits_bind; [apply log_pipeline_start_emits |]. intros _.
  apply emits_try_except.
  - unfold PipelineOrchestrator.run_validation_body.
    apply emits_bind; [apply connect_stage_emits |]. intros conn.
    do 3 (apply emits_bind; [by apply emits_db_op |]; intros _).
    apply emits_bind; [by apply emits_db_op |]. intros rows.
    apply emits_bind; [by apply emits_db_op |]. intros _.
    apply emits_bind.
    { unfold PipelineOrchestrator.gt_zero. emits_auto. }
    intros positive.
    apply emits_bind; [apply log_pipeline_end_emits |]. intros _.
    apply emits_ret.
  - intros e. apply emits_bind; [apply log_pipeline_end_emits |]. intros _.
    apply emits_ret.
Qed.

Lemma run_full_pipeline_emits self :
  emits (pipeline_event (PipelineOrchestrator.run_id self))
    (PipelineOrchestrator.run_full_pipeline self).
Proof.
  unfold PipelineOrchestrator.run_full_pipeline.
  assert (Hprint : forall line,
            emits (pipeline_event (PipelineOrchestrator.run_id self)) (print line)).
  { intros line. apply emits_log_event. by exists "INGESTION". }
  apply emits_bind; [apply Hprint |]. intros _.
  apply emits_bind; [apply Hprint |]. intros _.
  apply emits_bind.
  { eapply emits_weaken; [apply stage_pipeline_event | apply run_ingestion_emits]. }
  intros ingestion. destruct (negb ingestion).
  { apply emits_bind; [apply Hprint | intros _; apply emits_ret]. }
  apply emits_bind; [apply Hprint |]. intros _.
  apply emits_bind.
  { eapply emits_weaken;
      [apply stage_pipeline_event | apply run_transformation_emits]. }
  intros transformation. destruct (negb transformation).
  { apply emits_bind; [apply Hprint | intros _; apply emits_ret]. }
  apply emits_bind; [apply Hprint |]. intros _.
  apply emits_bind.
  { eapply emits_weaken; [apply stage_pipeline_event | apply run_validation_emits]. }
  intros validation.
  do 3 (apply emits_bind; [apply Hprint |]; intros _).
  apply emits_ret.
Qed.

Lemma emits_logs_with {A} rid (m : M A) :
  emits (pipeline_event rid) m -> logs_with rid m.
Proof.
  intros Hm env st r st' Hrun.
  destruct (Hm _ _ _ _ Hrun) as (evs & Ht & HP).
  exists evs. split; [done |].
  intros conn stmt rid' Hin Hlog.
  rewrite List.Forall_forall in HP. destruct (HP _ Hin) as [name Hstage].
  destruct stmt; simpl in *; try discriminate;
    injection Hlog as <-; by destruct Hstage.
Qed.

(** C6.  The run identifier is built once, by the constructor, from the
    clock reading and the first eight characters of a random UUID; every
    start-log insert and every end-log update the orchestrator then sends,
    in each of the three stages and in the full pipeline, carries that
    value. *)
Theorem run_id_in_every_log
    (config_path : string) (env : environ) (st : state)
    (self : PipelineOrchestrator.t) (st0 : state) :
  PipelineOrchestrator.init config_path env st = (Ok self, st0) ->
  PipelineOrchestrator.run_id self
  = "RUN_" +:+ env_now env (trace st0) +:+ "_"
    +:+ String.substring 0 8 (env_uuid4 env (trace st0))
  /\ logs_with (PipelineOrchestrator.run_id self)
       (PipelineOrchestrator.run_ingestion self)
  /\ logs_with (PipelineOrchestrator.run_id self)
       (PipelineOrchestrator.run_transformation self)
  /\ logs_with (PipelineOrchestrator.run_id self)
       (PipelineOrchestrator.run_validation self)
  /\ logs_with (PipelineOrchestrator.run_id self)
       (PipelineOrchestrator.run_full_pipeline self).
Proof.
  intros Hinit. split; [| repeat split].
  - unfold PipelineOrchestrator.init in Hinit.
    unfold bind at 1 in Hinit. rewrite load_yaml_unfold in Hinit.
    destruct (env_yaml env (trace st) config_path); [discriminate |].
    unfold bind at 1 in Hinit.
    unfold SnowflakeConnector.init in Hinit.
    unfold bind at 1 in Hinit. rewrite load_yaml_unfold in Hinit.
    destruct (env_yaml env _ config_path); [discriminate |].
    unfold bind, now_strftime, uuid4, get_env, get_state, ret in Hinit.
    simpl in Hinit. injection Hinit as <- <-. reflexivity.
  - apply emits_logs_with.
    eapply emits_weaken; [apply stage_pipeline_event | apply run_ingestion_emits].
  - apply emits_logs_with.
    eapply emits_weaken; [apply stage_pipeline_event | apply run_transformation_emits].
  - apply emits_logs_with.
    eapply emits_weaken; [apply stage_pipeline_event | apply run_validation_emits].
  - apply emits_logs_with. apply run_full_pipeline_emits.
Qed.

Lemma run_id_in_every_log_witness :
  PipelineOrchestrator.run_id quiet_orchestrator = "RUN_20240101_000000_123e4567"
  /\ logs_with "RUN_20240101_000000_123e4567"
       (PipelineOrchestrator.run_full_pipeline quiet_orchestrator).
Proof.
  destruct (run_id_in_every_log "config/config.yaml" quiet_env initial_state
              quiet_orchestrator after_init eq_refl)
    as (Hid & _ & _ & _ & Hfull).
  split; [exact Hid | exact Hfull].
Defined.

(** A run in which every stage succeeds: six log statements, one run id. *)
Example full_pipeline_log_statements :
  executed (trace (PipelineOrchestrator.run_full_pipeline quiet_orchestrator
                     quiet_env after_init).2)
  = [SqlInsertPipelineLog "INGESTION" "RUN_20240101_000000_123e4567";
     SqlUpdatePipelineLog "INGESTION" "SUCCESS" 0 0 "NULL"
       "RUN_20240101_000000_123e4567";
     SqlInsertPipelineLog "TRANSFORMATION" "RUN_20240101_000000_123e4567";
     SqlCallCleanRawData "RUN_20240101_000000_123e4567";
     SqlCallRemoveDuplicates "RUN_20240101_000000_123e4567";
     SqlCallApplyBusinessTransforms "RUN_20240101_000000_123e4567";
     SqlUpdatePipelineLog "TRANSFORMATION" "SUCCESS" 0 0 "NULL"
       "RUN_20240101_000000_123e4567";
     SqlInsertPipelineLog "VALIDATION" "RUN_20240101_000000_123e4567";
     SqlCallRunAllValidations "RUN_20240101_000000_123e4567";
     SqlCountFailedChecks "RUN_20240101_000000_123e4567";
     SqlUpdatePipelineLog "VALIDATION" "SUCCESS" 0 0 "NULL"
       "RUN_20240101_000000_123e4567"].
Proof. vm_compute. reflexivity. Qed.

(** *** [run_full_pipeline] *)

(** C2.  [run_full_pipeline] runs no stage after a failed one.  When
    [run_ingestion] returns [False] the result maps all three stages to
    [False], and nothing happens after the ingestion stage but one printed
    line: every statement sent belongs to the ingestion stage.  When
    ingestion succeeds and [run_transformation] returns [False], the result
    maps transformation and validation to [False] and no statement of the
    validation stage is sent.  A stage that raises ends the pipeline too. *)
Theorem pipeline_stops_at_failed_stage
    (self : PipelineOrchestrator.t) (env : environ) (st : state) :
  let rid := PipelineOrchestrator.run_id self in
  (forall st1,
     PipelineOrchestrator.run_ingestion self env (at_step_1 self st)
     = (Ok false, st1) ->
     PipelineOrchestrator.run_full_pipeline self env st
     = (Ok (stage_results false false false),
        add_event (EvPrint "Ingestion failed. Stopping pipeline.") st1)
     /\ exists evs,
          trace st1 = trace (at_step_1 self st) ++ evs /\
          Forall (stage_event rid "INGESTION") evs)
  /\
  (forall st1 st2,
     PipelineOrchestrator.run_ingestion self env (at_step_1 self st)
     = (Ok true, st1) ->
     PipelineOrchestrator.run_transformation self env (at_step_2 st1)
     = (Ok false, st2) ->
     PipelineOrchestrator.run_full_pipeline self env st
     = (Ok (stage_results true false false),
        add_event (EvPrint "Transformation failed. Stopping pipeline.") st2)
     /\ exists evs,
          trace st2 = trace (at_step_2 st1) ++ evs /\
          Forall (stage_event rid "TRANSFORMATION") evs)
  /\
  (forall e st1,
     PipelineOrchestrator.run_ingestion self env (at_step_1 self st)
     = (Raise e, st1) ->
     PipelineOrchestrator.run_full_pipeline self env st = (Raise e, st1))
  /\
  (forall e st1 st2,
     PipelineOrchestrator.run_ingestion self env (at_step_1 self st)
     = (Ok true, st1) ->
     PipelineOrchestrator.run_transformation self env (at_step_2 st1)
     = (Raise e, st2) ->
     PipelineOrchestrator.run_full_pipeline self env st = (Raise e, st2)).
Proof.
  intros rid.
  split; [| split; [| split]].
  - intros st1 Hing. split; [| by eapply run_ingestion_emits].
    unfold PipelineOrchestrator.run_full_pipeline.
    unfold bind at 1, print at 1, log_event.
    unfold bind at 1, print at 1, log_event.
    unfold bind at 1. fold (at_step_1 self st). rewrite Hing. reflexivity.
  - intros st1 st2 Hing Htr. split; [| by eapply run_transformation_emits].
    unfold PipelineOrchestrator.run_full_pipeline.
    unfold bind at 1, print at 1, log_event.
    unfold bind at 1, print at 1, log_event.
    unfold bind at 1. fold (at_step_1 self st). rewrite Hing. cbn [negb].
    unfold bind at 1, print at 1, log_event.
    unfold bind at 1. fold (at_step_2 st1). rewrite Htr. reflexivity.
  - intros e st1 Hing. unfold PipelineOrchestrator.run_full_pipeline.
    unfold bind at 1, print at 1, log_event.
    unfold bind at 1, print at 1, log_event.
    unfold bind at 1. fold (at_step_1 self st). by rewrite Hing.
  - intros e st1 st2 Hing Htr. unfold PipelineOrchestrator.run_full_pipeline.
    unfold bind at 1, print at 1, log_event.
    unfold bind at 1, print at 1, log_event.
    unfold bind at 1. fold (at_step_1 self st). rewrite Hing. cbn [negb].
    unfold bind at 1, print at 1, log_event.
    unfold bind at 1. fold (at_step_2 st1). by rewrite Htr.
Qed.

Lemma pipeline_stops_at_failed_stage_witness :
  (PipelineOrchestrator.run_full_pipeline quiet_orchestrator
     ingestion_failing_env after_init).1
  = Ok (stage_results false false false)
  /\
  (PipelineOrchestrator.run_full_pipeline quiet_orchestrator
     transformation_failing_env after_init).1
  = Ok (stage_results true false false).
Proof.
  split.
  - assert (Hing :
      PipelineOrchestrator.run_ingestion quiet_orchestrator
        ingestion_failing_env (at_step_1 quiet_orchestrator after_init)
      = (Ok false,
         (PipelineOrchestrator.run_ingestion quiet_orchestrator
            ingestion_failing_env (at_step_1 quiet_orchestrator after_init)).2))
      by (vm_compute; reflexivity).
    exact (f_equal fst
             (proj1 (proj1 (pipeline_stops_at_failed_stage quiet_orchestrator
                              ingestion_failing_env after_init) _ Hing))).
  - assert (Hing :
      PipelineOrchestrator.run_ingestion quiet_orchestrator
        transformation_failing_env (at_step_1 quiet_orchestrator after_init)
      = (Ok true,
         (PipelineOrchestrator.run_ingestion quiet_orchestrator
            transformation_failing_env
            (at_step_1 quiet_orchestrator after_init)).2))
      by (vm_compute; reflexivity).
    assert (Htr :
      PipelineOrchestrator.run_transformation quiet_orchestrator
        transformation_failing_env
        (at_step_2 (PipelineOrchestrator.run_ingestion quiet_orchestrator
            transformation_failing_env
            (at_step_1 quiet_orchestrator after_init)).2)
      = (Ok false,
         (PipelineOrchestrator.run_transformation quiet_orchestrator
            transformation_failing_env
            (at_step_2 (PipelineOrchestrator.run_ingestion quiet_orchestrator
              transformation_failing_env
              (at_step_1 quiet_orchestrator after_init)).2)).2))
      by (vm_compute; reflexivity).
    exact (f_equal fst
             (proj1 (proj1 (proj2 (pipeline_stops_at_failed_stage
                                     quiet_orchestrator
                                     transformation_failing_env after_init))
                       _ _ Hing Htr))).
Defined.

(** With the server down the pipeline sends the two ingestion log
    statements and nothing else. *)
Example failed_ingestion_statements :
  executed (trace (PipelineOrchestrator.run_full_pipeline quiet_orchestrator
                     ingestion_failing_env after_init).2)
  = [SqlInsertPipelineLog "INGESTION" "RUN_20240101_000000_123e4567";
     SqlUpdatePipelineLog "INGESTION" "FAILED" 0 0 "NULL"
       "RUN_20240101_000000_123e4567"].
Proof. vm_compute. reflexivity. Qed.

(** *** [run_validation] *)

Lemma executed_app evs1 evs2 : executed (evs1 ++ evs2) = executed evs1 ++ executed evs2.
Proof.
  induction evs1 as [|e evs1 IH]; [done |].
  destruct e as [| | |[]| |]; simpl; by rewrite ?IH.
Qed.

Lemma executed_quiet evs : Forall quiet_event evs -> executed evs = [].
Proof.
  induction 1 as [|e evs He _ IH]; [done |].
  destruct e as [| | |[]| |]; simpl in *; done.
Qed.

Lemma completes_ret {A} env (a : A) (Q : A -> Prop) :
  Q a -> completes env (ret a) Q [].
Proof. intros HQ st. exists a, st, []. by rewrite app_nil_r. Qed.

Lemma completes_bind {A B} env (m : M A) (k : A -> M B) Q Q' s1 s2 :
  completes env m Q s1 ->
  (forall a, Q a -> completes env (k a) Q' s2) ->
  completes env (bind m k) Q' (s1 ++ s2).
Proof.
  intros Hm Hk st.
  destruct (Hm st) as (a & st1 & evs1 & Hrun1 & HQ & Ht1 & He1).
  destruct (Hk a HQ st1) as (b & st2 & evs2 & Hrun2 & HQ' & Ht2 & He2).
  exists b, st2, (evs1 ++ evs2). unfold bind. rewrite Hrun1.
  split; [done |]. split; [done |]. split.
  - by rewrite Ht2, Ht1, app_assoc.
  - by rewrite executed_app, He1, He2.
Qed.

Lemma completes_try_except {A} env (body : M A) catches handler Q stmts :
  completes env body Q stmts ->
  completes env (try_except body catches handler) Q stmts.
Proof.
  intros Hb st. destruct (Hb st) as (a & st1 & evs & Hrun & H).
  exists a, st1, evs. unfold try_except. by rewrite Hrun.
Qed.

Lemma completes_db_op env c :
  db_succeeds env c ->
  completes env (db_op c) (fun _ => True) (executed [EvDb c]).
Proof.
  intros Hc st. destruct (db_op_succeeds c env st Hc) as [rows Hrun].
  by exists rows, (add_event (EvDb c) st), [EvDb c].
Qed.

Lemma completes_db_op_rows env c rows :
  (forall h, env_db env h c = inr rows) ->
  completes env (db_op c) (eq rows) (executed [EvDb c]).
Proof.
  intros Hc st. exists rows, (add_event (EvDb c) st), [EvDb c].
  by rewrite db_op_unfold, Hc.
Qed.

Lemma completes_connect env self :
  db_succeeds env DbConnect ->
  completes env (SnowflakeConnector.connect self) (fun _ => True) [].
Proof.
  intros Hc st.
  destruct (SnowflakeConnector.connect self env st) as [r st'] eqn:Hrun.
  destruct (connect_emits self _ _ _ _ Hrun) as (evs & Ht & Hq).
  assert (exists conn, r = Ok conn) as [conn ->].
  { unfold SnowflakeConnector.connect, SnowflakeConnector.open_connection,
      SnowflakeConnector.connection, SnowflakeConnector.is_closed,
      SnowflakeConnector.set_connection in Hrun.
    unfold bind at 1, get_state at 1, bind at 1, ret at 1 in Hrun.
    destruct (mjoin (connectors st !! self)) as [c0|].
    - unfold bind at 1, get_state at 1, bind at 1, ret at 1 in Hrun.
      destruct (default true (conns st !! c0)).
      + unfold bind at 1, bind at 1 in Hrun. rewrite db_op_unfold in Hrun.
        destruct (Hc (trace st)) as [rows Hr]. rewrite Hr in Hrun.
        unfold bind, ret in Hrun. injection Hrun as <- _. by eexists.
      + unfold ret in Hrun. injection Hrun as <- _. by eexists.
    - unfold bind at 1, bind at 1 in Hrun. rewrite db_op_unfold in Hrun.
      destruct (Hc (trace st)) as [rows Hr]. rewrite Hr in Hrun.
      unfold bind, ret in Hrun. injection Hrun as <- _. by eexists. }
  exists conn, st', evs. split; [done |]. split; [done |].
  split; [done | by apply executed_quiet].
Qed.

Lemma completes_log_pipeline_start env self name :
  warehouse_up env ->
  completes env (PipelineOrchestrator.log_pipeline_start self name)
    (fun _ => True)
    [SqlInsertPipelineLog name (PipelineOrchestrator.run_id self)].
Proof.
  intros Hup. unfold PipelineOrchestrator.log_pipeline_start.
  eapply (completes_bind _ _ _ _ _ [] [_]);
    [by apply completes_connect |]. intros conn _.
  eapply (completes_bind _ _ _ _ _ [] [_]);
    [by apply completes_db_op |]. intros _ _.
  eapply (completes_bind _ _ _ _ _ [_] []);
    [by apply completes_db_op |]. intros _ _.
  eapply (completes_bind _ _ _ _ _ [] []);
    [by apply completes_db_op |]. intros _ _.
  eapply (completes_bind _ _ _ _ _ [] []);
    [by apply completes_db_op |]. intros _ _.
  by apply completes_ret.
Qed.

Lemma completes_log_pipeline_end env self name status rp rf msg :
  warehouse_up env ->
  completes env (PipelineOrchestrator.log_pipeline_end self name status rp rf msg)
    (fun _ => True)
    [SqlUpdatePipelineLog name status rp rf
       (PipelineOrchestrator.error_message_sql msg)
       (PipelineOrchestrator.run_id self)].
Proof.
  intros Hup. unfold PipelineOrchestrator.log_pipeline_end.
  eapply (completes_bind _ _ _ _ _ [] [_]);
    [by apply completes_connect |]. intros conn _.
  eapply (completes_bind _ _ _ _ _ [] [_]);
    [by apply completes_db_op |]. intros _ _.
  eapply (completes_bind _ _ _ _ _ [_] []);
    [by apply completes_db_op |]. intros _ _.
  eapply (completes_bind _ _ _ _ _ [] []);
    [by apply completes_db_op |]. intros _ _.
  eapply (completes_bind _ _ _ _ _ [] []);
    [by apply completes_db_op |]. intros _ _.
  by apply completes_ret.
Qed.

Lemma completes_run_validation env self (failed : nat) :
  warehouse_up env ->
  (forall h conn, env_db env h (DbFetchone conn) = inr [[CInt (Z.of_nat failed)]]) ->
  completes env (PipelineOrchestrator.run_validation self)
    (eq (Nat.eqb failed 0))
    [SqlInsertPipelineLog "VALIDATION" (PipelineOrchestrator.run_id self);
     SqlCallRunAllValidations (PipelineOrchestrator.run_id self);
     SqlCountFailedChecks (PipelineOrchestrator.run_id self);
     validation_end_log (PipelineOrchestrator.run_id self) failed].
Proof.
  intros Hup Hfetch. unfold PipelineOrchestrator.run_validation.
  eapply (completes_bind _ _ _ _ _ [_] [_; _; _]);
    [by apply completes_log_pipeline_start |]. intros _ _.
  apply completes_try_except.
  unfold PipelineOrchestrator.run_validation_body.
  eapply (completes_bind _ _ _ _ _ [] [_; _; _]);
    [by apply completes_connect |]. intros conn _.
  eapply (completes_bind _ _ _ _ _ [] [_; _; _]);
    [by apply completes_db_op |]. intros _ _.
  eapply (completes_bind _ _ _ _ _ [_] [_; _]);
    [by apply completes_db_op |]. intros _ _.
  eapply (completes_bind _ _ _ _ _ [_] [_]);
    [by apply completes_db_op |]. intros _ _.
  eapply (completes_bind _ _ _ _ _ [] [_]);
    [by apply completes_db_op_rows |]. intros rows <-.
  eapply (completes_bind _ _ _ _ _ [] [_]);
    [by apply completes_db_op |]. intros _ _.
  cbn [head]. destruct failed as [|n].
  - eapply (completes_bind _ _ _ _ _ [] [_]);
      [by apply (completes_ret _ false (eq false)) |]. intros _ <-.
    eapply (completes_bind _ _ _ _ _ [_] []);
      [by apply completes_log_pipeline_end |]. intros _ _.
    by apply completes_ret.
  - eapply (completes_bind _ _ _ _ _ [] [_]);
      [by apply (completes_ret _ true (eq true)) |]. intros _ <-.
    eapply (completes_bind _ _ _ _ _ [_] []);
      [by apply completes_log_pipeline_end |]. intros _ _.
    by apply completes_ret.
Qed.

Lemma log_pipeline_end_statement self name status rp rf msg env st r st' :
  PipelineOrchestrator.log_pipeline_end self name status rp rf msg env st
  = (r, st') ->
  exists evs,
    trace st' = trace st ++ evs /\
    (executed evs
     = [SqlUpdatePipelineLog name status rp rf
          (PipelineOrchestrator.error_message_sql msg)
          (PipelineOrchestrator.run_id self)]
     \/ (executed evs = [] /\ exists e', r = Raise e')).
Proof.
  intros Hrun. unfold PipelineOrchestrator.log_pipeline_end in Hrun.
  unfold bind at 1 in Hrun.
  destruct (SnowflakeConnector.connect (PipelineOrchestrator.snowflake self) env st)
    as [[conn | e] s1] eqn:Hconn;
    destruct (connect_emits _ _ _ _ _ Hconn) as (evs1 & Ht1 & Hq1).
  - unfold bind at 1 in Hrun. rewrite db_op_unfold in Hrun.
    destruct (env_db env (trace s1) (DbCursor conn)) as [e | rows].
    + injection Hrun as <- <-. exists (evs1 ++ [EvDb (DbCursor conn)]). split.
      * simpl. by rewrite Ht1, app_assoc.
      * right. split; [| by eexists].
        by rewrite executed_app, (executed_quiet _ Hq1).
    + unfold bind at 1 in Hrun. rewrite db_op_unfold in Hrun.
      set (stmt := SqlUpdatePipelineLog name status rp rf
                     (PipelineOrchestrator.error_message_sql msg)
                     (PipelineOrchestrator.run_id self)) in *.
      set (s2 := add_event (EvDb (DbExecute conn stmt))
                   (add_event (EvDb (DbCursor conn)) s1)) in *.
      assert (Hs2 : trace s2
                = trace st ++ evs1 ++ [EvDb (DbCursor conn); EvDb (DbExecute conn stmt)]).
      { subst s2. simpl. rewrite Ht1, <- !app_assoc. reflexivity. }
      destruct (env_db env _ (DbExecute conn stmt)) as [e | rows2].
      * injection Hrun as <- <-. eexists. split; [exact Hs2 |]. left.
        by rewrite executed_app, (executed_quiet _ Hq1).
      * assert (Hrest : emits quiet_event
                  (db_op (DbCommit conn) ;;; db_op (DbCursorClose conn) ;;; ret tt))
          by emits_auto.
        destruct (Hrest _ _ _ _ Hrun) as (evs3 & Ht3 & Hq3).
        exists ((evs1 ++ [EvDb (DbCursor conn); EvDb (DbExecute conn stmt)]) ++ evs3).
        split; [by rewrite Ht3, Hs2, !app_assoc |]. left.
        rewrite !executed_app, (executed_quiet _ Hq1), (executed_quiet _ Hq3).
        reflexivity.
  - injection Hrun as <- <-. exists evs1. split; [done |]. right.
    split; [by apply executed_quiet | by eexists].
Qed.

(** C7 (amended).  When the warehouse accepts every call and the count query
    reports [failed] rows, the validation stage returns whether [failed] is
    zero, and its end-log update records SUCCESS for zero and otherwise
    FAILED with the message '<failed> validation checks failed'; it does not
    raise.  When the try block raises an error [e], the error is caught and
    the FAILED end-log update with [e]'s message is attempted: if that update
    completes the stage returns [False]; if the update itself raises, that
    error reaches the caller. *)
Theorem run_validation_outcome
    (self : PipelineOrchestrator.t) (env : environ) (st : state) :
  let rid := PipelineOrchestrator.run_id self in
  (forall failed : nat,
     warehouse_up env ->
     (forall h conn,
        env_db env h (DbFetchone conn) = inr [[CInt (Z.of_nat failed)]]) ->
     exists st' evs,
       PipelineOrchestrator.run_validation self env st
       = (Ok (Nat.eqb failed 0), st') /\
       trace st' = trace st ++ evs /\
       executed evs
       = [SqlInsertPipelineLog "VALIDATION" rid;
          SqlCallRunAllValidations rid;
          SqlCountFailedChecks rid;
          validation_end_log rid failed])
  /\
  (forall st0 e st1,
     PipelineOrchestrator.log_pipeline_start self "VALIDATION" env st
     = (Ok tt, st0) ->
     PipelineOrchestrator.run_validation_body self env st0 = (Raise e, st1) ->
     exists r st2 evs,
       PipelineOrchestrator.log_pipeline_end self "VALIDATION" "FAILED" 0 0
         (Some (str_exn e)) env st1 = (r, st2) /\
       trace st2 = trace st1 ++ evs /\
       (executed evs
        = [SqlUpdatePipelineLog "VALIDATION" "FAILED" 0 0
             (PipelineOrchestrator.error_message_sql (Some (str_exn e))) rid]
        \/ (executed evs = [] /\ exists e', r = Raise e')) /\
       PipelineOrchestrator.run_validation self env st
       = (match r with Ok _ => Ok false | Raise e' => Raise e' end, st2)).
Proof.
  intros rid. split.
  - intros failed Hup Hfetch.
    destruct (completes_run_validation env self failed Hup Hfetch st)
      as (b & st' & evs & Hrun & <- & Ht & He).
    by exists st', evs.
  - intros st0 e st1 Hstart Hbody.
    destruct (PipelineOrchestrator.log_pipeline_end self "VALIDATION" "FAILED"
                0 0 (Some (str_exn e)) env st1) as [r st2] eqn:Hend.
    destruct (log_pipeline_end_statement _ _ _ _ _ _ _ _ _ _ Hend)
      as (evs & Ht & Hstmt).
    exists r, st2, evs. split; [done |]. split; [done |]. split; [done |].
    unfold PipelineOrchestrator.run_validation.
    unfold bind at 1. rewrite Hstart.
    unfold try_except. rewrite Hbody. cbn [any_exception].
    unfold bind. rewrite Hend. by destruct r as [[] |].
Qed.

Lemma run_validation_outcome_witness :
  (exists st' evs,
     PipelineOrchestrator.run_validation quiet_orchestrator three_failed_env
       after_init = (Ok false, st') /\
     trace st' = trace after_init ++ evs /\
     executed evs
     = [SqlInsertPipelineLog "VALIDATION" "RUN_20240101_000000_123e4567";
        SqlCallRunAllValidations "RUN_20240101_000000_123e4567";
        SqlCountFailedChecks "RUN_20240101_000000_123e4567";
        SqlUpdatePipelineLog "VALIDATION" "FAILED" 0 0
          "'3 validation checks failed'" "RUN_20240101_000000_123e4567"])
  /\
  (PipelineOrchestrator.run_validation quiet_orchestrator validation_failing_env
     after_init).1 = Ok false.
Proof.
  split.
  - apply (proj1 (run_validation_outcome quiet_orchestrator three_failed_env
                    after_init) 3%nat).
    + intros c h. destruct c; by eexists.
    + intros h conn. reflexivity.
  - assert (Hstart :
      PipelineOrchestrator.log_pipeline_start quiet_orchestrator "VALIDATION"
        validation_failing_env after_init
      = (Ok tt,
         (PipelineOrchestrator.log_pipeline_start quiet_orchestrator
            "VALIDATION" validation_failing_env after_init).2))
      by (vm_compute; reflexivity).
    assert (Hbody :
      PipelineOrchestrator.run_validation_body quiet_orchestrator
        validation_failing_env
        (PipelineOrchestrator.log_pipeline_start quiet_orchestrator
           "VALIDATION" validation_failing_env after_init).2
      = (Raise (Exn DatabaseError "Table 'FINAL_DATA' does not exist"),
         (PipelineOrchestrator.run_validation_body quiet_orchestrator
            validation_failing_env
            (PipelineOrchestrator.log_pipeline_start quiet_orchestrator
               "VALIDATION" validation_failing_env after_init).2).2))
      by (vm_compute; reflexivity).
    destruct (proj2 (run_validation_outcome quiet_orchestrator
                       validation_failing_env after_init) _ _ _ Hstart Hbody)
      as (r & st2 & evs & Hend & _ & _ & Hrun).
    rewrite Hrun. cbn [fst].
    assert (Hr : r = Ok tt).
    { apply (f_equal fst) in Hend. vm_compute in Hend. congruence. }
    by rewrite Hr.
Defined.

(** C7, as stated, fails: when the validation procedure raises and the
    warehouse also rejects the FAILED end-log update, [run_validation]
    raises to its caller; no [False] is returned and no FAILED row is
    recorded (the only log statement that went through is the start-log
    insert). *)
Lemma run_validation_can_raise :
  let run :=
    PipelineOrchestrator.run_validation quiet_orchestrator warehouse_lost_env
      after_init in
  run.1 = Raise (Exn DatabaseError "Connection lost") /\
  executed (trace run.2)
  = [SqlInsertPipelineLog "VALIDATION" "RUN_20240101_000000_123e4567";
     SqlCallRunAllValidations "RUN_20240101_000000_123e4567";
     SqlUpdatePipelineLog "VALIDATION" "FAILED" 0 0 "'Connection lost'"
       "RUN_20240101_000000_123e4567"].
Proof. vm_compute. split; reflexivity. Qed.

(** * Further properties of the code *)

(** ** [SnowflakeConnector.connect] and [close] together *)

Lemma open_connection_unfold env st :
  SnowflakeConnector.open_connection env st =
  match env_db env (trace st) DbConnect with
  | inl e => (Raise e, add_event (EvDb DbConnect) st)
  | inr _ =>
      (Ok (length (conns st)),
       set_conns (conns st ++ [false]) (add_event (EvDb DbConnect) st))
  end.
Proof.
  unfold SnowflakeConnector.open_connection, bind. rewrite db_op_unfold.
  by destruct (env_db env (trace st) DbConnect).
Qed.

(** What [connect] does, by the state of the connector. *)
Lemma connect_unfold self env st :
  SnowflakeConnector.connect self env st =
  match connection_of st self with
  | Some c0 =>
      if closed_in st c0 then
        match env_db env (trace st) DbConnect with
        | inl e => (Raise e, add_event (EvDb DbConnect) st)
        | inr _ =>
            (Ok (length (conns st)),
             set_connectors (<[self := Some (length (conns st))]> (connectors st))
               (set_conns (conns st ++ [false]) (add_event (EvDb DbConnect) st)))
        end
      else (Ok c0, st)
  | None =>
      match env_db env (trace st) DbConnect with
      | inl e => (Raise e, add_event (EvDb DbConnect) st)
      | inr _ =>
          (Ok (length (conns st)),
           set_connectors (<[self := Some (length (conns st))]> (connectors st))
             (set_conns (conns st ++ [false]) (add_event (EvDb DbConnect) st)))
      end
  end.
Proof.
  unfold SnowflakeConnector.connect, SnowflakeConnector.connection,
    SnowflakeConnector.is_closed, SnowflakeConnector.set_connection,
    connection_of, closed_in.
  unfold bind at 1, get_state at 1, bind at 1, ret at 1.
  destruct (mjoin (connectors st !! self)) as [c0|].
  - unfold bind at 1, get_state at 1, bind at 1, ret at 1.
    destruct (default true (conns st !! c0)); [| reflexivity].
    unfold bind at 1. rewrite open_connection_unfold.
    by destruct (env_db env (trace st) DbConnect).
  - unfold bind at 1. rewrite open_connection_unfold.
    by destruct (env_db env (trace st) DbConnect).
Qed.

(** After a [connect] that returned, the connector holds the returned
    connection and that connection is open. *)
Lemma connect_holds_open self env st c st1 :
  (self < length (connectors st))%nat ->
  SnowflakeConnector.connect self env st = (Ok c, st1) ->
  connection_of st1 self = Some c /\ closed_in st1 c = false /\
  (self < length (connectors st1))%nat.
Proof.
  intros Hself Hrun. rewrite connect_unfold in Hrun.
  assert (Hnew : forall st',
    (Ok (length (conns st)),
     set_connectors (<[self := Some (length (conns st))]> (connectors st))
       (set_conns (conns st ++ [false]) (add_event (EvDb DbConnect) st)))
    = (Ok c, st') ->
    connection_of st' self = Some c /\ closed_in st' c = false /\
    (self < length (connectors st'))%nat).
  { intros st' Heq. injection Heq as <- <-.
    unfold connection_of, closed_in. simpl.
    rewrite list_lookup_insert_eq by done.
    rewrite lookup_app_r, Nat.sub_diag by lia.
    by rewrite length_insert. }
  destruct (connection_of st self) as [c0|] eqn:Hconn.
  - destruct (closed_in st c0) eqn:Hclosed.
    + destruct (env_db env (trace st) DbConnect); [discriminate |]. by apply Hnew.
    + injection Hrun as <- <-. done.
  - destruct (env_db env (trace st) DbConnect); [discriminate |]. by apply Hnew.
Qed.

(** X1.  Once [connect] has returned a connection, calling [connect] again
    returns the same connection, makes no warehouse call and changes
    nothing. *)
Theorem connect_reuses_connection
    (self : nat) (env : environ) (st st1 : state) (c : nat) :
  (self < length (connectors st))%nat ->
  SnowflakeConnector.connect self env st = (Ok c, st1) ->
  SnowflakeConnector.connect self env st1 = (Ok c, st1).
Proof.
  intros Hself Hrun.
  destruct (connect_holds_open _ _ _ _ _ Hself Hrun) as (Hconn & Hopen & _).
  by rewrite connect_unfold, Hconn, Hopen.
Qed.

Lemma connect_reuses_connection_witness :
  SnowflakeConnector.connect 0 quiet_env connected = (Ok 0%nat, connected).
Proof.
  apply (connect_reuses_connection 0 quiet_env fresh_connector connected 0).
  - vm_compute. lia.
  - reflexivity.
Defined.

(** X2.  [connect], [close], [connect]: the first connection is closed, the
    connector holds a new, open connection, different from the first, and
    the warehouse saw exactly one close and one connect. *)
Theorem reconnect_after_close
    (self : nat) (env : environ) (st st1 st2 st3 : state) (c c' : nat) :
  (self < length (connectors st))%nat ->
  SnowflakeConnector.connect self env st = (Ok c, st1) ->
  SnowflakeConnector.close self env st1 = (Ok tt, st2) ->
  SnowflakeConnector.connect self env st2 = (Ok c', st3) ->
  c' <> c /\
  connection_of st2 self = None /\
  closed_in st3 c = true /\ closed_in st3 c' = false /\
  connection_of st3 self = Some c' /\
  trace st3 = trace st1 ++ [EvDb (DbClose c); EvDb DbConnect].
Proof.
  intros Hself Hc1 Hclose Hc2.
  destruct (connect_holds_open _ _ _ _ _ Hself Hc1) as (Hconn & Hopen & Hself1).
  rewrite (close_open _ _ _ _ Hconn Hopen) in Hclose.
  destruct (env_db env (trace st1) (DbClose c)); [discriminate |].
  injection Hclose as <-.
  assert (Hc : (c < length (conns st1))%nat).
  { unfold closed_in in Hopen.
    destruct (conns st1 !! c) eqn:Hl; [| discriminate].
    by eapply lookup_lt_Some. }
  rewrite connect_unfold in Hc2. unfold connection_of in Hc2 |- *.
  cbn [connectors set_connectors set_conns add_event add_events] in Hc2 |- *.
  rewrite list_lookup_insert_eq in Hc2 |- * by done.
  cbn [mjoin option_join] in Hc2. simpl in Hc2.
  destruct (env_db env _ DbConnect); [discriminate |].
  injection Hc2 as <- <-.
  rewrite length_insert. unfold closed_in. simpl.
  split; [lia |]. split; [done |]. split.
  - rewrite lookup_app_l by (rewrite length_insert; lia).
    by rewrite list_lookup_insert_eq.
  - split; [| split].
    + rewrite lookup_app_r by (rewrite length_insert; lia).
      by rewrite length_insert, Nat.sub_diag.
    + by rewrite list_lookup_insert_eq by (rewrite length_insert; lia).
    + by rewrite <- app_assoc.
Qed.

Lemma reconnect_after_close_witness :
  exists st2 st3,
    SnowflakeConnector.close 0 quiet_env connected = (Ok tt, st2) /\
    SnowflakeConnector.connect 0 quiet_env st2 = (Ok 1%nat, st3) /\
    closed_in st3 0 = true /\ closed_in st3 1 = false.
Proof.
  eexists _, _. split; [reflexivity |]. split; [reflexivity |].
  assert (H := reconnect_after_close 0 quiet_env fresh_connector connected
                 _ _ 0 1 ltac:(vm_compute; lia) eq_refl eq_refl eq_refl).
  destruct H as (_ & _ & H1 & H2 & _). by split.
Defined.

(** ** [SnowflakeConnector.execute_file], in any environment *)

Lemma execute_file_body_emits conn file_path :
  emits (fun _ => True)
    (content <- read_file file_path ;;
     for_each (split ";" content)
       (fun statement =>
          let statement := strip statement in
          if nonempty statement
          then db_op (DbExecute conn (SqlText statement)) ;;; ret tt
          else ret tt) ;;;
     db_op (DbCommit conn) ;;; ret tt).
Proof.
  apply emits_bind; [by apply emits_read_file |]. intros content.
  apply emits_bind; [| intros _; emits_auto].
  apply emits_for_each. intros statement. cbv beta zeta.
  destruct (nonempty (strip statement)); emits_auto.
Qed.

(** X3.  Once [execute_file] has its cursor, it closes it on every exit:
    whatever the file system and the warehouse answer, whether the file
    cannot be read, a statement fails, the commit fails or all goes well, the
    last call made is [cursor.close()]. *)
Theorem execute_file_closes_cursor
    (self : nat) (file_path : string) (env : environ) (st st1 : state)
    (conn : nat) (rows : list row) :
  SnowflakeConnector.connect self env st = (Ok conn, st1) ->
  env_db env (trace st1) (DbCursor conn) = inr rows ->
  exists r st' evs,
    SnowflakeConnector.execute_file self file_path env st = (r, st') /\
    trace st'
    = trace st1 ++ [EvDb (DbCursor conn)] ++ evs ++ [EvDb (DbCursorClose conn)].
Proof.
  intros Hconn Hcur. unfold SnowflakeConnector.execute_file.
  unfold bind at 1. rewrite Hconn.
  unfold bind at 1. rewrite db_op_unfold, Hcur.
  unfold try_finally.
  match goal with |- context [match ?body env ?s with _ => _ end] =>
    destruct (body env s) as [r1 s2] eqn:Hbody
  end.
  destruct (execute_file_body_emits conn file_path _ _ _ _ Hbody)
    as (evs & Ht & _).
  unfold bind. rewrite db_op_unfold.
  destruct (env_db env (trace s2) (DbCursorClose conn)) as [e | rows'].
  - exists (Raise e), (add_event (EvDb (DbCursorClose conn)) s2), evs.
    split; [reflexivity |]. simpl. rewrite Ht. simpl.
    by rewrite <- !app_assoc.
  - exists r1, (add_event (EvDb (DbCursorClose conn)) s2), evs.
    split; [reflexivity |]. simpl. rewrite Ht. simpl.
    by rewrite <- !app_assoc.
Qed.

Lemma execute_file_closes_cursor_witness :
  exists r st' evs,
    SnowflakeConnector.execute_file 0 "missing.sql" no_file_env fresh_connector
    = (r, st') /\
    trace st'
    = trace (SnowflakeConnector.connect 0 no_file_env fresh_connector).2
      ++ [EvDb (DbCursor 0)] ++ evs ++ [EvDb (DbCursorClose 0)].
Proof.
  apply (execute_file_closes_cursor 0 "missing.sql" no_file_env fresh_connector
           _ 0 [] eq_refl eq_refl).
Defined.

(** *** The pieces of a file that are executed *)

Lemma split_pieces_have_no_separator sep s piece :
  In piece (split sep s) -> ~ In sep (list_ascii_of_string piece).
Proof.
  revert piece. induction s as [|c rest IH]; intros piece Hin.
  - destruct Hin as [<- | []]. simpl. tauto.
  - simpl in Hin. destruct (split sep rest) as [|field fields] eqn:Hsplit.
    + destruct Hin as [<- | []]. simpl. tauto.
    + destruct (Ascii.eqb_spec c sep) as [-> | Hne].
      * destruct Hin as [<- | Hin]; [simpl; tauto | by apply IH].
      * destruct Hin as [<- | Hin].
        -- simpl. intros [Heq | Hin]; [congruence |].
           by apply (IH field (or_introl eq_refl)).
        -- apply IH. by right.
Qed.

Lemma lstrip_keeps_characters c s :
  In c (list_ascii_of_string (lstrip s)) -> In c (list_ascii_of_string s).
Proof.
  induction s as [|d rest IH]; [done |]. simpl.
  destruct (is_space d); [right; by apply IH | done].
Qed.

Lemma rstrip_keeps_characters c s :
  In c (list_ascii_of_string (rstrip s)) -> In c (list_ascii_of_string s).
Proof.
  induction s as [|d rest IH]; [done |]. simpl.
  destruct (rstrip rest) as [|k kept].
  - destruct (is_space d); simpl; [tauto |]. intros [-> | []]. by left.
  - simpl in *. intros [-> | Hin]; [by left | right; by apply IH].
Qed.

Lemma rstrip_idempotent s : rstrip (rstrip s) = rstrip s.
Proof.
  induction s as [|d rest IH]; [done |]. simpl.
  destruct (rstrip rest) as [|k kept] eqn:Hr.
  - destruct (is_space d) eqn:Hd; [done |]. simpl. by rewrite Hd.
  - simpl in *. by rewrite IH.
Qed.

Lemma lstrip_idempotent s : lstrip (lstrip s) = lstrip s.
Proof.
  induction s as [|d rest IH]; [done |]. simpl.
  destruct (is_space d) eqn:Hd; [done |]. simpl. by rewrite Hd.
Qed.

(** Stripping on the right does not uncover white space on the left. *)
Lemma lstrip_rstrip_lstrip s : lstrip (rstrip (lstrip s)) = rstrip (lstrip s).
Proof.
  induction s as [|d rest IH]; [done |]. simpl.
  destruct (is_space d) eqn:Hd; [exact IH |]. simpl.
  destruct (rstrip rest) as [|k kept]; rewrite ?Hd; simpl; by rewrite ?Hd.
Qed.

Lemma strip_idempotent s : strip (strip s) = strip s.
Proof.
  unfold strip. by rewrite lstrip_rstrip_lstrip, rstrip_idempotent.
Qed.

(** X4.  Every statement [execute_file] sends to the warehouse is non-empty,
    has no white space at either end, and contains no semicolon: a statement
    whose text needs a semicolon (inside a string literal, say) is never sent
    whole. *)
Theorem executed_statements_are_clean (content s : string) :
  In s (SnowflakeConnector.statements content) ->
  s <> "" /\ strip s = s /\ ~ In ";"%char (list_ascii_of_string s).
Proof.
  unfold SnowflakeConnector.statements. intros Hin.
  apply filter_In in Hin as [Hin Hne].
  apply in_map_iff in Hin as (piece & <- & Hpiece).
  split; [| split].
  - unfold nonempty in Hne. intros Heq. rewrite Heq in Hne. discriminate.
  - apply strip_idempotent.
  - intros Hsemi. unfold strip in Hsemi.
    apply rstrip_keeps_characters, lstrip_keeps_characters in Hsemi.
    by apply (split_pieces_have_no_separator _ _ _ Hpiece).
Qed.

Lemma executed_statements_are_clean_witness :
  "-- comment" <> "" /\ strip "-- comment" = "-- comment"
  /\ ~ In ";"%char (list_ascii_of_string "-- comment").
Proof.
  apply (executed_statements_are_clean example_file "-- comment").
  vm_compute. tauto.
Defined.

(** ** [APIIngestion._fetch_api_data]: errors that are not retried, and
       retries that succeed *)

(** X5.  Only transport errors are retried.  With a positive
    [requests_per_second], when the request raises anything else,
    [_fetch_api_data] raises that error to its caller after a single
    request, without a retry delay. *)
Theorem fetch_does_not_retry_other_errors
    (self : APIIngestion.t) (ep : endpoint) (env : environ) (st : state)
    (e : exn) :
  valid_rate (requests_per_second_of self) ->
  sleeps_granted env ->
  0 < max_retries_of self ->
  is_request_exception e = false ->
  (forall h r, env_http env h r = inl e) ->
  exists st' sent,
    APIIngestion._fetch_api_data self ep env st = (Raise e, st') /\
    trace st'
    = trace st ++ [EvSleep (OneOver (requests_per_second_of self));
                   EvRequest (request_of ep sent)].
Proof.
  intros Hrps Hos Hpos Hcls Hhttp.
  destruct (get_auth_headers_spec self ep env st)
    as (headers & st1 & Hrun & (Ht & _) & _).
  rewrite (fetch_api_data_unfold _ _ _ _ _ _ Hrun).
  unfold APIIngestion.range.
  destruct (Z.to_nat (max_retries_of self)) as [|m] eqn:Hn; [lia |].
  cbn [seq map]. rewrite fetch_attempts_cons. unfold try_except.
  rewrite attempt_body_unfold by done. rewrite Hhttp, Hcls.
  eexists _, (default ∅ (dicts st1 !! headers)). split; [reflexivity |].
  simpl. by rewrite Ht.
Qed.

Lemma fetch_does_not_retry_other_errors_witness :
  exists st' sent,
    APIIngestion._fetch_api_data (default_api []) (users_endpoint None None)
      broken_env one_headers_dict
    = (Raise (Exn OtherError "Invalid header value"), st') /\
    trace st'
    = trace one_headers_dict
      ++ [EvSleep (OneOver 10);
          EvRequest (request_of (users_endpoint None None) sent)].
Proof.
  apply (fetch_does_not_retry_other_errors (default_api [])
           (users_endpoint None None) broken_env one_headers_dict
           (Exn OtherError "Invalid header value")).
  - split; reflexivity.
  - intros h d. reflexivity.
  - reflexivity.
  - reflexivity.
  - reflexivity.
Defined.

(** X6.  With [requests_per_second] set to 0 the rate-limit delay
    [1.0 / requests_per_second] cannot be computed: [_fetch_api_data] raises
    [ZeroDivisionError] before any request is sent and before any sleep. *)
Theorem fetch_with_zero_rate_raises
    (self : APIIngestion.t) (ep : endpoint) (env : environ) (st : state) :
  requests_per_second_of self = 0 ->
  0 < max_retries_of self ->
  exists st',
    APIIngestion._fetch_api_data self ep env st
    = (Raise (Exn ZeroDivisionError "float division by zero"), st') /\
    trace st' = trace st.
Proof.
  intros Hrps Hpos.
  destruct (get_auth_headers_spec self ep env st)
    as (headers & st1 & Hrun & (Ht & _) & _).
  rewrite (fetch_api_data_unfold _ _ _ _ _ _ Hrun).
  unfold APIIngestion.range.
  destruct (Z.to_nat (max_retries_of self)) as [|m] eqn:Hn; [lia |].
  cbn [seq map]. rewrite fetch_attempts_cons. unfold try_except.
  unfold attempt_body, APIIngestion.rate_limit_sleep.
  unfold requests_per_second_of in Hrps. rewrite Hrps. cbn.
  by exists st1.
Qed.

Lemma fetch_with_zero_rate_raises_witness :
  exists st',
    APIIngestion._fetch_api_data (limited_api 3 5 0 [])
      (users_endpoint None None) quiet_env one_headers_dict
    = (Raise (Exn ZeroDivisionError "float division by zero"), st') /\
    trace st' = trace one_headers_dict.
Proof.
  apply (fetch_with_zero_rate_raises (limited_api 3 5 0 [])
           (users_endpoint None None) quiet_env one_headers_dict);
    reflexivity.
Defined.

Lemma fetch_attempts_succeeds_after url method headers params rl n delay env
    (sent : gmap string string) (data : pyval) :
  valid_rate (default 10 (rl_requests_per_second rl)) ->
  sleepable delay -> sleeps_granted env ->
  let rps := default 10 (rl_requests_per_second rl) in
  let req := Request method url sent params 30 in
  forall k j m st,
    (j + m)%nat = Z.to_nat n ->
    (k < m)%nat ->
    default ∅ (dicts st !! headers) = sent ->
    (forall h r, (count_requests h < count_requests (trace st) + k)%nat ->
                 exists msg, env_http env h r = inl (Exn RequestException msg)) ->
    (forall h r, count_requests h = (count_requests (trace st) + k)%nat ->
                 env_http env h r = inr data) ->
    exists evs,
      APIIngestion.fetch_attempts url method headers params rl n delay
        (map Z.of_nat (seq j m)) env st
      = (Ok (Some (APIIngestion.normalize_response data)), add_events evs st) /\
      count_requests evs = S k /\
      retry_sleeps evs = repeat delay k.
Proof.
  intros Hrps Hdelay Hos rps req k.
  induction k as [|k IH]; intros j m st Hjm Hkm Hsent Hfail Hok.
  - destruct m as [|m]; [lia |].
    cbn [seq map]. rewrite fetch_attempts_cons. unfold try_except.
    rewrite attempt_body_unfold by done. rewrite Hsent.
    rewrite Hok.
    + eexists. split; [reflexivity |]. done.
    + rewrite count_requests_app. simpl. lia.
  - destruct m as [|m]; [lia |].
    cbn [seq map]. rewrite fetch_attempts_cons. unfold try_except.
    rewrite attempt_body_unfold by done. rewrite Hsent.
    destruct (Hfail (trace st ++ [EvSleep (OneOver rps)]) req) as [msg Hmsg].
    { rewrite count_requests_app. simpl. lia. }
    fold rps req. rewrite Hmsg. cbn [is_request_exception exn_cls].
    assert (Hlt : (Z.of_nat j <? n - 1) = true) by (apply Z.ltb_lt; lia).
    rewrite Hlt.
    unfold bind at 1, print, log_event. unfold bind at 1.
    rewrite (sleep_seconds_granted _ _ _ Hdelay Hos).
    match goal with |- context [APIIngestion.fetch_attempts _ _ _ _ _ _ _ _ env ?s] =>
      destruct (IH (S j) m s) as (evs & Hrun & Hcount & Hsleeps)
    end.
    + lia.
    + lia.
    + exact Hsent.
    + intros h r Hh. apply Hfail.
      simpl in Hh. rewrite !count_requests_app in Hh. simpl in Hh. lia.
    + intros h r Hh. apply Hok.
      simpl in Hh. rewrite !count_requests_app in Hh. simpl in Hh. lia.
    + rewrite Hrun. eexists. split; [f_equal; by merge_events |].
      rewrite !count_requests_app, !retry_sleeps_app, Hcount, Hsleeps.
      split; reflexivity.
Qed.

(** X7.  A retry can succeed.  With rate-limit settings [time.sleep]
    accepts, when the first [k] requests fail with a transport error and
    the next one is answered, with [k] smaller than [retry_attempts],
    [_fetch_api_data] returns the normalized answer after exactly [k + 1]
    requests and [k] retry delays; it sends no further request. *)
Theorem fetch_retries_until_success
    (self : APIIngestion.t) (ep : endpoint) (env : environ) (st : state)
    (k : nat) (data : pyval) :
  valid_rate (requests_per_second_of self) ->
  sleepable (retry_delay_of self) ->
  sleeps_granted env ->
  (k < Z.to_nat (max_retries_of self))%nat ->
  (forall h r, (count_requests h < count_requests (trace st) + k)%nat ->
               exists msg, env_http env h r = inl (Exn RequestException msg)) ->
  (forall h r, count_requests h = (count_requests (trace st) + k)%nat ->
               env_http env h r = inr data) ->
  exists st' evs,
    APIIngestion._fetch_api_data self ep env st
    = (Ok (Some (APIIngestion.normalize_response data)), st') /\
    trace st' = trace st ++ evs /\
    count_requests evs = S k /\
    retry_sleeps evs = repeat (retry_delay_of self) k.
Proof.
  intros Hrps Hdelay Hos Hk Hfail Hok.
  destruct (get_auth_headers_spec self ep env st)
    as (headers & st1 & Hrun & (Ht & _) & _).
  rewrite (fetch_api_data_unfold _ _ _ _ _ _ Hrun).
  destruct (fetch_attempts_succeeds_after (ep_url ep)
              (default "GET" (ep_method ep)) headers (default ∅ (ep_params ep))
              (rate_limit_of self) (max_retries_of self) (retry_delay_of self)
              env (default ∅ (dicts st1 !! headers)) data Hrps Hdelay Hos
              k 0%nat (Z.to_nat (max_retries_of self)) st1)
    as (evs & Hloop & Hcount & Hsleeps).
  - reflexivity.
  - exact Hk.
  - reflexivity.
  - rewrite Ht. exact Hfail.
  - rewrite Ht. exact Hok.
  - exists (add_events evs st1), evs. split; [exact Hloop |].
    split; [simpl; by rewrite Ht | by split].
Qed.

Lemma fetch_retries_until_success_witness :
  exists st' evs,
    APIIngestion._fetch_api_data (default_api []) (users_endpoint None None)
      recovering_env one_headers_dict
    = (Ok (Some (PList [PDict [("id", PInt 7)]])), st') /\
    trace st' = trace one_headers_dict ++ evs /\
    count_requests evs = 3%nat /\
    retry_sleeps evs = [5; 5].
Proof.
  apply (fetch_retries_until_success (default_api []) (users_endpoint None None)
           recovering_env one_headers_dict 2
           (PDict [("results", PList [PDict [("id", PInt 7)]])])).
  - split; reflexivity.
  - vm_compute. split; discriminate.
  - intros h d. reflexivity.
  - vm_compute. lia.
  - intros h r Hh. exists "Connection refused". simpl in *.
    destruct (Nat.ltb_spec (count_requests h) 2); [done | lia].
  - intros h r Hh. simpl in *.
    destruct (Nat.ltb_spec (count_requests h) 2); [lia | done].
Defined.

(** ** [APIIngestion._get_auth_headers]: where the token comes from *)

Lemma get_auth_headers_result self ep env st :
  exists headers st',
    APIIngestion._get_auth_headers self ep env st = (Ok headers, st') /\
    dicts st' !! headers
    = Some (auth_headers_value env ep (configured_headers st ep)).
Proof.
  unfold APIIngestion._get_auth_headers, configured_headers, auth_headers_value.
  destruct (ep_headers ep) as [ref|].
  - unfold bind at 1, ret at 1. unfold bind at 1, read_dict at 1.
    unfold bind at 1, get_state at 1, ret at 1.
    unfold bind at 1, alloc_dict at 1. unfold bind at 1.
    destruct (String.eqb (default "none" (ep_auth_type ep)) "bearer");
      [| destruct (String.eqb (default "none" (ep_auth_type ep)) "api_key")].
    + unfold bind at 1, getenv at 1, bind at 1, get_env at 1, ret at 1.
      unfold dict_setitem, ret; simpl.
      eexists _, _. split; [reflexivity |]. simpl. by rewrite alter_new_dict.
    + unfold bind at 1, getenv at 1, bind at 1, get_env at 1, ret at 1.
      unfold dict_setitem, ret; simpl.
      eexists _, _. split; [reflexivity |]. simpl. by rewrite alter_new_dict.
    + unfold ret; simpl.
      eexists _, _. split; [reflexivity |]. simpl.
      rewrite lookup_app_r by lia. by rewrite Nat.sub_diag.
  - unfold bind at 1, alloc_dict at 1. unfold bind at 1, read_dict at 1.
    unfold bind at 1, get_state at 1, ret at 1.
    unfold bind at 1, alloc_dict at 1. unfold bind at 1.
    assert (Hempty : default ∅ (dicts (set_dicts (dicts st ++ [∅]) st)
                                 !! length (dicts st)) = (∅ : gmap string string)).
    { simpl. rewrite lookup_app_r by lia. by rewrite Nat.sub_diag. }
    rewrite Hempty.
    destruct (String.eqb (default "none" (ep_auth_type ep)) "bearer");
      [| destruct (String.eqb (default "none" (ep_auth_type ep)) "api_key")].
    + unfold bind at 1, getenv at 1, bind at 1, get_env at 1, ret at 1.
      unfold dict_setitem, ret; simpl.
      eexists _, _. split; [reflexivity |]. cbn [dicts set_dicts].
      by rewrite alter_new_dict.
    + unfold bind at 1, getenv at 1, bind at 1, get_env at 1, ret at 1.
      unfold dict_setitem, ret; simpl.
      eexists _, _. split; [reflexivity |]. cbn [dicts set_dicts].
      by rewrite alter_new_dict.
    + unfold ret; simpl.
      eexists _, _. split; [reflexivity |]. cbn [dicts set_dicts].
      rewrite lookup_app_r by done. by rewrite Nat.sub_diag.
Qed.

(** X8.  Token resolution in [_get_auth_headers].  A non-empty environment
    variable wins over the configured token; an unset or empty variable
    falls back to the configured token; and an [auth_type] other than
    'bearer' and 'api_key' ('basic', 'none', absent, anything else) adds no
    header: the result is a plain copy of the configured headers. *)
Theorem auth_token_precedence
    (self : APIIngestion.t) (ep : endpoint) (env : environ) (st : state) :
  exists headers st' sent,
    APIIngestion._get_auth_headers self ep env st = (Ok headers, st') /\
    dicts st' !! headers = Some sent /\
    (forall t, ep_auth_type ep = Some "bearer" ->
       env_getenv env "API_BEARER_TOKEN" = Some t -> t <> "" ->
       sent = <["Authorization" := "Bearer " +:+ t]> (configured_headers st ep)) /\
    (forall t, ep_auth_type ep = Some "bearer" ->
       env_getenv env "API_BEARER_TOKEN" = None \/
       env_getenv env "API_BEARER_TOKEN" = Some "" ->
       ep_bearer_token ep = Some t ->
       sent = <["Authorization" := "Bearer " +:+ t]> (configured_headers st ep)) /\
    (forall k, ep_auth_type ep = Some "api_key" ->
       env_getenv env "API_KEY" = Some k -> k <> "" ->
       sent = <["X-API-Key" := k]> (configured_headers st ep)) /\
    (forall k, ep_auth_type ep = Some "api_key" ->
       env_getenv env "API_KEY" = None \/ env_getenv env "API_KEY" = Some "" ->
       ep_api_key ep = Some k ->
       sent = <["X-API-Key" := k]> (configured_headers st ep)) /\
    (default "none" (ep_auth_type ep) <> "bearer" ->
     default "none" (ep_auth_type ep) <> "api_key" ->
     sent = configured_headers st ep).
Proof.
  destruct (get_auth_headers_result self ep env st) as (headers & st' & Hrun & Hres).
  exists headers, st', (auth_headers_value env ep (configured_headers st ep)).
  split; [exact Hrun |]. split; [exact Hres |].
  unfold auth_headers_value.
  split; [| split; [| split; [| split]]].
  - intros t -> -> Ht. simpl. apply String.eqb_neq in Ht. by rewrite Ht.
  - intros t -> [-> | ->] ->; reflexivity.
  - intros k -> -> Hk. simpl. apply String.eqb_neq in Hk. by rewrite Hk.
  - intros k -> [-> | ->] ->; reflexivity.
  - intros Hb Hk. apply String.eqb_neq in Hb, Hk. by rewrite Hb, Hk.
Qed.

Lemma auth_token_precedence_witness :
  exists headers st',
    APIIngestion._get_auth_headers (default_api []) bearer_endpoint token_env
      one_headers_dict = (Ok headers, st') /\
    dicts st' !! headers
    = Some (<["Authorization" := "Bearer s3cr3t"]>
              (<["Accept" := "application/json"]> ∅))
  /\
  exists headers2 st2,
    APIIngestion._get_auth_headers (default_api []) bearer_endpoint quiet_env
      one_headers_dict = (Ok headers2, st2) /\
    dicts st2 !! headers2
    = Some (<["Authorization" := "Bearer from-config"]>
              (<["Accept" := "application/json"]> ∅)).
Proof.
  destruct (auth_token_precedence (default_api []) bearer_endpoint token_env
              one_headers_dict)
    as (h1 & s1 & sent1 & Hrun1 & Hres1 & Henv & _).
  destruct (auth_token_precedence (default_api []) bearer_endpoint quiet_env
              one_headers_dict)
    as (h2 & s2 & sent2 & Hrun2 & Hres2 & _ & Hcfg & _).
  exists h1, s1. split; [exact Hrun1 |]. split.
  - rewrite Hres1. f_equal.
    apply (Henv "s3cr3t"); [reflexivity | reflexivity | discriminate].
  - exists h2, s2. split; [exact Hrun2 |]. rewrite Hres2. f_equal.
    apply (Hcfg "from-config"); [reflexivity | by left | reflexivity].
Defined.

(** ** [APIIngestion._load_to_snowflake] *)

Lemma bind_ok_inv {A B} (m : M A) (k : A -> M B) env st b st' :
  bind m k env st = (Ok b, st') ->
  exists a st1, m env st = (Ok a, st1) /\ k a env st1 = (Ok b, st').
Proof.
  unfold bind. destruct (m env st) as [[a | e] st1]; [| discriminate].
  intros H. by exists a, st1.
Qed.

Lemma db_op_ok_inv c env st rows st' :
  db_op c env st = (Ok rows, st') -> st' = add_event (EvDb c) st.
Proof.
  rewrite db_op_unfold. destruct (env_db env (trace st) c); [discriminate |].
  by intros [= _ <-].
Qed.

Lemma connect_trace self env st r st' :
  SnowflakeConnector.connect self env st = (r, st') ->
  trace st' = trace st \/ trace st' = trace st ++ [EvDb DbConnect].
Proof.
  rewrite connect_unfold.
  destruct (connection_of st self) as [c0|]; [destruct (closed_in st c0) |];
    try (destruct (env_db env (trace st) DbConnect));
    intros [= <- <-]; simpl; auto.
Qed.

Lemma insert_rows_cons env conn table stamp run_id row df st :
  insert_rows env conn table stamp run_id (row :: df) env st =
  match env_json_dumps env row with
  | inl e => (Raise e, st)
  | inr payload =>
      match env_db env (trace st)
              (DbExecute conn (SqlInsertRow table payload stamp run_id "API")) with
      | inl e => (Raise e, add_event (insert_event conn table stamp run_id payload) st)
      | inr _ =>
          insert_rows env conn table stamp run_id df env
            (add_event (insert_event conn table stamp run_id payload) st)
      end
  end.
Proof.
  unfold insert_rows; simpl. unfold bind at 1, bind at 1.
  destruct (env_json_dumps env row) as [e | payload]; [reflexivity |].
  simpl. unfold bind at 1. rewrite db_op_unfold.
  by destruct (env_db env (trace st) _).
Qed.



Lemma commits_app evs1 evs2 : commits (evs1 ++ evs2) = (commits evs1 + commits evs2)%nat.
Proof.
  induction evs1 as [|e evs1 IH]; [done |].
  destruct e as [| | |[]| |]; simpl; by rewrite ?IH.
Qed.




Lemma insert_rows_first_failure env conn table stamp run_id good bad rest e st :
  warehouse_up env ->
  (forall row, In row good -> exists p, env_json_dumps env row = inr p) ->
  env_json_dumps env bad = inl e ->
  insert_rows env conn table stamp run_id (good ++ bad :: rest) env st
  = (Raise e,
     add_events
       (map (fun row => insert_event conn table stamp run_id (payload_of env row))
          good) st).
Proof.
  intros Hup Hgood Hbad. revert st.
  induction good as [|row good IH]; intros st.
  - simpl. rewrite insert_rows_cons, Hbad. by rewrite add_events_nil.
  - simpl. rewrite insert_rows_cons.
    destruct (Hgood row (or_introl eq_refl)) as [p Hp].
    unfold payload_of at 1. rewrite Hp.
    destruct (Hup (DbExecute conn (SqlInsertRow table p stamp run_id "API"))
                (trace st)) as [rows ->].
    rewrite IH by (intros r Hr; apply Hgood; by right).
    by rewrite add_event_events.
Qed.

(** X10.  One row that cannot be serialized aborts the batch: the rows
    before it have been inserted, the rows after it are not, [commit] is
    never called and [_load_to_snowflake] returns [False]. *)
Theorem load_bad_row_aborts_batch
    (self : APIIngestion.t) (data : pyval) (target_table run_id : string)
    (env : environ) (st : state) (good : list pyval) (bad : pyval)
    (rest : list pyval) (e : exn) :
  truthy data = true ->
  warehouse_up env ->
  (forall stamp, env_dataframe env data stamp run_id = inr (good ++ bad :: rest)) ->
  (forall row, In row good -> exists p, env_json_dumps env row = inr p) ->
  env_json_dumps env bad = inl e ->
  exists st' evs stamp,
    APIIngestion._load_to_snowflake self data target_table run_id env st
    = (Ok false, st') /\
    trace st' = trace st ++ evs /\
    executed evs
    = SqlCreateTable target_table
      :: map (fun row =>
                SqlInsertRow target_table (payload_of env row) stamp run_id "API")
           good /\
    commits evs = 0%nat.
Proof.
  intros Htruthy Hup Hframe Hgood Hbad.
  unfold APIIngestion._load_to_snowflake. rewrite Htruthy. cbn [negb].
  unfold try_except.
  destruct (completes_connect env (APIIngestion.snowflake self) (Hup DbConnect) st)
    as (conn & s1 & evs1 & Hconn & _ & Ht1 & _).
  assert (Hevs1 : commits evs1 = 0%nat /\ executed evs1 = []).
  { destruct (connect_trace _ _ _ _ _ Hconn) as [Ht | Ht]; rewrite Ht in Ht1.
    - rewrite <- (app_nil_r (trace st)) in Ht1 at 1.
      apply app_inv_head in Ht1 as <-. done.
    - apply app_inv_head in Ht1 as <-. done. }
  destruct Hevs1 as [Hc1 He1].
  unfold bind at 1. rewrite Hconn.
  unfold bind at 1. rewrite db_op_unfold.
  destruct (Hup (DbCursor conn) (trace s1)) as [r1 ->].
  unfold bind at 1, get_env at 1.
  unfold bind at 1, now_strftime at 1, bind at 1, get_env at 1, bind at 1,
    get_state at 1, ret at 1.
  set (s2 := add_event (EvDb (DbCursor conn)) s1).
  set (stamp := env_now env (trace s2)).
  unfold bind at 1. rewrite Hframe. unfold of_sum at 1, ret at 1.
  unfold bind at 1. rewrite db_op_unfold.
  destruct (Hup (DbExecute conn (SqlCreateTable target_table)) (trace s2))
    as [r2 ->].
  unfold bind at 1.
  fold (insert_rows env conn target_table stamp run_id (good ++ bad :: rest)).
  rewrite (insert_rows_first_failure _ _ _ _ _ _ _ _ e _ Hup Hgood Hbad).
  cbn [any_exception]. unfold bind, print, log_event, ret.
  eexists _, _, stamp. split; [reflexivity |]. split.
  { subst s2. simpl. rewrite Ht1, <- !app_assoc. reflexivity. }
  rewrite !executed_app, !commits_app, He1, Hc1. simpl.
  rewrite ?executed_app, ?commits_app. simpl.
  rewrite ?app_nil_r, ?Nat.add_0_r.
  split.
  - f_equal. clear. induction good as [|row good IH]; [done |].
    simpl. by rewrite IH.
  - clear. induction good as [|row good IH]; [done |]. simpl. exact IH.
Qed.

Lemma load_bad_row_aborts_batch_witness :
  exists st' evs,
    APIIngestion._load_to_snowflake (default_api [])
      (PList [PDict [("a", PInt 1)]; PDict [("b", PInt 2)]])
      "RAW.API_USERS" "API_users_1" serving_env ingestion_ready
    = (Ok false, st') /\
    trace st' = trace ingestion_ready ++ evs /\
    executed evs = [SqlCreateTable "RAW.API_USERS"] /\
    commits evs = 0%nat.
Proof.
  destruct (load_bad_row_aborts_batch (default_api [])
              (PList [PDict [("a", PInt 1)]; PDict [("b", PInt 2)]])
              "RAW.API_USERS" "API_users_1" serving_env ingestion_ready
              [] (PDict [("a", PInt 1)]) [PDict [("b", PInt 2)]]
              (Exn TypeError "Object of type Timestamp is not JSON serializable"))
    as (st' & evs & stamp & Hrun & Ht & Hexec & Hcommits).
  - reflexivity.
  - intros c h. by eexists.
  - reflexivity.
  - intros row [].
  - reflexivity.
  - exists st', evs. split; [exact Hrun |]. split; [exact Ht |].
    split; [exact Hexec | exact Hcommits].
Defined.

(** ** [APIIngestion.ingest_endpoint] and [ingest_all_endpoints] *)

Lemma fetch_first_attempt_ok self ep env st data :
  valid_rate (requests_per_second_of self) ->
  sleeps_granted env ->
  0 < max_retries_of self ->
  (forall h r, env_http env h r = inr data) ->
  exists st' sent,
    APIIngestion._fetch_api_data self ep env st
    = (Ok (Some (APIIngestion.normalize_response data)), st') /\
    trace st'
    = trace st ++ [EvSleep (OneOver (requests_per_second_of self));
                   EvRequest (request_of ep sent)].
Proof.
  intros Hrps Hos Hpos Hdata.
  destruct (get_auth_headers_spec self ep env st)
    as (headers & st1 & Hrun & (Ht & _) & _).
  rewrite (fetch_api_data_unfold _ _ _ _ _ _ Hrun).
  unfold APIIngestion.range.
  destruct (Z.to_nat (max_retries_of self)) as [|m] eqn:Hn; [lia |].
  cbn [seq map]. rewrite fetch_attempts_cons. unfold try_except.
  rewrite attempt_body_unfold by done. rewrite Hdata.
  eexists _, (default ∅ (dicts st1 !! headers)). split; [reflexivity |].
  simpl. by rewrite Ht.
Qed.

(** X11.  An empty result set counts as a failure.  With a positive
    [requests_per_second], when the server answers an enabled endpoint with
    a body that normalizes to the empty list (an empty array, or an empty
    'data' or 'results' list), [ingest_endpoint] returns [False], and it
    does so without any warehouse call: nothing follows the request but the
    line 'No data to load'. *)
Theorem ingest_endpoint_empty_result_fails
    (self : APIIngestion.t) (endpoint_name : string) (ep : endpoint)
    (env : environ) (st : state) (data : pyval) :
  List.find (APIIngestion.selects endpoint_name)
    (default [] (ac_endpoints (APIIngestion.api_config_ self))) = Some ep ->
  valid_rate (requests_per_second_of self) ->
  sleeps_granted env ->
  0 < max_retries_of self ->
  (forall h r, env_http env h r = inr data) ->
  APIIngestion.normalize_response data = PList [] ->
  exists st' sent,
    APIIngestion.ingest_endpoint self endpoint_name env st = (Ok false, st') /\
    trace st'
    = trace st
      ++ [EvPrint ("Ingesting data from " +:+ endpoint_name +:+ "...");
          EvSleep (OneOver (requests_per_second_of self));
          EvRequest (request_of ep sent);
          EvPrint "No data to load"].
Proof.
  intros Hfind Hrps Hos Hpos Hdata Hempty.
  unfold APIIngestion.ingest_endpoint. rewrite Hfind.
  unfold bind at 1, print at 1, log_event.
  unfold bind at 1, now_strftime at 1, bind at 1, get_env at 1, bind at 1,
    get_state at 1, ret at 1.
  unfold bind at 1.
  match goal with |- context [APIIngestion._fetch_api_data self ep env ?s] =>
    destruct (fetch_first_attempt_ok self ep env s data Hrps Hos Hpos Hdata)
      as (st1 & sent & Hrun & Ht)
  end.
  rewrite Hrun, Hempty.
  unfold APIIngestion._load_to_snowflake. cbn [truthy negb].
  unfold bind, print, log_event, ret.
  eexists _, sent. split; [reflexivity |].
  simpl. rewrite Ht. simpl. by rewrite <- !app_assoc.
Qed.

Lemma ingest_endpoint_empty_result_fails_witness :
  exists st' sent,
    APIIngestion.ingest_endpoint (default_api [users_endpoint None None])
      "users" quiet_env ingestion_ready = (Ok false, st') /\
    trace st'
    = trace ingestion_ready
      ++ [EvPrint "Ingesting data from users...";
          EvSleep (OneOver 10);
          EvRequest (request_of (users_endpoint None None) sent);
          EvPrint "No data to load"].
Proof.
  apply (ingest_endpoint_empty_result_fails
           (default_api [users_endpoint None None]) "users"
           (users_endpoint None None) quiet_env ingestion_ready (PList []));
    try reflexivity.
  - split; reflexivity.
  - intros h d. reflexivity.
Defined.

Lemma ingest_each_keys self endpoints acc env st results st' :
  APIIngestion.ingest_each self endpoints acc env st = (Ok results, st') ->
  forall name,
    is_Some (results !! name) <->
    is_Some (acc !! name) \/
    exists ep, In ep endpoints /\ ep_name ep = name /\
               default true (ep_enabled ep) = true.
Proof.
  revert acc st. induction endpoints as [|ep endpoints IH]; intros acc st Hrun name.
  - injection Hrun as <- <-. split; [by left |].
    intros [H | (ep & [] & _)]. exact H.
  - simpl in Hrun. destruct (default true (ep_enabled ep)) eqn:Hen.
    + apply bind_ok_inv in Hrun as (ok & s1 & _ & Hrun).
      rewrite (IH _ _ Hrun name). rewrite lookup_insert_is_Some. split.
      * intros [[Heq | [_ Hacc]] | (ep' & Hin & Hname & Hen')].
        -- right. exists ep. split; [by left | by split].
        -- by left.
        -- right. exists ep'. split; [by right | by split].
      * intros [Hacc | (ep' & [<- | Hin] & Hname & Hen')].
        -- destruct (decide (ep_name ep = name)); [left; by left |].
           left. right. by split.
        -- left. by left.
        -- right. by exists ep'.
    + rewrite (IH _ _ Hrun name). split.
      * intros [Hacc | (ep' & Hin & Hname & Hen')]; [by left |].
        right. exists ep'. split; [by right | by split].
      * intros [Hacc | (ep' & [<- | Hin] & Hname & Hen')]; [by left | | ].
        -- rewrite Hen in Hen'. discriminate.
        -- right. by exists ep'.
Qed.

(** X12.  When [ingest_all_endpoints] returns, its result has one entry per
    name of an enabled endpoint and no other entry: a disabled endpoint is
    skipped, and an endpoint that failed is still reported. *)
Theorem ingest_all_endpoints_keys
    (self : APIIngestion.t) (env : environ) (st : state)
    (results : gmap string bool) (st' : state) :
  APIIngestion.ingest_all_endpoints self env st = (Ok results, st') ->
  forall name,
    is_Some (results !! name) <->
    exists ep,
      In ep (default [] (ac_endpoints (APIIngestion.api_config_ self))) /\
      ep_name ep = name /\ default true (ep_enabled ep) = true.
Proof.
  intros Hrun name. unfold APIIngestion.ingest_all_endpoints in Hrun.
  rewrite (ingest_each_keys _ _ _ _ _ _ _ Hrun name). split.
  - intros [H | H]; [| exact H]. rewrite lookup_empty in H. by destruct H.
  - intros H. by right.
Qed.

Lemma ingest_all_endpoints_keys_witness :
  let results :=
    (APIIngestion.ingest_all_endpoints
       (default_api [users_endpoint None None; orders_endpoint])
       down_env ingestion_ready).1 in
  results = Ok (<["users" := false]> ∅) /\
  (is_Some ((<["users" := false]> (∅ : gmap string bool)) !! "orders") <->
   exists ep,
     In ep [users_endpoint None None; orders_endpoint] /\
     ep_name ep = "orders" /\ default true (ep_enabled ep) = true).
Proof.
  split; [vm_compute; reflexivity |].
  apply (ingest_all_endpoints_keys
           (default_api [users_endpoint None None; orders_endpoint])
           down_env ingestion_ready (<["users" := false]> ∅)
           (APIIngestion.ingest_all_endpoints
              (default_api [users_endpoint None None; orders_endpoint])
              down_env ingestion_ready).2).
  vm_compute. reflexivity.
Defined.

(** ** The stages of the orchestrator *)

Lemma log_pipeline_start_ok_inv self name env st st' :
  PipelineOrchestrator.log_pipeline_start self name env st = (Ok tt, st') ->
  exists evs,
    trace st' = trace st ++ evs /\
    executed evs = [SqlInsertPipelineLog name (PipelineOrchestrator.run_id self)] /\
    commits evs = 1%nat.
Proof.
  intros Hrun. unfold PipelineOrchestrator.log_pipeline_start in Hrun.
  apply bind_ok_inv in Hrun as (conn & s1 & Hconn & Hrun).
  apply bind_ok_inv in Hrun as (r1 & s2 & H1 & Hrun).
  apply db_op_ok_inv in H1 as ->.
  apply bind_ok_inv in Hrun as (r2 & s3 & H2 & Hrun).
  apply db_op_ok_inv in H2 as ->.
  apply bind_ok_inv in Hrun as (r3 & s4 & H3 & Hrun).
  apply db_op_ok_inv in H3 as ->.
  apply bind_ok_inv in Hrun as (r4 & s5 & H4 & Hrun).
  apply db_op_ok_inv in H4 as ->.
  injection Hrun as <-.
  destruct (connect_trace _ _ _ _ _ Hconn) as [Ht | Ht];
    eexists; (split; [simpl; rewrite Ht, <- ?app_assoc; reflexivity |]); done.
Qed.

Lemma log_pipeline_end_ok_inv self name status rp rf msg env st st' :
  PipelineOrchestrator.log_pipeline_end self name status rp rf msg env st
  = (Ok tt, st') ->
  exists evs,
    trace st' = trace st ++ evs /\
    executed evs
    = [SqlUpdatePipelineLog name status rp rf
         (PipelineOrchestrator.error_message_sql msg)
         (PipelineOrchestrator.run_id self)] /\
    commits evs = 1%nat.
Proof.
  intros Hrun. unfold PipelineOrchestrator.log_pipeline_end in Hrun.
  apply bind_ok_inv in Hrun as (conn & s1 & Hconn & Hrun).
  apply bind_ok_inv in Hrun as (r1 & s2 & H1 & Hrun).
  apply db_op_ok_inv in H1 as ->.
  apply bind_ok_inv in Hrun as (r2 & s3 & H2 & Hrun).
  apply db_op_ok_inv in H2 as ->.
  apply bind_ok_inv in Hrun as (r3 & s4 & H3 & Hrun).
  apply db_op_ok_inv in H3 as ->.
  apply bind_ok_inv in Hrun as (r4 & s5 & H4 & Hrun).
  apply db_op_ok_inv in H4 as ->.
  injection Hrun as <-.
  destruct (connect_trace _ _ _ _ _ Hconn) as [Ht | Ht];
    eexists; (split; [simpl; rewrite Ht, <- ?app_assoc; reflexivity |]); done.
Qed.

(** A stage: the start log, then the try block, whose errors are logged as
    FAILED.  When the try block only returns after an end-log update that
    matches its result, so does the stage. *)
Lemma stage_result_logged (self : PipelineOrchestrator.t) (name : string)
    (body : M bool) :
  emits (fun _ => True) body ->
  (forall env st ok st',
     body env st = (Ok ok, st') ->
     exists evs,
       trace st' = trace st ++ evs /\
       ends_with_end_log (PipelineOrchestrator.run_id self) name ok (executed evs)) ->
  forall env st ok st',
    (PipelineOrchestrator.log_pipeline_start self name ;;;
     try_except body any_exception
       (fun e =>
          PipelineOrchestrator.log_pipeline_end self name "FAILED" 0 0
            (Some (str_exn e)) ;;;
          ret false)) env st = (Ok ok, st') ->
    exists evs,
      trace st' = trace st ++ evs /\
      ends_with_end_log (PipelineOrchestrator.run_id self) name ok (executed evs).
Proof.
  intros Hemits Hbody env st ok st' Hrun.
  apply bind_ok_inv in Hrun as ([] & s1 & Hstart & Hrun).
  destruct (log_pipeline_start_emits _ _ _ _ _ _ Hstart) as (evs0 & Ht0 & _).
  unfold try_except in Hrun.
  destruct (body env s1) as [[b | e] s2] eqn:Hb.
  - injection Hrun as <- <-.
    destruct (Hbody _ _ _ _ Hb) as (evs1 & Ht1 & before & message & Hlast).
    exists (evs0 ++ evs1). split; [by rewrite Ht1, Ht0, app_assoc |].
    exists (executed evs0 ++ before), message.
    by rewrite executed_app, Hlast, app_assoc.
  - cbn [any_exception] in Hrun.
    destruct (Hemits _ _ _ _ Hb) as (evs1 & Ht1 & _).
    apply bind_ok_inv in Hrun as ([] & s3 & Hend & Hrun).
    injection Hrun as <- <-.
    destruct (log_pipeline_end_ok_inv _ _ _ _ _ _ _ _ _ Hend)
      as (evs2 & Ht2 & He2 & _).
    exists (evs0 ++ evs1 ++ evs2). split.
    + by rewrite Ht2, Ht1, Ht0, <- !app_assoc.
    + eexists (executed evs0 ++ executed evs1), _.
      by rewrite !executed_app, He2, <- !app_assoc.
Qed.

Lemma emits_anything {A} (P : event -> Prop) (m : M A) :
  emits P m -> emits (fun _ => True) m.
Proof. apply emits_weaken. done. Qed.

Lemma run_ingestion_body_logged self env st ok st' :
  PipelineOrchestrator.run_ingestion_body self env st = (Ok ok, st') ->
  exists evs,
    trace st' = trace st ++ evs /\
    ends_with_end_log (PipelineOrchestrator.run_id self) "INGESTION" ok
      (executed evs).
Proof.
  intros Hrun. unfold PipelineOrchestrator.run_ingestion_body in Hrun.
  apply bind_ok_inv in Hrun as (api & s1 & Hinit & Hrun).
  destruct (api_init_emits _ _ _ _ _ Hinit) as (evs1 & Ht1 & _).
  apply bind_ok_inv in Hrun as (results & s2 & Hall & Hrun).
  destruct (ingest_all_endpoints_emits _ _ _ _ _ Hall) as (evs2 & Ht2 & _).
  apply bind_ok_inv in Hrun as ([] & s3 & Hend & Hrun).
  injection Hrun as <- <-.
  destruct (log_pipeline_end_ok_inv _ _ _ _ _ _ _ _ _ Hend)
    as (evs3 & Ht3 & He3 & _).
  exists (evs1 ++ evs2 ++ evs3). split.
  - by rewrite Ht3, Ht2, Ht1, <- !app_assoc.
  - eexists (executed evs1 ++ executed evs2), _.
    rewrite !executed_app, He3, <- !app_assoc. reflexivity.
Qed.

Lemma run_transformation_body_ok_inv self env st ok st' :
  PipelineOrchestrator.run_transformation_body self env st = (Ok ok, st') ->
  ok = true /\
  exists evs,
    trace st' = trace st ++ evs /\
    executed evs
    = [SqlCallCleanRawData (PipelineOrchestrator.run_id self);
       SqlCallRemoveDuplicates (PipelineOrchestrator.run_id self);
       SqlCallApplyBusinessTransforms (PipelineOrchestrator.run_id self);
       SqlUpdatePipelineLog "TRANSFORMATION" "SUCCESS" 0 0 "NULL"
         (PipelineOrchestrator.run_id self)] /\
    commits evs = 2%nat.
Proof.
  intros Hrun. unfold PipelineOrchestrator.run_transformation_body in Hrun.
  apply bind_ok_inv in Hrun as (conn & s1 & Hconn & Hrun).
  apply bind_ok_inv in Hrun as (r1 & s2 & H1 & Hrun).
  apply db_op_ok_inv in H1 as ->.
  apply bind_ok_inv in Hrun as (r2 & s3 & H2 & Hrun).
  apply db_op_ok_inv in H2 as ->.
  apply bind_ok_inv in Hrun as (r3 & s4 & H3 & Hrun).
  apply db_op_ok_inv in H3 as ->.
  apply bind_ok_inv in Hrun as (r4 & s5 & H4 & Hrun).
  apply db_op_ok_inv in H4 as ->.
  apply bind_ok_inv in Hrun as (r5 & s6 & H5 & Hrun).
  apply db_op_ok_inv in H5 as ->.
  apply bind_ok_inv in Hrun as (r6 & s7 & H6 & Hrun).
  apply db_op_ok_inv in H6 as ->.
  apply bind_ok_inv in Hrun as ([] & s8 & Hend & Hrun).
  injection Hrun as <- <-. split; [done |].
  destruct (log_pipeline_end_ok_inv _ _ _ _ _ _ _ _ _ Hend)
    as (evs3 & Ht3 & He3 & Hc3).
  destruct (connect_trace _ _ _ _ _ Hconn) as [Ht | Ht];
    eexists; (split; [rewrite Ht3; simpl; rewrite Ht, <- ?app_assoc; reflexivity |]);
    simpl; rewrite ?executed_app, ?commits_app, He3, Hc3; done.
Qed.

Lemma run_validation_body_logged self env st ok st' :
  PipelineOrchestrator.run_validation_body self env st = (Ok ok, st') ->
  exists evs,
    trace st' = trace st ++ evs /\
    ends_with_end_log (PipelineOrchestrator.run_id self) "VALIDATION" ok
      (executed evs).
Proof.
  intros Hrun. unfold PipelineOrchestrator.run_validation_body in Hrun.
  apply bind_ok_inv in Hrun as (conn & s1 & Hconn & Hrun).
  destruct (connect_emits _ _ _ _ _ Hconn) as (evs1 & Ht1 & _).
  apply bind_ok_inv in Hrun as (r1 & s2 & H1 & Hrun).
  apply db_op_ok_inv in H1 as ->.
  apply bind_ok_inv in Hrun as (r2 & s3 & H2 & Hrun).
  apply db_op_ok_inv in H2 as ->.
  apply bind_ok_inv in Hrun as (r3 & s4 & H3 & Hrun).
  apply db_op_ok_inv in H3 as ->.
  apply bind_ok_inv in Hrun as (rows & s5 & H4 & Hrun).
  apply db_op_ok_inv in H4 as ->.
  apply bind_ok_inv in Hrun as (r5 & s6 & H5 & Hrun).
  apply db_op_ok_inv in H5 as ->.
  apply bind_ok_inv in Hrun as (positive & s7 & Hpos & Hrun).
  assert (s7 = add_event (EvDb (DbCursorClose conn))
                 (add_event (EvDb (DbFetchone conn))
                    (add_event (EvDb (DbExecute conn
                        (SqlCountFailedChecks (PipelineOrchestrator.run_id self))))
                       (add_event (EvDb (DbExecute conn
                           (SqlCallRunAllValidations (PipelineOrchestrator.run_id self))))
                          (add_event (EvDb (DbCursor conn)) s1))))) as ->.
  { unfold PipelineOrchestrator.gt_zero in Hpos.
    destruct (match head rows with Some (first :: _) => first | _ => CInt 0 end);
      try discriminate. by injection Hpos. }
  apply bind_ok_inv in Hrun as ([] & s8 & Hend & Hrun).
  injection Hrun as <- <-.
  destruct (log_pipeline_end_ok_inv _ _ _ _ _ _ _ _ _ Hend)
    as (evs3 & Ht3 & He3 & _).
  eexists. split.
  { rewrite Ht3. simpl. rewrite Ht1, <- !app_assoc. reflexivity. }
  rewrite !executed_app, He3. simpl.
  exists (executed evs1
          ++ [SqlCallRunAllValidations (PipelineOrchestrator.run_id self);
              SqlCountFailedChecks (PipelineOrchestrator.run_id self)]).
  eexists. rewrite <- !app_assoc. simpl.
  by destruct (PipelineOrchestrator.eq_zero _).
Qed.

(** X13.  The boolean a stage returns agrees with the log: whenever
    [run_ingestion], [run_transformation] or [run_validation] returns, the
    last statement it executed is its own end-log update, with status
    SUCCESS when it returns [True] and FAILED when it returns [False]. *)
Theorem stage_result_matches_log
    (self : PipelineOrchestrator.t) (env : environ) (st : state)
    (ok : bool) (st' : state) :
  let rid := PipelineOrchestrator.run_id self in
  (PipelineOrchestrator.run_ingestion self env st = (Ok ok, st') ->
   exists evs, trace st' = trace st ++ evs /\
               ends_with_end_log rid "INGESTION" ok (executed evs))
  /\
  (PipelineOrchestrator.run_transformation self env st = (Ok ok, st') ->
   exists evs, trace st' = trace st ++ evs /\
               ends_with_end_log rid "TRANSFORMATION" ok (executed evs))
  /\
  (PipelineOrchestrator.run_validation self env st = (Ok ok, st') ->
   exists evs, trace st' = trace st ++ evs /\
               ends_with_end_log rid "VALIDATION" ok (executed evs)).
Proof.
  intros rid. split; [| split].
  - apply (stage_result_logged self "INGESTION").
    + intros env' s r s' Hrun.
      unfold PipelineOrchestrator.run_ingestion_body in Hrun.
      revert env' s r s' Hrun.
      change (emits (fun _ => True)
                (api_ingestion <- APIIngestion.init "config/config.yaml" ;;
                 api_results <- APIIngestion.ingest_all_endpoints api_ingestion ;;
                 PipelineOrchestrator.log_pipeline_end self "INGESTION"
                   (if PipelineOrchestrator.all_values api_results
                    then "SUCCESS" else "FAILED") 0 0 None ;;;
                 ret (PipelineOrchestrator.all_values api_results))).
      apply emits_bind; [eapply emits_anything, api_init_emits |]. intros api.
      apply emits_bind; [eapply emits_anything, ingest_all_endpoints_emits |].
      intros results.
      apply emits_bind; [eapply emits_anything, log_pipeline_end_emits |].
      intros _. apply emits_ret.
    + apply run_ingestion_body_logged.
  - apply (stage_result_logged self "TRANSFORMATION").
    + unfold PipelineOrchestrator.run_transformation_body.
      apply emits_bind; [eapply emits_anything, connect_emits |]. intros conn.
      do 6 (apply emits_bind; [by apply emits_db_op |]; intros _).
      apply emits_bind; [eapply emits_anything, log_pipeline_end_emits |].
      intros _. apply emits_ret.
    + intros env' s r s' Hrun.
      destruct (run_transformation_body_ok_inv _ _ _ _ _ Hrun)
        as (-> & evs & Ht & He & _).
      exists evs. split; [done |]. rewrite He.
      by exists [SqlCallCleanRawData rid; SqlCallRemoveDuplicates rid;
                 SqlCallApplyBusinessTransforms rid], "NULL".
  - apply (stage_result_logged self "VALIDATION").
    + unfold PipelineOrchestrator.run_validation_body.
      apply emits_bind; [eapply emits_anything, connect_emits |]. intros conn.
      do 3 (apply emits_bind; [by apply emits_db_op |]; intros _).
      apply emits_bind; [by apply emits_db_op |]. intros rows.
      apply emits_bind; [by apply emits_db_op |]. intros _.
      apply emits_bind.
      { unfold PipelineOrchestrator.gt_zero. emits_auto. }
      intros positive.
      apply emits_bind; [eapply emits_anything, log_pipeline_end_emits |].
      intros _. apply emits_ret.
    + apply run_validation_body_logged.
Qed.

Lemma stage_result_matches_log_witness :
  exists evs,
    trace (PipelineOrchestrator.run_validation quiet_orchestrator
             three_failed_env after_init).2
    = trace after_init ++ evs /\
    ends_with_end_log "RUN_20240101_000000_123e4567" "VALIDATION" false
      (executed evs).
Proof.
  apply (proj2 (proj2 (stage_result_matches_log quiet_orchestrator
                         three_failed_env after_init false
                         (PipelineOrchestrator.run_validation quiet_orchestrator
                            three_failed_env after_init).2))).
  vm_compute. reflexivity.
Defined.

(** X14.  [run_transformation] returns [True] only when everything went
    through: the start-log insert, then CLEAN_RAW_DATA, REMOVE_DUPLICATES and
    APPLY_BUSINESS_TRANSFORMS in that order, then the SUCCESS end-log update,
    with three commits in all (start log, procedures, end log). *)
Theorem run_transformation_true_means_done
    (self : PipelineOrchestrator.t) (env : environ) (st st' : state) :
  PipelineOrchestrator.run_transformation self env st = (Ok true, st') ->
  let rid := PipelineOrchestrator.run_id self in
  exists evs,
    trace st' = trace st ++ evs /\
    executed evs
    = [SqlInsertPipelineLog "TRANSFORMATION" rid;
       SqlCallCleanRawData rid;
       SqlCallRemoveDuplicates rid;
       SqlCallApplyBusinessTransforms rid;
       SqlUpdatePipelineLog "TRANSFORMATION" "SUCCESS" 0 0 "NULL" rid] /\
    commits evs = 3%nat.
Proof.
  intros Hrun rid. unfold PipelineOrchestrator.run_transformation in Hrun.
  apply bind_ok_inv in Hrun as ([] & s1 & Hstart & Hrun).
  destruct (log_pipeline_start_ok_inv _ _ _ _ _ Hstart) as (evs0 & Ht0 & He0 & Hc0).
  unfold try_except in Hrun.
  destruct (PipelineOrchestrator.run_transformation_body self env s1)
    as [[ok | e] s2] eqn:Hbody.
  - injection Hrun as -> ->.
    destruct (run_transformation_body_ok_inv _ _ _ _ _ Hbody)
      as (_ & evs1 & Ht1 & He1 & Hc1).
    exists (evs0 ++ evs1). split; [by rewrite Ht1, Ht0, app_assoc |].
    by rewrite executed_app, commits_app, He0, He1, Hc0, Hc1.
  - cbn [any_exception] in Hrun.
    apply bind_ok_inv in Hrun as ([] & s3 & _ & Hrun). discriminate.
Qed.

Lemma run_transformation_true_means_done_witness :
  exists evs,
    trace (PipelineOrchestrator.run_transformation quiet_orchestrator quiet_env
             after_init).2
    = trace after_init ++ evs /\
    executed evs
    = [SqlInsertPipelineLog "TRANSFORMATION" "RUN_20240101_000000_123e4567";
       SqlCallCleanRawData "RUN_20240101_000000_123e4567";
       SqlCallRemoveDuplicates "RUN_20240101_000000_123e4567";
       SqlCallApplyBusinessTransforms "RUN_20240101_000000_123e4567";
       SqlUpdatePipelineLog "TRANSFORMATION" "SUCCESS" 0 0 "NULL"
         "RUN_20240101_000000_123e4567"] /\
    commits evs = 3%nat.
Proof.
  apply (run_transformation_true_means_done quiet_orchestrator quiet_env
           after_init).
  vm_compute. reflexivity.
Defined.

(** X15.  Whatever happens in the stages, a result mapping returned by
    [run_full_pipeline] has exactly the three keys, and a stage is [True] in
    it only if every earlier stage is: validation implies transformation,
    transformation implies ingestion. *)
Theorem pipeline_results_are_ordered
    (self : PipelineOrchestrator.t) (env : environ) (st : state)
    (results : gmap string bool) (st' : state) :
  PipelineOrchestrator.run_full_pipeline self env st = (Ok results, st') ->
  exists ingestion transformation validation,
    results = stage_results ingestion transformation validation /\
    (validation = true -> transformation = true) /\
    (transformation = true -> ingestion = true).
Proof.
  intros Hrun. unfold PipelineOrchestrator.run_full_pipeline in Hrun.
  apply bind_ok_inv in Hrun as ([] & s1 & _ & Hrun).
  apply bind_ok_inv in Hrun as ([] & s2 & _ & Hrun).
  apply bind_ok_inv in Hrun as (ingestion & s3 & _ & Hrun).
  destruct ingestion; cbn [negb] in Hrun.
  - apply bind_ok_inv in Hrun as ([] & s4 & _ & Hrun).
    apply bind_ok_inv in Hrun as (transformation & s5 & _ & Hrun).
    destruct transformation; cbn [negb] in Hrun.
    + apply bind_ok_inv in Hrun as ([] & s6 & _ & Hrun).
      apply bind_ok_inv in Hrun as (validation & s7 & _ & Hrun).
      apply bind_ok_inv in Hrun as ([] & s8 & _ & Hrun).
      apply bind_ok_inv in Hrun as ([] & s9 & _ & Hrun).
      apply bind_ok_inv in Hrun as ([] & s10 & _ & Hrun).
      injection Hrun as <- _. by exists true, true, validation.
    + apply bind_ok_inv in Hrun as ([] & s6 & _ & Hrun).
      injection Hrun as <- _. by exists true, false, false.
  - apply bind_ok_inv in Hrun as ([] & s4 & _ & Hrun).
    injection Hrun as <- _. by exists false, false, false.
Qed.

Lemma pipeline_results_are_ordered_witness :
  exists ingestion transformation validation,
    stage_results true false false
    = stage_results ingestion transformation validation /\
    (validation = true -> transformation = true) /\
    (transformation = true -> ingestion = true).
Proof.
  apply (pipeline_results_are_ordered quiet_orchestrator
           transformation_failing_env after_init (stage_results true false false)
           (PipelineOrchestrator.run_full_pipeline quiet_orchestrator
              transformation_failing_env after_init).2).
  vm_compute. reflexivity.
Defined.

(** *** The text of the error message in the end-log update *)

Lemma double_quotes_injective s1 s2 :
  PipelineOrchestrator.double_quotes s1 = PipelineOrchestrator.double_quotes s2 ->
  s1 = s2.
Proof.
  revert s2. induction s1 as [|c1 s1 IH]; intros [|c2 s2] Heq; simpl in Heq.
  - reflexivity.
  - destruct (Ascii.eqb c2 "'"); discriminate.
  - destruct (Ascii.eqb c1 "'"); discriminate.
  - destruct (Ascii.eqb_spec c1 "'"%char) as [-> | H1];
      destruct (Ascii.eqb_spec c2 "'"%char) as [-> | H2].
    + injection Heq as Heq. f_equal. by apply IH.
    + injection Heq as Hc Heq. congruence.
    + injection Heq as Hc Heq. congruence.
    + injection Heq as -> Heq. f_equal. by apply IH.
Qed.

(** X16.  The quoting of the error message in [log_pipeline_end] loses
    nothing: two different messages, or a message and the absence of one,
    never give the same SQL text; in particular the message 'NULL' is not
    confused with no message. *)
Theorem error_message_sql_injective (m1 m2 : option string) :
  PipelineOrchestrator.error_message_sql m1
  = PipelineOrchestrator.error_message_sql m2 ->
  m1 = m2.
Proof.
  destruct m1 as [s1|], m2 as [s2|]; simpl; intros Heq.
  - injection Heq as Heq. f_equal.
    apply double_quotes_injective.
    assert (Hrev : forall a b : string, a +:+ "'" = b +:+ "'" -> a = b).
    { induction a as [|x a IHa]; intros [|y b] Hab; simpl in Hab.
      - reflexivity.
      - injection Hab as <- Hab. destruct b; discriminate.
      - injection Hab as -> Hab. destruct a; discriminate.
      - injection Hab as -> Hab. f_equal. by apply IHa. }
    by apply Hrev.
  - discriminate.
  - discriminate.
  - reflexivity.
Qed.

Lemma error_message_sql_injective_witness :
  PipelineOrchestrator.error_message_sql (Some "it's down") = "'it''s down'"
  /\ (PipelineOrchestrator.error_message_sql (Some "NULL")
      = PipelineOrchestrator.error_message_sql None -> Some "NULL" = None).
Proof.
  split; [reflexivity |].
  apply (error_message_sql_injective (Some "NULL") None).
Defined.

(** *** [run_ingestion] at the edges *)

Lemma map_m_place_headers_flags eps env st :
  exists eps' st',
    APIIngestion.map_m APIIngestion.place_headers eps env st = (Ok eps', st') /\
    trace st' = trace st /\
    forall ep', In ep' eps' -> exists ep, In ep eps /\ ep_enabled ep' = ep_enabled ep.
Proof.
  revert st. induction eps as [|ep eps IH]; intros st.
  - exists [], st. split; [done |]. split; [done |]. intros ep' [].
  - simpl. unfold bind at 1. unfold APIIngestion.place_headers at 1.
    destruct (ep_headers ep) as [d|].
    + unfold bind at 1, alloc_dict at 1, ret at 1.
      destruct (IH (set_dicts (dicts st ++ [d]) st)) as (eps' & st' & Hrun & Ht & Hflags).
      unfold bind at 1. rewrite Hrun. unfold ret.
      eexists _, _. split; [reflexivity |]. split; [exact Ht |].
      intros ep' [<- | Hin].
      * exists ep. split; [by left | done].
      * destruct (Hflags ep' Hin) as (ep0 & Hin0 & Heq).
        exists ep0. split; [by right | done].
    + unfold ret at 1.
      destruct (IH st) as (eps' & st' & Hrun & Ht & Hflags).
      unfold bind at 1. rewrite Hrun. unfold ret.
      eexists _, _. split; [reflexivity |]. split; [exact Ht |].
      intros ep' [<- | Hin].
      * exists ep. split; [by left | done].
      * destruct (Hflags ep' Hin) as (ep0 & Hin0 & Heq).
        exists ep0. split; [by right | done].
Qed.

Lemma completes_api_init env cfg :
  (forall h, env_yaml env h "config/config.yaml" = inr cfg) ->
  no_enabled_endpoints cfg ->
  completes env (APIIngestion.init "config/config.yaml")
    (fun api =>
       forall ep, In ep (default [] (ac_endpoints (APIIngestion.api_config_ api))) ->
                  ep_enabled ep = Some false)
    [].
Proof.
  intros Hyaml Hnone st. unfold APIIngestion.init.
  unfold bind at 1. rewrite load_yaml_unfold, Hyaml.
  unfold no_enabled_endpoints in Hnone.
  set (s0 := add_event (EvLoadConfig "config/config.yaml") st).
  assert (Hplaced : exists api s1,
    match cfg_api_ingestion cfg with
    | Some c => APIIngestion.place_config c
    | None => ret {| ac_rate_limit := None; ac_endpoints := None |}
    end env s0 = (Ok api, s1) /\ trace s1 = trace s0 /\
    forall ep, In ep (default [] (ac_endpoints api)) -> ep_enabled ep = Some false).
  { destruct (cfg_api_ingestion cfg) as [c|].
    - unfold APIIngestion.place_config.
      destruct (ac_endpoints c) as [eps|] eqn:Heps.
      + destruct (map_m_place_headers_flags eps env s0)
          as (eps' & s1 & Hrun & Ht & Hflags).
        unfold bind. rewrite Hrun. unfold ret.
        eexists _, _. split; [reflexivity |]. split; [exact Ht |].
        simpl. intros ep' Hin. destruct (Hflags ep' Hin) as (ep & Hin0 & ->).
        by apply Hnone.
      + eexists _, _. split; [reflexivity |]. split; [done |]. intros ep [].
    - eexists _, _. split; [reflexivity |]. split; [done |]. intros ep []. }
  destruct Hplaced as (api & s1 & Hrun & Ht & Hflags).
  unfold bind at 1. rewrite Hrun.
  unfold bind at 1, SnowflakeConnector.init at 1.
  unfold bind at 1. rewrite load_yaml_unfold, Hyaml. unfold ret.
  exists {| APIIngestion.api_config_ := api;
            APIIngestion.snowflake := length (connectors s1) |}.
  eexists _, [EvLoadConfig "config/config.yaml"; EvLoadConfig "config/config.yaml"].
  split; [reflexivity |]. split; [exact Hflags |].
  split; [| reflexivity].
  simpl. rewrite Ht. subst s0. simpl. by rewrite <- !app_assoc.
Qed.

Lemma ingest_each_all_disabled self endpoints acc env st :
  (forall ep, In ep endpoints -> ep_enabled ep = Some false) ->
  APIIngestion.ingest_each self endpoints acc env st = (Ok acc, st).
Proof.
  induction endpoints as [|ep endpoints IH]; intros Hoff; [done |].
  simpl. rewrite (Hoff ep (or_introl eq_refl)). simpl.
  apply IH. intros ep' Hin. apply Hoff. by right.
Qed.

(** X17.  With no enabled endpoint in the configuration there is nothing to
    ingest and the ingestion stage succeeds: [run_ingestion] returns [True]
    and logs SUCCESS, having created no table and inserted no row. *)
Theorem run_ingestion_nothing_to_ingest
    (self : PipelineOrchestrator.t) (env : environ) (st : state) (cfg : config) :
  warehouse_up env ->
  (forall h, env_yaml env h "config/config.yaml" = inr cfg) ->
  no_enabled_endpoints cfg ->
  let rid := PipelineOrchestrator.run_id self in
  exists st' evs,
    PipelineOrchestrator.run_ingestion self env st = (Ok true, st') /\
    trace st' = trace st ++ evs /\
    executed evs
    = [SqlInsertPipelineLog "INGESTION" rid;
       SqlUpdatePipelineLog "INGESTION" "SUCCESS" 0 0 "NULL" rid].
Proof.
  intros Hup Hyaml Hnone rid.
  assert (Hc : completes env (PipelineOrchestrator.run_ingestion self)
                 (eq true)
                 [SqlInsertPipelineLog "INGESTION" rid;
                  SqlUpdatePipelineLog "INGESTION" "SUCCESS" 0 0 "NULL" rid]).
  { unfold PipelineOrchestrator.run_ingestion.
    eapply (completes_bind _ _ _ _ _ [_] [_]);
      [by apply completes_log_pipeline_start |]. intros _ _.
    apply completes_try_except.
    unfold PipelineOrchestrator.run_ingestion_body.
    eapply (completes_bind _ _ _ _ _ [] [_]);
      [by apply (completes_api_init env cfg) |]. intros api Hoff.
    eapply (completes_bind _ _ _ _ _ [] [_] ).
    { intros s. exists ∅, s, [].
      unfold APIIngestion.ingest_all_endpoints.
      rewrite (ingest_each_all_disabled _ _ _ _ _ Hoff).
      split; [reflexivity |]. split; [exact (eq_refl ∅) |].
      by rewrite app_nil_r. }
    intros results <-.
    eapply (completes_bind _ _ _ _ _ [_] []);
      [by apply completes_log_pipeline_end |]. intros _ _.
    by apply completes_ret. }
  destruct (Hc st) as (ok & st' & evs & Hrun & <- & Ht & He).
  by exists st', evs.
Qed.

Lemma run_ingestion_nothing_to_ingest_witness :
  exists st' evs,
    PipelineOrchestrator.run_ingestion quiet_orchestrator quiet_env after_init
    = (Ok true, st') /\
    trace st' = trace after_init ++ evs /\
    executed evs
    = [SqlInsertPipelineLog "INGESTION" "RUN_20240101_000000_123e4567";
       SqlUpdatePipelineLog "INGESTION" "SUCCESS" 0 0 "NULL"
         "RUN_20240101_000000_123e4567"].
Proof.
  apply (run_ingestion_nothing_to_ingest quiet_orchestrator quiet_env after_init
           (Config None)).
  - intros c h. by eexists.
  - reflexivity.
  - exact I.
Defined.

Lemma count_requests_none evs : Forall not_request evs -> count_requests evs = 0%nat.
Proof.
  induction 1 as [|ev evs Hev _ IH]; [done |]. by destruct ev.
Qed.

Lemma connect_sends_no_request self :
  emits not_request (SnowflakeConnector.connect self).
Proof.
  unfold SnowflakeConnector.connect, SnowflakeConnector.open_connection.
  emits_auto.
Qed.

Lemma log_pipeline_start_sends_no_request self name :
  emits not_request (PipelineOrchestrator.log_pipeline_start self name).
Proof.
  unfold PipelineOrchestrator.log_pipeline_start.
  apply emits_bind; [apply connect_sends_no_request |]. intros conn. emits_auto.
Qed.

Lemma log_pipeline_end_sends_no_request self name status rp rf msg :
  emits not_request
    (PipelineOrchestrator.log_pipeline_end self name status rp rf msg).
Proof.
  unfold PipelineOrchestrator.log_pipeline_end.
  apply emits_bind; [apply connect_sends_no_request |]. intros conn. emits_auto.
Qed.

(** X18.  When the configuration file cannot be loaded, the error raised by
    the [APIIngestion] constructor inside [run_ingestion] does not reach the
    caller while the warehouse works: the stage logs FAILED with the error's
    message and returns [False], and no endpoint is contacted. *)
Theorem run_ingestion_config_error_is_logged
    (self : PipelineOrchestrator.t) (env : environ) (st : state) (e : exn) :
  warehouse_up env ->
  (forall h, env_yaml env h "config/config.yaml" = inl e) ->
  let rid := PipelineOrchestrator.run_id self in
  exists st' evs,
    PipelineOrchestrator.run_ingestion self env st = (Ok false, st') /\
    trace st' = trace st ++ evs /\
    executed evs
    = [SqlInsertPipelineLog "INGESTION" rid;
       SqlUpdatePipelineLog "INGESTION" "FAILED" 0 0
         (PipelineOrchestrator.error_message_sql (Some (str_exn e))) rid] /\
    count_requests evs = 0%nat.
Proof.
  intros Hup Hyaml rid. unfold PipelineOrchestrator.run_ingestion.
  destruct (completes_log_pipeline_start env self "INGESTION" Hup st)
    as ([] & s1 & evs1 & Hstart & _ & Ht1 & He1).
  destruct (log_pipeline_start_sends_no_request _ _ _ _ _ _ Hstart)
    as (evs1' & Ht1' & Hq1).
  assert (evs1' = evs1) as -> by (rewrite Ht1 in Ht1'; by apply app_inv_head in Ht1').
  unfold bind at 1. rewrite Hstart. unfold try_except.
  unfold PipelineOrchestrator.run_ingestion_body, APIIngestion.init.
  unfold bind at 1, bind at 1. rewrite load_yaml_unfold, Hyaml.
  cbn [any_exception].
  set (s2 := add_event (EvLoadConfig "config/config.yaml") s1).
  destruct (completes_log_pipeline_end env self "INGESTION" "FAILED" 0 0
              (Some (str_exn e)) Hup s2)
    as ([] & s3 & evs3 & Hend & _ & Ht3 & He3).
  destruct (log_pipeline_end_sends_no_request _ _ _ _ _ _ _ _ _ _ Hend)
    as (evs3' & Ht3' & Hq3).
  assert (evs3' = evs3) as -> by (rewrite Ht3 in Ht3'; by apply app_inv_head in Ht3').
  unfold bind. rewrite Hend. unfold ret.
  exists s3, (evs1 ++ [EvLoadConfig "config/config.yaml"] ++ evs3).
  split; [reflexivity |]. split.
  { rewrite Ht3. subst s2. simpl. rewrite Ht1, <- !app_assoc. reflexivity. }
  split.
  - by rewrite !executed_app, He1, He3.
  - rewrite !count_requests_app. simpl.
    rewrite (count_requests_none _ Hq1), (count_requests_none _ Hq3). reflexivity.
Qed.

Lemma run_ingestion_config_error_is_logged_witness :
  exists st' evs,
    PipelineOrchestrator.run_ingestion quiet_orchestrator no_config_env after_init
    = (Ok false, st') /\
    trace st' = trace after_init ++ evs /\
    executed evs
    = [SqlInsertPipelineLog "INGESTION" "RUN_20240101_000000_123e4567";
       SqlUpdatePipelineLog "INGESTION" "FAILED" 0 0
         "'No such file or directory: config/config.yaml'"
         "RUN_20240101_000000_123e4567"] /\
    count_requests evs = 0%nat.
Proof.
  apply (run_ingestion_config_error_is_logged quiet_orchestrator no_config_env
           after_init
           (Exn OSError "No such file or directory: config/config.yaml")).
  - intros c h. by eexists.
  - reflexivity.
Defined.

Lemma cursor_closes_app evs1 evs2 :
  cursor_closes (evs1 ++ evs2) = (cursor_closes evs1 + cursor_closes evs2)%nat.
Proof.
  induction evs1 as [|e evs1 IH]; [done |].
  destruct e as [| | |[]| |]; simpl; by rewrite ?IH.
Qed.

Lemma one_statement_call_outcome self text done_line error_line env st :
  exists ok st' evs,
    one_statement_call self text done_line error_line env st = (Ok ok, st') /\
    trace st' = trace st ++ evs /\
    (ok = true ->
     executed evs = [SqlText text] /\ cursor_closes evs = 1%nat) /\
    ((forall h conn, exists e, env_db env h (DbExecute conn (SqlText text)) = inl e) ->
     ok = false /\ cursor_closes evs = 0%nat).
Proof.
  unfold one_statement_call, try_except.
  unfold bind at 1.
  destruct (SnowflakeConnector.connect (FileIngestion.snowflake self) env st)
    as [[conn | e0] s1] eqn:Hconn.
  2:{ cbn [any_exception]. unfold bind, print, log_event, ret.
      destruct (connect_trace _ _ _ _ _ Hconn) as [Ht | Ht];
        eexists _, _, _; (split; [reflexivity |]);
        (split; [simpl; rewrite Ht, <- ?app_assoc; reflexivity |]);
        split; try discriminate; done. }
  assert (Hpre : exists evs0, trace s1 = trace st ++ evs0 /\
                   executed evs0 = [] /\ cursor_closes evs0 = 0%nat).
  { destruct (connect_trace _ _ _ _ _ Hconn) as [Ht | Ht].
    - exists []. by rewrite app_nil_r.
    - by exists [EvDb DbConnect]. }
  destruct Hpre as (evs0 & Ht0 & He0 & Hc0).
  unfold bind at 1. rewrite db_op_unfold.
  destruct (env_db env (trace s1) (DbCursor conn)) as [e1 | r1].
  { cbn [any_exception]. unfold bind, print, log_event, ret.
    eexists _, _, (evs0 ++ [_; _]). split; [reflexivity |].
    split; [simpl; rewrite Ht0, <- ?app_assoc; reflexivity |].
    split; [discriminate |]. intros _. split; [done |].
    by rewrite cursor_closes_app, Hc0. }
  unfold bind at 1. rewrite db_op_unfold.
  match goal with |- context [env_db env ?h (DbExecute conn (SqlText text))] =>
    destruct (env_db env h (DbExecute conn (SqlText text))) as [e2 | r2] eqn:Hexec
  end.
  { cbn [any_exception]. unfold bind, print, log_event, ret.
    eexists _, _, (evs0 ++ [_; _; _]). split; [reflexivity |].
    split; [simpl; rewrite Ht0, <- ?app_assoc; reflexivity |].
    split; [discriminate |]. intros _. split; [done |].
    by rewrite cursor_closes_app, Hc0. }
  unfold bind at 1. rewrite db_op_unfold.
  match goal with |- context [env_db env ?h (DbCursorClose conn)] =>
    destruct (env_db env h (DbCursorClose conn)) as [e3 | r3]
  end.
  { cbn [any_exception]. unfold bind, print, log_event, ret.
    eexists _, _, (evs0 ++ [_; _; _; _]). split; [reflexivity |].
    split; [simpl; rewrite Ht0, <- ?app_assoc; reflexivity |].
    split; [discriminate |]. intros Hfail.
    match type of Hexec with env_db env ?h _ = _ =>
      destruct (Hfail h conn) as [e Hf] end.
    congruence. }
  unfold bind, print, log_event, ret.
  eexists _, _, (evs0 ++ [_; _; _; _]). split; [reflexivity |].
  split; [simpl; rewrite Ht0, <- ?app_assoc; reflexivity |].
  split.
  - intros _. by rewrite executed_app, cursor_closes_app, He0, Hc0.
  - intros Hfail.
    match type of Hexec with env_db env ?h _ = _ =>
      destruct (Hfail h conn) as [e Hf] end.
    congruence.
Qed.

(** X19.  [upload_to_stage] never raises.  It returns [True] only after the
    PUT statement was executed and the cursor closed; and when the warehouse
    rejects the PUT statement it returns [False] without ever closing the
    cursor it opened. *)
Theorem upload_to_stage_outcome
    (self : FileIngestion.t) (local_file_path stage_name : string)
    (env : environ) (st : state) :
  let put := FileIngestionStage.upload_sql local_file_path stage_name in
  exists ok st' evs,
    FileIngestionStage.upload_to_stage self local_file_path stage_name env st
    = (Ok ok, st') /\
    trace st' = trace st ++ evs /\
    (ok = true ->
     executed evs = [SqlText put] /\ cursor_closes evs = 1%nat) /\
    ((forall h conn, exists e, env_db env h (DbExecute conn (SqlText put)) = inl e) ->
     ok = false /\ cursor_closes evs = 0%nat).
Proof.
  intros put.
  exact (one_statement_call_outcome self put
           ("Successfully uploaded "
            +:+ FileIngestionStage.basename local_file_path
            +:+ " to stage " +:+ stage_name)
           (fun m => "Error uploading file to stage: " +:+ m) env st).
Qed.

Lemma upload_to_stage_outcome_witness :
  (FileIngestionStage.upload_to_stage (FileIngestion.Make 0) "/data/in/users.csv"
     "FILE_STAGE" refusing_env fresh_connector).1 = Ok false
  /\
  executed (trace (FileIngestionStage.upload_to_stage (FileIngestion.Make 0)
                     "/data/in/users.csv" "FILE_STAGE" quiet_env
                     fresh_connector).2)
  = [SqlText "PUT file:///data/in/users.csv @FILE_STAGE AUTO_COMPRESS=FALSE OVERWRITE=TRUE"].
Proof.
  split.
  - destruct (upload_to_stage_outcome (FileIngestion.Make 0) "/data/in/users.csv"
                "FILE_STAGE" refusing_env fresh_connector)
      as (ok & st' & evs & Hrun & _ & _ & Hfail).
    rewrite Hrun. simpl. f_equal. apply Hfail.
    intros h conn. by eexists.
  - vm_compute. reflexivity.
Defined.

(** X20.  [trigger_snowpipe] never raises.  It returns [True] only after
    the ALTER PIPE ... REFRESH statement was executed and the cursor closed;
    and when the warehouse rejects the statement it returns [False] without
    closing the cursor. *)
Theorem trigger_snowpipe_outcome
    (self : FileIngestion.t) (pipe_name : string) (env : environ) (st : state) :
  let refresh := FileIngestionStage.refresh_sql pipe_name in
  exists ok st' evs,
    FileIngestionStage.trigger_snowpipe self pipe_name env st = (Ok ok, st') /\
    trace st' = trace st ++ evs /\
    (ok = true ->
     executed evs = [SqlText refresh] /\ cursor_closes evs = 1%nat) /\
    ((forall h conn, exists e, env_db env h (DbExecute conn (SqlText refresh)) = inl e) ->
     ok = false /\ cursor_closes evs = 0%nat).
Proof.
  intros refresh.
  exact (one_statement_call_outcome self refresh
           ("Triggered Snowpipe refresh for " +:+ pipe_name)
           (fun m => "Error triggering Snowpipe: " +:+ m) env st).
Qed.

Lemma trigger_snowpipe_outcome_witness :
  (FileIngestionStage.trigger_snowpipe (FileIngestion.Make 0)
     "FILE_INGESTION_PIPE" refusing_env fresh_connector).1 = Ok false.
Proof.
  destruct (trigger_snowpipe_outcome (FileIngestion.Make 0) "FILE_INGESTION_PIPE"
              refusing_env fresh_connector)
    as (ok & st' & evs & Hrun & _ & _ & Hfail).
  rewrite Hrun. simpl. f_equal. apply Hfail.
  intros h conn. by eexists.
Defined.

Lemma opened_app evs1 evs2 : opened (evs1 ++ evs2) = opened evs1 ++ opened evs2.
Proof.
  induction evs1 as [|e evs1 IH]; [done |].
  destruct e; simpl; by rewrite ?IH.
Qed.

Lemma opened_not_open evs : Forall not_open evs -> opened evs = [].
Proof.
  induction 1 as [|e evs He _ IH]; [done |].
  by destruct e.
Qed.

Section KeepsStore.
Context {A B : Type}.

Lemma keeps_store_ret (a : A) : keeps_store (ret a).
Proof. by intros env st r st' [= <- <-]. Qed.

Lemma keeps_store_of_sum (r : exn + A) : keeps_store (of_sum r).
Proof. destruct r; by intros env st r' st' [= <- <-]. Qed.

Lemma keeps_store_bind (m : M A) (k : A -> M B) :
  keeps_store m -> (forall a, keeps_store (k a)) -> keeps_store (bind m k).
Proof.
  intros Hm Hk env st r st' Hrun. unfold bind in Hrun.
  destruct (m env st) as [[a | e] s1] eqn:Hm1.
  - destruct (Hm _ _ _ _ Hm1) as [H1 H2]. destruct (Hk a _ _ _ _ Hrun) as [H3 H4].
    split; congruence.
  - injection Hrun as <- <-. exact (Hm _ _ _ _ Hm1).
Qed.

Lemma keeps_store_try_finally (body : M A) (cleanup : M unit) :
  keeps_store body -> keeps_store cleanup -> keeps_store (try_finally body cleanup).
Proof.
  intros Hb Hc env st r st' Hrun. unfold try_finally in Hrun.
  destruct (body env st) as [rb sb] eqn:Hb1.
  destruct (Hb _ _ _ _ Hb1) as [H1 H2].
  destruct (cleanup env sb) as [[[] | e] sc] eqn:Hc1; injection Hrun as <- <-;
    destruct (Hc _ _ _ _ Hc1) as [H3 H4]; split; congruence.
Qed.

End KeepsStore.

Lemma keeps_store_log_event e : keeps_store (log_event e).
Proof. by intros env st r st' [= <- <-]. Qed.

Lemma keeps_store_db_op c : keeps_store (db_op c).
Proof. intros env st r st'. rewrite db_op_unfold. by intros [= <- <-]. Qed.

Lemma keeps_store_read_file path : keeps_store (read_file path).
Proof. intros env st r st'. rewrite read_file_unfold. by intros [= <- <-]. Qed.

Lemma keeps_store_for_each {A} (xs : list A) (body : A -> M unit) :
  (forall x, keeps_store (body x)) -> keeps_store (for_each xs body).
Proof.
  intros Hb. induction xs as [|x xs IH]; simpl.
  - apply keeps_store_ret.
  - apply keeps_store_bind; [apply Hb | intros _; exact IH].
Qed.

Lemma with_cursor_keeps_store conn file_path : keeps_store (with_cursor conn file_path).
Proof.
  unfold with_cursor.
  apply keeps_store_bind; [apply keeps_store_db_op | intros _].
  apply keeps_store_try_finally.
  - apply keeps_store_bind; [apply keeps_store_read_file | intros content].
    apply keeps_store_bind.
    + apply keeps_store_for_each. intros statement. cbv beta zeta.
      destruct (nonempty (strip statement)); [| apply keeps_store_ret].
      apply keeps_store_bind; [apply keeps_store_db_op | intros _; apply keeps_store_ret].
    + intros _. apply keeps_store_bind; [apply keeps_store_db_op |].
      intros _; apply keeps_store_ret.
  - apply keeps_store_bind; [apply keeps_store_db_op | intros _; apply keeps_store_ret].
Qed.

Lemma with_cursor_opened conn file_path env st r st' :
  with_cursor conn file_path env st = (r, st') ->
  exists evs,
    trace st' = trace st ++ evs /\
    (opened evs = [file_path] \/ (opened evs = [] /\ exists e, r = Raise e)).
Proof.
  unfold with_cursor. unfold bind at 1. rewrite db_op_unfold.
  destruct (env_db env (trace st) (DbCursor conn)) as [e1 | r1].
  { intros [= <- <-]. exists [EvDb (DbCursor conn)]. split; [done |].
    right. split; [done |]. by eexists. }
  unfold try_finally.
  match goal with |- context [bind (read_file file_path) ?k] => set (rest := k) end.
  match goal with |- context [bind (db_op (DbCursorClose conn)) ?k] =>
    set (cleanup := bind (db_op (DbCursorClose conn)) k) end.
  assert (Hrest : forall content, emits not_open (rest content)).
  { intros content. unfold rest.
    apply emits_bind; [| intros _; emits_auto].
    apply emits_for_each. intros statement. cbv beta zeta.
    destruct (nonempty (strip statement)); emits_auto. }
  assert (Hcleanup : emits not_open cleanup) by (unfold cleanup; emits_auto).
  destruct (bind (read_file file_path) rest env (add_event (EvDb (DbCursor conn)) st))
    as [rb sb] eqn:Hbody.
  assert (Hb : exists evsb, trace sb
                 = trace st ++ [EvDb (DbCursor conn)] ++ [EvOpen file_path] ++ evsb
               /\ Forall not_open evsb).
  { unfold bind in Hbody. rewrite read_file_unfold in Hbody.
    match type of Hbody with context [env_read env ?h file_path] =>
      destruct (env_read env h file_path) as [e2 | content] end.
    - injection Hbody as <- <-. exists []. split; [| done].
      simpl. by rewrite <- app_assoc.
    - destruct (Hrest content _ _ _ _ Hbody) as (evsb & Ht & Hall).
      exists evsb. split; [| done]. rewrite Ht. simpl. by rewrite <- !app_assoc. }
  destruct Hb as (evsb & Htb & Hallb).
  destruct (cleanup env sb) as [rc sc] eqn:Hc.
  destruct (Hcleanup _ _ _ _ Hc) as (evsc & Htc & Hallc).
  intros Hrun.
  assert (Hst : st' = sc) by (destruct rc as [[] |]; by injection Hrun).
  subst st'.
  exists ([EvDb (DbCursor conn)] ++ [EvOpen file_path] ++ evsb ++ evsc).
  split.
  - rewrite Htc, Htb. by rewrite <- !app_assoc.
  - left. simpl. by rewrite opened_app, !opened_not_open.
Qed.

Lemma execute_file_with_cursor self file_path :
  SnowflakeConnector.execute_file self file_path
  = (conn <- SnowflakeConnector.connect self ;; with_cursor conn file_path).
Proof. reflexivity. Qed.

Lemma connect_keeps_one_open cs0 self env st r st' :
  SnowflakeConnector.connect self env st = (r, st') ->
  at_most_one_open cs0 self st -> at_most_one_open cs0 self st'.
Proof.
  rewrite connect_unfold. intros Hrun [Hlen Hinv].
  assert (Hnew : forall st0,
    conns st0 = cs0 -> connectors st0 = connectors st ->
    at_most_one_open cs0 self
      (set_connectors (<[self := Some (length (conns st0))]> (connectors st0))
         (set_conns (conns st0 ++ [false]) (add_event (EvDb DbConnect) st0)))).
  { intros st0 Hcs Hco. split.
    - simpl. rewrite length_insert. by rewrite Hco.
    - right. unfold connection_of. simpl.
      rewrite list_lookup_insert_eq by (by rewrite Hco). by rewrite Hcs. }
  destruct Hinv as [[Hnone Hcs] | [Hsome Hcs]].
  - rewrite Hnone in Hrun.
    destruct (env_db env (trace st) DbConnect); injection Hrun as <- <-.
    + split; [done |]. left. done.
    + by apply Hnew.
  - rewrite Hsome in Hrun.
    assert (Hopen : closed_in st (length cs0) = false).
    { unfold closed_in. rewrite Hcs.
      rewrite lookup_app_r by lia. by rewrite Nat.sub_diag. }
    rewrite Hopen in Hrun. injection Hrun as <- <-.
    split; [done |]. by right.
Qed.

Lemma keeps_store_one_open {A} (m : M A) cs0 self env st r st' :
  keeps_store m -> m env st = (r, st') ->
  at_most_one_open cs0 self st -> at_most_one_open cs0 self st'.
Proof.
  intros Hk Hrun [Hlen Hinv]. destruct (Hk _ _ _ _ Hrun) as [Hco Hcs].
  unfold at_most_one_open, connection_of in *. by rewrite Hco, Hcs.
Qed.

(** One call of [execute_file]: the connector keeps at most one open
    connection, and the file is opened unless the call raised before. *)
Lemma execute_file_run cs0 self file_path env st r st' :
  SnowflakeConnector.execute_file self file_path env st = (r, st') ->
  at_most_one_open cs0 self st ->
  at_most_one_open cs0 self st' /\
  exists evs,
    trace st' = trace st ++ evs /\
    (opened evs = [file_path] \/ (opened evs = [] /\ exists e, r = Raise e)).
Proof.
  rewrite execute_file_with_cursor. unfold bind. intros Hrun Hinv.
  destruct (SnowflakeConnector.connect self env st) as [[conn | e] s1] eqn:Hconn.
  - pose proof (connect_keeps_one_open _ _ _ _ _ _ Hconn Hinv) as Hinv1.
    split; [exact (keeps_store_one_open _ _ _ _ _ _ _
                     (with_cursor_keeps_store conn file_path) Hrun Hinv1) |].
    destruct (with_cursor_opened _ _ _ _ _ _ Hrun) as (evs & Ht & Hopened).
    destruct (connect_trace _ _ _ _ _ Hconn) as [Ht1 | Ht1].
    + exists evs. by rewrite Ht, Ht1.
    + exists ([EvDb DbConnect] ++ evs). split; [| exact Hopened].
      rewrite Ht, Ht1. by rewrite <- app_assoc.
  - injection Hrun as <- <-.
    split; [exact (connect_keeps_one_open _ _ _ _ _ _ Hconn Hinv) |].
    destruct (connect_trace _ _ _ _ _ Hconn) as [Ht1 | Ht1].
    + exists []. rewrite app_nil_r. split; [done |]. right. split; [done |]. by eexists.
    + exists [EvDb DbConnect]. split; [done |]. right. split; [done |]. by eexists.
Qed.

(** The loop of [run_setup] over any list of files. *)
Lemma setup_loop_run cs0 self sql_dir exists_ files env st r st' :
  for_each files (SetupRunner.run_file self sql_dir exists_) env st = (r, st') ->
  at_most_one_open cs0 self st ->
  at_most_one_open cs0 self st' /\
  exists evs,
    trace st' = trace st ++ evs /\
    opened evs `prefix_of` present sql_dir exists_ files /\
    (r = Ok tt -> opened evs = present sql_dir exists_ files).
Proof.
  revert st. induction files as [|f files IH]; intros st Hrun Hinv.
  { injection Hrun as <- <-. split; [done |]. exists []. by rewrite app_nil_r. }
  simpl in Hrun. unfold bind at 1 in Hrun.
  unfold present. simpl. fold (present sql_dir exists_ files).
  unfold SetupRunner.run_file at 1 in Hrun.
  destruct (exists_ (SetupRunner.file_path_of sql_dir f)) eqn:Hex.
  - unfold bind at 1 2, print at 1, log_event at 1 in Hrun.
    match type of Hrun with context [SnowflakeConnector.execute_file _ _ _ ?s0] =>
      destruct (SnowflakeConnector.execute_file self
                  (SetupRunner.file_path_of sql_dir f) env s0)
        as [[[] | e] s1] eqn:Hfile;
      assert (Hinv0 : at_most_one_open cs0 self s0) by exact Hinv
    end;
    destruct (execute_file_run _ _ _ _ _ _ _ Hfile Hinv0)
      as (Hinv1 & evs1 & Ht1 & Hopened).
    + destruct Hopened as [Hopened | (_ & e & He)]; [| discriminate].
      unfold print at 1, log_event at 1 in Hrun.
      match type of Hrun with for_each _ _ _ ?s2 = _ =>
        assert (Hinv2 : at_most_one_open cs0 self s2) by exact Hinv1 end.
      destruct (IH _ Hrun Hinv2) as (Hinv' & evs & Ht & Hpre & Hall).
      split; [exact Hinv' |].
      eexists ([EvPrint _] ++ evs1 ++ [EvPrint _] ++ evs). split.
      { rewrite Ht. simpl. rewrite Ht1. simpl. rewrite <- !app_assoc. reflexivity. }
      simpl. rewrite opened_app, Hopened. simpl. split.
      * by apply prefix_cons.
      * intros Hr. by rewrite (Hall Hr).
    + injection Hrun as <- <-. split; [exact Hinv1 |].
      eexists ([EvPrint _] ++ evs1). split.
      { rewrite Ht1. simpl. rewrite <- !app_assoc. reflexivity. }
      simpl. split; [| discriminate].
      destruct Hopened as [-> | [-> _]].
      * apply prefix_cons, prefix_nil.
      * apply prefix_nil.
  - unfold print at 1, log_event at 1 in Hrun.
    match type of Hrun with for_each _ _ _ ?s2 = _ =>
      assert (Hinv2 : at_most_one_open cs0 self s2) by exact Hinv end.
    destruct (IH _ Hrun Hinv2) as (Hinv' & evs & Ht & Hpre & Hall).
    split; [exact Hinv' |].
    eexists ([EvPrint _] ++ evs). split.
    { rewrite Ht. simpl. rewrite <- !app_assoc. reflexivity. }
    done.
Qed.

(** [close] on a connector that holds at most one open connection. *)
Lemma close_one_open cs0 self env st r st' :
  SnowflakeConnector.close self env st = (r, st') ->
  at_most_one_open cs0 self st ->
  exists evs,
    trace st' = trace st ++ evs /\ opened evs = [] /\
    (r = Ok tt ->
     connection_of st' self = None /\ (conns st' = cs0 \/ conns st' = cs0 ++ [true])) /\
    (forall e, r = Raise e -> evs = [EvDb (DbClose (length cs0))]).
Proof.
  intros Hrun [Hlen [[Hnone Hcs] | [Hsome Hcs]]].
  - rewrite (close_absent _ _ _ Hnone) in Hrun. injection Hrun as <- <-.
    exists []. rewrite app_nil_r. repeat split; auto. discriminate.
  - assert (Hopen : closed_in st (length cs0) = false).
    { unfold closed_in. rewrite Hcs.
      rewrite lookup_app_r by lia. by rewrite Nat.sub_diag. }
    rewrite (close_open _ _ _ _ Hsome Hopen) in Hrun.
    destruct (env_db env (trace st) (DbClose (length cs0))); injection Hrun as <- <-;
      exists [EvDb (DbClose (length cs0))]; (split; [done |]); (split; [done |]).
    + split; [discriminate | done].
    + split; [| discriminate]. intros _. split.
      * unfold connection_of. simpl. by rewrite list_lookup_insert_eq.
      * right. simpl. rewrite Hcs.
        rewrite insert_app_r_alt by lia. by rewrite Nat.sub_diag.
Qed.

(** The whole of [run_setup], in any environment. *)
Lemma run_setup_run sql_dir exists_ env st r st' :
  SetupRunner.run_setup sql_dir exists_ env st = (r, st') ->
  exists evs,
    trace st' = trace st ++ evs /\
    opened evs `prefix_of` present sql_dir exists_ SetupRunner.sql_files /\
    (r = Ok SetupRunner.Returned ->
     opened evs = present sql_dir exists_ SetupRunner.sql_files) /\
    (forall code, r = Ok (SetupRunner.Exited code) -> code = 1) /\
    (forall fin, r = Ok fin ->
     connection_of st' (length (connectors st)) = None /\
     (conns st' = conns st \/ conns st' = conns st ++ [true])) /\
    (forall e, r = Raise e ->
     evs = [EvLoadConfig "config/config.yaml"] \/
     exists c evs', evs = evs' ++ [EvDb (DbClose c)]).
Proof.
  unfold SetupRunner.run_setup, SnowflakeConnector.init.
  unfold bind at 1 2. rewrite load_yaml_unfold.
  destruct (env_yaml env (trace st) "config/config.yaml") as [e0 | cfg].
  { intros [= <- <-]. exists [EvLoadConfig "config/config.yaml"].
    split; [done |]. split; [apply prefix_nil |].
    split; [discriminate |]. split; [discriminate |]. split; [discriminate |].
    intros _ _. by left. }
  cbv beta iota.
  change (length (connectors (add_event (EvLoadConfig "config/config.yaml") st)))
    with (length (connectors st)).
  set (self := length (connectors st)).
  set (s0 := set_connectors _ _).
  assert (Hinv0 : at_most_one_open (conns st) self s0).
  { split.
    - unfold s0, self. simpl. rewrite length_app. simpl. lia.
    - left. split; [| done]. unfold connection_of, s0, self. simpl.
      rewrite lookup_app_r by lia. by rewrite Nat.sub_diag. }
  assert (Hself : self = length (connectors st)) by reflexivity.
  assert (Ht0 : trace s0 = trace st ++ [EvLoadConfig "config/config.yaml"]) by reflexivity.
  clearbody self s0.
  unfold try_finally.
  match goal with |- context [try_except ?b ?c ?h env s0] =>
    destruct (try_except b c h env s0) as [rb sb] eqn:Hbody end.
  assert (Hb : at_most_one_open (conns st) self sb /\
    exists evsb, trace sb = trace s0 ++ evsb /\
      opened evsb `prefix_of` present sql_dir exists_ SetupRunner.sql_files /\
      (rb = Ok SetupRunner.Returned ->
       opened evsb = present sql_dir exists_ SetupRunner.sql_files) /\
      (exists fin, rb = Ok fin) /\
      (forall code, rb = Ok (SetupRunner.Exited code) -> code = 1)).
  { unfold try_except in Hbody.
    unfold bind at 1 2, print at 1, log_event at 1 in Hbody.
    match type of Hbody with context [for_each _ _ env ?s1] =>
      destruct (for_each SetupRunner.sql_files
                  (SetupRunner.run_file self sql_dir exists_) env s1)
        as [[[] | e] s2] eqn:Hloop;
      assert (Hinv1 : at_most_one_open (conns st) self s1) by exact Hinv0
    end;
    destruct (setup_loop_run _ _ _ _ _ _ _ _ _ Hloop Hinv1)
      as (Hinv2 & evs & Ht & Hpre & Hall).
    - unfold bind, print, log_event, ret in Hbody. injection Hbody as <- <-.
      split; [exact Hinv2 |].
      eexists ([EvPrint _] ++ evs ++ [EvPrint _]). split.
      { simpl. rewrite Ht. simpl. rewrite <- !app_assoc. reflexivity. }
      simpl. rewrite opened_app. simpl. rewrite app_nil_r.
      rewrite (Hall eq_refl). split; [done |]. split; [done |].
      split; [by eexists | discriminate].
    - cbn [any_exception] in Hbody.
      unfold bind, print, log_event, ret in Hbody. injection Hbody as <- <-.
      split; [exact Hinv2 |].
      eexists ([EvPrint _] ++ evs ++ [EvPrint _]). split.
      { simpl. rewrite Ht. simpl. rewrite <- !app_assoc. reflexivity. }
      simpl. rewrite opened_app. simpl. rewrite app_nil_r.
      split; [done |]. split; [discriminate |].
      split; [by eexists |]. by intros code [= <-]. }
  destruct Hb as (Hinvb & evsb & Htb & Hpre & Hall & [fin Hfin] & Hcode).
  destruct (SnowflakeConnector.close self env sb) as [rc sc] eqn:Hclose.
  destruct (close_one_open _ _ _ _ _ _ Hclose Hinvb)
    as (evsc & Htc & Hopc & Hok & Hraise).
  intros Hrun.
  exists ([EvLoadConfig "config/config.yaml"] ++ evsb ++ evsc).
  assert (Hst : st' = sc) by (destruct rc as [[] |]; by injection Hrun).
  subst st'. split.
  { rewrite Htc, Htb, Ht0. by rewrite <- !app_assoc. }
  assert (Hop : opened ([EvLoadConfig "config/config.yaml"] ++ evsb ++ evsc)
                = opened evsb).
  { simpl. by rewrite opened_app, Hopc, app_nil_r. }
  rewrite Hop.
  destruct rc as [[] | ec]; injection Hrun as <-.
  - split; [done |]. split; [done |]. split; [done |].
    split; [| by rewrite Hfin]. intros fin' _. by apply Hok.
  - split; [done |]. split; [discriminate |]. split; [discriminate |].
    split; [discriminate |]. intros e _. right.
    rewrite (Hraise ec eq_refl).
    exists (length (conns st)), ([EvLoadConfig "config/config.yaml"] ++ evsb).
    by rewrite <- !app_assoc.
Qed.

(** X21.  [run_setup] executes the SQL files that are present in the order
    of its list and stops at the first failure: the files it opens are a
    prefix of the present files, all of them when it returns normally; and
    when it ends the process, the exit code is 1. *)
Theorem run_setup_files_in_order
    (sql_dir : string) (exists_ : string -> bool) (env : environ)
    (st st' : state) (r : outcome SetupRunner.finish) :
  SetupRunner.run_setup sql_dir exists_ env st = (r, st') ->
  exists evs,
    trace st' = trace st ++ evs /\
    opened evs `prefix_of` present sql_dir exists_ SetupRunner.sql_files /\
    (r = Ok SetupRunner.Returned ->
     opened evs = present sql_dir exists_ SetupRunner.sql_files) /\
    (forall code, r = Ok (SetupRunner.Exited code) -> code = 1).
Proof.
  intros Hrun.
  destruct (run_setup_run _ _ _ _ _ _ Hrun)
    as (evs & Ht & Hpre & Hall & Hcode & _).
  by exists evs.
Qed.

Lemma run_setup_files_in_order_witness :
  exists evs,
    trace (SetupRunner.run_setup "/repo/sql" all_present rejecting_env
             initial_state).2 = trace initial_state ++ evs /\
    opened evs `prefix_of` present "/repo/sql" all_present SetupRunner.sql_files /\
    ((SetupRunner.run_setup "/repo/sql" all_present rejecting_env initial_state).1
     = Ok SetupRunner.Returned ->
     opened evs = present "/repo/sql" all_present SetupRunner.sql_files) /\
    (forall code,
       (SetupRunner.run_setup "/repo/sql" all_present rejecting_env initial_state).1
       = Ok (SetupRunner.Exited code) -> code = 1).
Proof.
  apply (run_setup_files_in_order "/repo/sql" all_present rejecting_env initial_state).
  by destruct (SetupRunner.run_setup _ _ _ _).
Defined.

(** X22.  [run_setup] leaks no connection.  Whenever it finishes without an
    exception, by returning or by [sys.exit], its connector holds no
    connection, and the one connection it may have opened is closed: the
    connections are those there were before, with at most one more, which
    is closed. *)
Theorem run_setup_closes_connection
    (sql_dir : string) (exists_ : string -> bool) (env : environ)
    (st st' : state) (fin : SetupRunner.finish) :
  SetupRunner.run_setup sql_dir exists_ env st = (Ok fin, st') ->
  connection_of st' (length (connectors st)) = None /\
  (conns st' = conns st \/ conns st' = conns st ++ [true]).
Proof.
  intros Hrun.
  destruct (run_setup_run _ _ _ _ _ _ Hrun) as (evs & _ & _ & _ & _ & Hclosed & _).
  by apply (Hclosed fin).
Qed.

Lemma run_setup_closes_connection_witness :
  connection_of
    (SetupRunner.run_setup "/repo/sql" only_warehouse_script rejecting_env
       initial_state).2 0 = None /\
  (conns (SetupRunner.run_setup "/repo/sql" only_warehouse_script rejecting_env
            initial_state).2 = [] \/
   conns (SetupRunner.run_setup "/repo/sql" only_warehouse_script rejecting_env
            initial_state).2 = [true]).
Proof.
  apply (run_setup_closes_connection "/repo/sql" only_warehouse_script rejecting_env
           initial_state _ (SetupRunner.Exited 1)).
  vm_compute. reflexivity.
Defined.



(** ** [APIIngestion._fetch_api_data], whatever the server answers *)

Lemma paced_after_wait rps evs :
  paced rps evs = true -> paced rps (EvSleep (OneOver rps) :: evs) = true.
Proof.
  intros Hpaced. destruct evs as [|e tl]; [done |].
  destruct e; try exact Hpaced. discriminate.
Qed.

Lemma fetch_attempts_paced url method headers params rl n delay env attempts :
  forall st r st',
    APIIngestion.fetch_attempts url method headers params rl n delay attempts env st
    = (r, st') ->
    exists evs,
      trace st' = trace st ++ evs /\
      paced (default 10 (rl_requests_per_second rl)) evs = true /\
      (count_requests evs <= length attempts)%nat.
Proof.
  induction attempts as [|attempt rest IH]; intros st r st' Hrun.
  { injection Hrun as <- <-. exists []. by rewrite app_nil_r. }
  rewrite fetch_attempts_cons in Hrun.
  match type of Hrun with context [try_except _ _ ?h] =>
    set (handler := h) in Hrun
  end.
  set (rps := default 10 (rl_requests_per_second rl)) in *.
  assert (Hhandler : forall e s r1 s1,
    handler e env s = (r1, s1) ->
    exists evs,
      trace s1 = trace s ++ evs /\ paced rps evs = true /\
      (count_requests evs <= length rest)%nat).
  { intros e s r1 s1 Hh. unfold handler in Hh.
    destruct (attempt <? n - 1).
    - unfold bind at 1, print at 1, log_event at 1 in Hh.
      unfold bind at 1 in Hh.
      match type of Hh with context [sleep ?d env ?s0] =>
        destruct (sleep d env s0) as [[[] | e'] s2] eqn:Hsleep;
        destruct (sleep_inv _ _ _ _ _ Hsleep) as [[-> [e2 He2]] | ->];
        try discriminate
      end.
      + destruct (IH _ _ _ Hh) as (evs & Ht & Hpaced & Hcount).
        eexists ([_; _] ++ evs). split.
        { rewrite Ht. simpl. rewrite <- !app_assoc. reflexivity. }
        split; [exact Hpaced | simpl; lia].
      + injection Hh as <- <-. eexists [_]. split; [reflexivity |].
        split; [done | simpl; lia].
      + injection Hh as <- <-. eexists [_; _]. split.
        { simpl. rewrite <- !app_assoc. reflexivity. }
        split; [done | simpl; lia].
    - unfold bind, print, log_event, ret in Hh. injection Hh as <- <-.
      eexists [_]. split; [reflexivity |]. split; [done | simpl; lia]. }
  unfold try_except in Hrun.
  destruct (attempt_body url method headers params rl env st) as [rb sb] eqn:Hbody.
  assert (Hb : exists evsb,
    trace sb = trace st ++ evsb /\
    (forall evs, paced rps evs = true -> paced rps (evsb ++ evs) = true) /\
    (count_requests evsb <= 1)%nat).
  { destruct (attempt_body_inv _ _ _ _ _ _ _ _ _ Hbody)
      as [[-> _] | [[-> _] | [-> _]]].
    - exists []. split; [by rewrite app_nil_r |]. split; [done |]. simpl; lia.
    - eexists [_]. split; [reflexivity |].
      split; [intros evs Hp; by apply paced_after_wait |]. simpl; lia.
    - eexists [_; _]. split; [reflexivity |].
      split; [intros evs Hp; simpl; by rewrite Z.eqb_refl |]. simpl; lia. }
  destruct Hb as (evsb & Htb & Hpb & Hcb).
  assert (Hstop : (r, st') = (rb, sb) ->
    exists evs,
      trace st' = trace st ++ evs /\ paced rps evs = true /\
      (count_requests evs <= length (attempt :: rest))%nat).
  { intros [= -> ->]. exists evsb. split; [exact Htb |].
    split; [| simpl; lia].
    rewrite <- (app_nil_r evsb). by apply Hpb. }
  destruct rb as [o | e]; [by apply Hstop |].
  destruct (is_request_exception e); [| by apply Hstop].
  destruct (Hhandler _ _ _ _ Hrun) as (evs & Ht & Hpaced & Hcount).
  exists (evsb ++ evs). split.
  { rewrite Ht, Htb. by rewrite <- app_assoc. }
  split; [by apply Hpb |].
  rewrite count_requests_app. simpl. lia.
Qed.

(** X24.  Whatever the server answers, [_fetch_api_data] sends at most
    [retry_attempts] requests (none when the setting is not positive), and
    every request it sends comes directly after the rate-limit sleep of
    [1.0 / requests_per_second] seconds. *)
Theorem fetch_is_paced_and_bounded
    (self : APIIngestion.t) (ep : endpoint) (env : environ) (st st' : state)
    (r : outcome (option pyval)) :
  APIIngestion._fetch_api_data self ep env st = (r, st') ->
  exists evs,
    trace st' = trace st ++ evs /\
    paced (requests_per_second_of self) evs = true /\
    (count_requests evs <= Z.to_nat (max_retries_of self))%nat.
Proof.
  intros Hrun.
  destruct (get_auth_headers_spec self ep env st)
    as (headers & st1 & Hauth & (Ht & _) & _).
  rewrite (fetch_api_data_unfold _ _ _ _ _ _ Hauth) in Hrun.
  destruct (fetch_attempts_paced _ _ _ _ _ _ _ _ _ _ _ _ Hrun)
    as (evs & Ht1 & Hpaced & Hcount).
  exists evs. split; [by rewrite Ht1, Ht |]. split; [exact Hpaced |].
  unfold APIIngestion.range in Hcount.
  by rewrite length_map, length_seq in Hcount.
Qed.

Lemma fetch_is_paced_and_bounded_witness :
  exists evs,
    trace (APIIngestion._fetch_api_data (default_api []) (users_endpoint None None)
             down_env one_headers_dict).2
    = trace one_headers_dict ++ evs /\
    paced 10 evs = true /\ (count_requests evs <= 3)%nat.
Proof.
  destruct (APIIngestion._fetch_api_data (default_api []) (users_endpoint None None)
              down_env one_headers_dict) as [r st'] eqn:Hrun.
  exact (fetch_is_paced_and_bounded (default_api []) (users_endpoint None None)
           down_env one_headers_dict st' r Hrun).
Defined.

(** X25.  The context manager closes what it holds.  After [__enter__]
    returned, the connector holds an open connection; and after any code
    that leaves the connector alone, an [__exit__] that returns leaves the
    connector without a connection and that connection closed. *)
Theorem enter_exit_closes_connection
    {A : Type} (self : nat) (body : M A) (env : environ)
    (st st1 st2 st3 : state) (s : nat) (rb : outcome A) :
  (self < length (connectors st))%nat ->
  keeps_store body ->
  ContextManager.enter self env st = (Ok s, st1) ->
  body env st1 = (rb, st2) ->
  ContextManager.exit self env st2 = (Ok tt, st3) ->
  s = self /\
  exists c,
    connection_of st1 self = Some c /\ closed_in st1 c = false /\
    connection_of st3 self = None /\ closed_in st3 c = true.
Proof.
  intros Hlen Hkeeps Henter Hbody Hexit.
  unfold ContextManager.enter, bind in Henter.
  destruct (SnowflakeConnector.connect self env st) as [[c | e] s1] eqn:Hconn;
    [| discriminate].
  injection Henter as <- <-. split; [done |].
  destruct (connect_holds_open _ _ _ _ _ Hlen Hconn) as (Hcur & Hopen & Hlen1).
  exists c. split; [exact Hcur |]. split; [exact Hopen |].
  destruct (Hkeeps _ _ _ _ Hbody) as [Hco Hcs].
  assert (Hcur2 : connection_of st2 self = Some c)
    by (unfold connection_of in *; by rewrite Hco).
  assert (Hopen2 : closed_in st2 c = false)
    by (unfold closed_in in *; by rewrite Hcs).
  unfold ContextManager.exit in Hexit.
  rewrite (close_open _ _ _ _ Hcur2 Hopen2) in Hexit.
  destruct (env_db env (trace st2) (DbClose c)); [discriminate |].
  injection Hexit as <-.
  unfold connection_of, closed_in. simpl.
  assert (Hc : (c < length (conns st2))%nat).
  { unfold closed_in in Hopen2. destruct (conns st2 !! c) eqn:Hl; [| done].
    by apply lookup_lt_Some in Hl. }
  rewrite list_lookup_insert_eq by (rewrite Hco; exact Hlen1).
  by rewrite list_lookup_insert_eq.
Qed.

Lemma enter_exit_closes_connection_witness :
  0%nat = 0%nat /\
  exists c,
    connection_of (ContextManager.enter 0 quiet_env fresh_connector).2 0 = Some c /\
    closed_in (ContextManager.enter 0 quiet_env fresh_connector).2 c = false /\
    connection_of
      (ContextManager.exit 0 quiet_env
         (db_op (DbCursor 0) quiet_env
            (ContextManager.enter 0 quiet_env fresh_connector).2).2).2 0 = None /\
    closed_in
      (ContextManager.exit 0 quiet_env
         (db_op (DbCursor 0) quiet_env
            (ContextManager.enter 0 quiet_env fresh_connector).2).2).2 c = true.
Proof.
  apply (enter_exit_closes_connection 0 (db_op (DbCursor 0)) quiet_env
           fresh_connector
           (ContextManager.enter 0 quiet_env fresh_connector).2
           (db_op (DbCursor 0) quiet_env
              (ContextManager.enter 0 quiet_env fresh_connector).2).2
           (ContextManager.exit 0 quiet_env
              (db_op (DbCursor 0) quiet_env
                 (ContextManager.enter 0 quiet_env fresh_connector).2).2).2
           0%nat (Ok [])).
  - vm_compute. lia.
  - apply keeps_store_db_op.
  - reflexivity.
  - reflexivity.
  - reflexivity.
Defined.

(** ** [APIIngestion._fetch_api_data] with settings [time.sleep] refuses *)

(** X26.  A [requests_per_second] that is negative, or too large for a
    float, ends [_fetch_api_data] with an exception before any wait and any
    request: [ValueError] from [time.sleep] for a negative rate,
    [OverflowError] from the division for a rate beyond the float range.
    Neither is caught by the retry handler. *)
Theorem fetch_with_invalid_rate_raises
    (self : APIIngestion.t) (ep : endpoint) (env : environ) (st : state) :
  0 < max_retries_of self ->
  (- float_limit < requests_per_second_of self < 0 ->
   exists st',
     APIIngestion._fetch_api_data self ep env st
     = (Raise (Exn ValueError "sleep length must be non-negative"), st') /\
     trace st' = trace st)
  /\
  (float_limit <= Z.abs (requests_per_second_of self) ->
   exists st',
     APIIngestion._fetch_api_data self ep env st
     = (Raise (Exn OverflowError "int too large to convert to float"), st') /\
     trace st' = trace st).
Proof.
  intros Hpos.
  destruct (get_auth_headers_spec self ep env st)
    as (headers & st1 & Hrun & (Ht & _) & _).
  rewrite (fetch_api_data_unfold _ _ _ _ _ _ Hrun).
  unfold APIIngestion.range.
  destruct (Z.to_nat (max_retries_of self)) as [|m] eqn:Hn; [lia |].
  cbn [seq map]. rewrite fetch_attempts_cons. unfold try_except.
  unfold attempt_body, APIIngestion.rate_limit_sleep.
  unfold requests_per_second_of.
  set (rps := default 10 (rl_requests_per_second (rate_limit_of self))).
  split.
  - intros [Hlo Hhi].
    assert (Hzero : (rps =? 0) = false) by (apply Z.eqb_neq; lia).
    assert (Hfits : (float_limit <=? Z.abs rps) = false) by (apply Z.leb_gt; lia).
    assert (Hsign : (rps <? 0) = true) by (apply Z.ltb_lt; lia).
    rewrite Hzero, Hfits. unfold sleep. rewrite Hsign.
    unfold bind, raise. cbn [is_request_exception exn_cls].
    by exists st1.
  - intros Hbig.
    assert (Hnz : float_limit > 0) by reflexivity.
    assert (Hzero : (rps =? 0) = false) by (apply Z.eqb_neq; lia).
    assert (Hfits : (float_limit <=? Z.abs rps) = true) by (apply Z.leb_le; lia).
    rewrite Hzero, Hfits.
    unfold bind, raise. cbn [is_request_exception exn_cls].
    by exists st1.
Qed.

Lemma fetch_with_invalid_rate_raises_witness :
  exists st',
    APIIngestion._fetch_api_data (limited_api 3 5 (-2) [])
      (users_endpoint None None) quiet_env one_headers_dict
    = (Raise (Exn ValueError "sleep length must be non-negative"), st') /\
    trace st' = trace one_headers_dict.
Proof.
  apply (fetch_with_invalid_rate_raises (limited_api 3 5 (-2) [])
           (users_endpoint None None) quiet_env one_headers_dict).
  - reflexivity.
  - vm_compute. split; reflexivity.
Defined.

(** X27.  A negative [retry_delay] turns the first transport error into a
    [ValueError]: with more than one attempt configured, the handler prints
    its line and [time.sleep(retry_delay)] raises, so [_fetch_api_data]
    raises after a single request instead of retrying and returning
    [None]. *)
Theorem fetch_with_negative_delay_raises
    (self : APIIngestion.t) (ep : endpoint) (env : environ) (st : state) :
  valid_rate (requests_per_second_of self) ->
  sleeps_granted env ->
  1 < max_retries_of self ->
  - max_sleep_seconds <= retry_delay_of self < 0 ->
  transport_down env ->
  exists st' evs sent,
    APIIngestion._fetch_api_data self ep env st
    = (Raise (Exn ValueError "sleep length must be non-negative"), st') /\
    trace st' = trace st ++ evs /\
    without_prints evs
    = [EvSleep (OneOver (requests_per_second_of self));
       EvRequest (request_of ep sent)].
Proof.
  intros Hrps Hos Hmany [Hlo Hhi] Hdown.
  destruct (get_auth_headers_spec self ep env st)
    as (headers & st1 & Hrun & (Ht & _) & _).
  rewrite (fetch_api_data_unfold _ _ _ _ _ _ Hrun).
  unfold APIIngestion.range.
  destruct (Z.to_nat (max_retries_of self)) as [|m] eqn:Hn; [lia |].
  cbn [seq map]. rewrite fetch_attempts_cons. unfold try_except.
  rewrite attempt_body_unfold by done.
  match goal with |- context [env_http env ?h ?req] =>
    destruct (Hdown h req) as [msg ->]
  end.
  cbn [is_request_exception exn_cls].
  assert (Hfirst : (Z.of_nat 0 <? max_retries_of self - 1) = true)
    by (apply Z.ltb_lt; lia).
  rewrite Hfirst.
  unfold bind at 1, print, log_event. unfold bind at 1, sleep.
  assert (Hrange : ((retry_delay_of self <? - max_sleep_seconds)
                    || (max_sleep_seconds <? retry_delay_of self)) = false).
  { apply orb_false_intro; apply Z.ltb_ge; [lia |].
    unfold max_sleep_seconds in *. lia. }
  assert (Hsign : (retry_delay_of self <? 0) = true) by (apply Z.ltb_lt; lia).
  rewrite Hrange, Hsign. unfold raise.
  eexists _, [_; _; _], (default ∅ (dicts st1 !! headers)).
  split; [reflexivity |]. split.
  - simpl. rewrite Ht. by rewrite <- !app_assoc.
  - reflexivity.
Qed.

Lemma fetch_with_negative_delay_raises_witness :
  exists st' evs sent,
    APIIngestion._fetch_api_data (limited_api 3 (-1) 10 [])
      (users_endpoint None None) down_env one_headers_dict
    = (Raise (Exn ValueError "sleep length must be non-negative"), st') /\
    trace st' = trace one_headers_dict ++ evs /\
    without_prints evs
    = [EvSleep (OneOver 10);
       EvRequest (request_of (users_endpoint None None) sent)].
Proof.
  apply (fetch_with_negative_delay_raises (limited_api 3 (-1) 10 [])
           (users_endpoint None None) down_env one_headers_dict).
  - split; reflexivity.
  - intros h d. reflexivity.
  - reflexivity.
  - vm_compute. split; [discriminate | reflexivity].
  - intros h r. by exists "Connection refused".
Defined.
